(** * QuicSocket: the UDP-facing packet dispatcher of the QUIC endpoint

    A shallow embedding of [src/quic/node_quic_socket.cc] and the properties
    of its dispatch paths: the reserved version of version negotiation, the
    receive demultiplexer, the acceptance of initial packets, the stateless
    reset defence and the send path. *)

From Stdlib Require Import ZArith List Lia Bool String.
From stdpp Require Import base option gmap list.

Local Open Scope Z_scope.

(** ** Machine integers *)

Definition UINT32_MOD : Z := 2 ^ 32.
Definition UINT64_MAX : Z := 2 ^ 64 - 1.
Definition SIZE_MOD : Z := 2 ^ 64.

(** A [uint8_t] is a [Z]; buffers, connection ids and socket addresses are
    lists of them. *)
Abbreviation bytes := (list Z).

(** ** GenerateReservedVersion (lines 47-68) *)

Module ReservedVersion.

(** The byte order of the host decides both what [htonl] does and how the
    four bytes of a [uint32_t] object lie in memory. *)
Inductive byte_order := LittleEndian | BigEndian.

Definition byte_at (v : Z) (i : Z) : Z := Z.land (Z.shiftr v (8 * i)) 255.

Definition bswap32 (v : Z) : Z :=
  Z.lor (Z.lor (Z.shiftl (byte_at v 0) 24) (Z.shiftl (byte_at v 1) 16))
        (Z.lor (Z.shiftl (byte_at v 2) 8) (byte_at v 3)).

Definition htonl (bo : byte_order) (v : Z) : Z :=
  match bo with
  | LittleEndian => bswap32 v
  | BigEndian => v
  end.

(** [reinterpret_cast<const uint8_t*>(&version)]: the object
    representation, lowest address first. *)
Definition object_bytes (bo : byte_order) (v : Z) : bytes :=
  match bo with
  | LittleEndian => [byte_at v 0; byte_at v 1; byte_at v 2; byte_at v 3]
  | BigEndian => [byte_at v 3; byte_at v 2; byte_at v 1; byte_at v 0]
  end.

(** One round of either [for] loop: [h ^= *p; h *= 0x01000193u;] on a
    [uint32_t]. *)
Definition round (h : Z) (b : Z) : Z :=
  (Z.lxor h b * 0x01000193) mod UINT32_MOD.

(** [for (; p != ep; ++p)] over the bytes between [p] and [ep]. *)
Fixpoint walk (h : Z) (p : bytes) : Z :=
  match p with
  | [] => h
  | b :: p' => walk (round h b) p'
  end.

(** [addr] is given by the [SocketAddress::GetLength(addr)] raw bytes of the
    sockaddr. *)
Definition GenerateReservedVersion
    (bo : byte_order) (addr : bytes) (version : Z) : Z :=
  let h := 0x811C9DC5 in
  let h := walk h addr in
  let version := htonl bo version in
  let h := walk h (object_bytes bo version) in
  let h := Z.land h 0xf0f0f0f0 in
  let h := Z.lor h 0x0a0a0a0a in
  h.

(** The specification's wording (section 4.6.3): a 32-bit FNV-1a hash of
    the sockaddr bytes followed by the version in network order, masked. *)
Definition network_bytes (v : Z) : bytes :=
  [byte_at v 3; byte_at v 2; byte_at v 1; byte_at v 0].

Definition fnv1a_32 (input : bytes) : Z :=
  fold_left (fun h b => (Z.lxor h b * 0x01000193) mod 2 ^ 32)
            input 0x811C9DC5.

Definition reserved_version_spec (a : bytes) (v : Z) : Z :=
  Z.lor (Z.land (fnv1a_32 (a ++ network_bytes v)) 0xF0F0F0F0) 0x0A0A0A0A.

End ReservedVersion.

(** ** What the file takes from outside

    The constants of [ngtcp2.h], the packet encoders of ngtcp2 and the byte
    order of the host are not part of this file. They are gathered in one
    interface; the encoders appear by the number of bytes they report, which
    is all the callers read. *)

Class Platform := {
  host_byte_order : ReservedVersion.byte_order;
  NGTCP2_PROTO_VER : Z;
  NGTCP2_MAX_CIDLEN : Z;
  NGTCP2_MAX_PKT_SIZE : Z;
  NGTCP2_MAX_PKTLEN_IPV4 : Z;
  NGTCP2_MAX_PKTLEN_IPV6 : Z;
  NGTCP2_MIN_STATELESS_RESET_RANDLEN : Z;
  kScidLen : Z;
  (** [ngtcp2_pkt_write_version_negotiation(dest, destlen, unused_random,
      dcid, dcidlen, scid, scidlen, sv, nsv)], by [destlen], [dcidlen],
      [scidlen] and [nsv]. *)
  ngtcp2_pkt_write_version_negotiation : Z -> Z -> Z -> Z -> Z;
  (** [ngtcp2_pkt_write_stateless_reset(dest, destlen, token, rand,
      randlen)], by [destlen] and [randlen]. *)
  ngtcp2_pkt_write_stateless_reset : Z -> Z -> Z;
  (** [ngtcp2_pkt_write_retry(dest, destlen, hd, ocid, token, tokenlen)], by
      [destlen], the lengths of [hd.dcid], [hd.scid] and [ocid], and
      [tokenlen]. *)
  ngtcp2_pkt_write_retry : Z -> Z -> Z -> Z -> Z -> Z
}.

(** Modelled from the spec: [NGTCP2_STATELESS_RESET_TOKENLEN] ([ngtcp2.h] is
    not under src/); section 3 makes the stateless reset token a 16-byte
    value, the same 16 that [MaybeStatelessReset] compares [nread] with. *)
Definition NGTCP2_STATELESS_RESET_TOKENLEN : Z := 16.

(** ** Data *)

Abbreviation QuicCID := (list Z) (only parsing).
Abbreviation sockaddr := (list Z) (only parsing).
Abbreviation StatelessResetToken := (list Z) (only parsing).

Definition len (b : bytes) : Z := Z.of_nat (length b).

(** A [BaseObjectPtr<QuicSession>] is [option Session]; the sessions
    themselves belong to the session collaborator. *)
Definition Session := nat.

(** The two transport error codes this file hands to the session factory. *)
Inductive ConnectionClose := NGTCP2_NO_ERROR | NGTCP2_SERVER_BUSY.

Definition ConnectionClose_eqb (a b : ConnectionClose) : bool :=
  match a, b with
  | NGTCP2_NO_ERROR, NGTCP2_NO_ERROR => true
  | NGTCP2_SERVER_BUSY, NGTCP2_SERVER_BUSY => true
  | _, _ => false
  end.

(** [QuicSession::InitialPacketResult]. *)
Inductive InitialPacketResult :=
  PACKET_OK | PACKET_VERSION | PACKET_RETRY | PACKET_IGNORE.

(** What an encoder was asked to write, argument by argument. *)
Inductive PacketBody :=
| Unwritten
| VersionNegotiationBody
    (unused_random : Z) (dcid : QuicCID) (scid : QuicCID) (sv : list Z)
| StatelessResetBody (token_of : QuicCID) (random : bytes) (randlen : Z)
| RetryBody
    (hd_version : Z) (hd_dcid : QuicCID) (hd_scid : QuicCID)
    (ocid : QuicCID) (token : bytes).

(** [QuicPacket]: [data_] is a buffer of [data_size] bytes; [length] is what
    [set_length] recorded. *)
Record QuicPacket := {
  diagnostic_label_ : string;
  data_size : Z;
  data_ : PacketBody;
  length_ : Z
}.

Record SendWrap := {
  packet_ : option QuicPacket;
  session_ : option Session
}.

(** [socket_stats], without the three timestamps. *)
Inductive stat :=
| bytes_received | bytes_sent | packets_received | packets_sent
| packets_ignored | server_sessions | client_sessions
| stateless_reset_count.

#[global] Instance stat_eq_dec : EqDecision stat.
Proof. solve_decision. Defined.

Record socket_stats := {
  st_bytes_received : Z;
  st_bytes_sent : Z;
  st_packets_received : Z;
  st_packets_sent : Z;
  st_packets_ignored : Z;
  st_server_sessions : Z;
  st_client_sessions : Z;
  st_stateless_reset_count : Z
}.

Definition get_stat (f : stat) (st : socket_stats) : Z :=
  match f with
  | bytes_received => st_bytes_received st
  | bytes_sent => st_bytes_sent st
  | packets_received => st_packets_received st
  | packets_sent => st_packets_sent st
  | packets_ignored => st_packets_ignored st
  | server_sessions => st_server_sessions st
  | client_sessions => st_client_sessions st
  | stateless_reset_count => st_stateless_reset_count st
  end.

Definition set_stat (f : stat) (v : Z) (st : socket_stats) : socket_stats :=
  let pick g := if decide (f = g) then v else get_stat g st in
  {| st_bytes_received := pick bytes_received;
     st_bytes_sent := pick bytes_sent;
     st_packets_received := pick packets_received;
     st_packets_sent := pick packets_sent;
     st_packets_ignored := pick packets_ignored;
     st_server_sessions := pick server_sessions;
     st_client_sessions := pick client_sessions;
     st_stateless_reset_count := pick stateless_reset_count |}.

(** What the socket does to the world outside, in call order. *)
Inductive Effect :=
| SessionReceive (session : Session) (nread : Z) (remote_addr : sockaddr)
| SessionCreateServer
    (dcid : QuicCID) (remote_addr : sockaddr) (scid : QuicCID)
    (ocid_ptr : option QuicCID) (version : Z)
    (initial_connection_close : ConnectionClose)
| ListenerOnSessionReady (session : option Session)
| ListenerOnError (code : Z)
| EndpointSend (remote_addr : sockaddr) (packet : QuicPacket).

(** The members of [QuicSocket] that the receive and send paths touch.
    [flags_] and [options_] are bit sets in the source; each bit is a
    boolean here. [effects] is the history of calls out of the socket. *)
Record QuicSocket := {
  QUICSOCKET_FLAGS_SERVER_LISTENING : bool;
  QUICSOCKET_FLAGS_SERVER_BUSY : bool;
  QUICSOCKET_FLAGS_DISABLE_STATELESS_RESET : bool;
  QUICSOCKET_OPTIONS_VALIDATE_ADDRESS : bool;
  QUICSOCKET_OPTIONS_VALIDATE_ADDRESS_LRU : bool;
  max_connections_per_host_ : Z;
  max_stateless_resets_per_host_ : Z;
  sessions_ : gmap (list Z) Session;
  dcid_to_scid_ : gmap (list Z) (list Z);
  addr_counts_ : gmap (list Z) Z;
  reset_counts_ : gmap (list Z) Z;
  token_map_ : gmap (list Z) Session;
  validated_addrs_ : list (list Z);
  preferred_endpoint_ : bool;
  last_created_send_wrap_ : option SendWrap;
  socket_stats_ : socket_stats;
  effects : list Effect
}.

(** Field updates. *)

Definition set_socket_stats_ (v : socket_stats) (s : QuicSocket) : QuicSocket :=
  {| QUICSOCKET_FLAGS_SERVER_LISTENING := QUICSOCKET_FLAGS_SERVER_LISTENING s;
     QUICSOCKET_FLAGS_SERVER_BUSY := QUICSOCKET_FLAGS_SERVER_BUSY s;
     QUICSOCKET_FLAGS_DISABLE_STATELESS_RESET :=
       QUICSOCKET_FLAGS_DISABLE_STATELESS_RESET s;
     QUICSOCKET_OPTIONS_VALIDATE_ADDRESS := QUICSOCKET_OPTIONS_VALIDATE_ADDRESS s;
     QUICSOCKET_OPTIONS_VALIDATE_ADDRESS_LRU :=
       QUICSOCKET_OPTIONS_VALIDATE_ADDRESS_LRU s;
     max_connections_per_host_ := max_connections_per_host_ s;
     max_stateless_resets_per_host_ := max_stateless_resets_per_host_ s;
     sessions_ := sessions_ s;
     dcid_to_scid_ := dcid_to_scid_ s;
     addr_counts_ := addr_counts_ s;
     reset_counts_ := reset_counts_ s;
     token_map_ := token_map_ s;
     validated_addrs_ := validated_addrs_ s;
     preferred_endpoint_ := preferred_endpoint_ s;
     last_created_send_wrap_ := last_created_send_wrap_ s;
     socket_stats_ := v;
     effects := effects s |}.

Definition set_effects (v : list Effect) (s : QuicSocket) : QuicSocket :=
  {| QUICSOCKET_FLAGS_SERVER_LISTENING := QUICSOCKET_FLAGS_SERVER_LISTENING s;
     QUICSOCKET_FLAGS_SERVER_BUSY := QUICSOCKET_FLAGS_SERVER_BUSY s;
     QUICSOCKET_FLAGS_DISABLE_STATELESS_RESET :=
       QUICSOCKET_FLAGS_DISABLE_STATELESS_RESET s;
     QUICSOCKET_OPTIONS_VALIDATE_ADDRESS := QUICSOCKET_OPTIONS_VALIDATE_ADDRESS s;
     QUICSOCKET_OPTIONS_VALIDATE_ADDRESS_LRU :=
       QUICSOCKET_OPTIONS_VALIDATE_ADDRESS_LRU s;
     max_connections_per_host_ := max_connections_per_host_ s;
     max_stateless_resets_per_host_ := max_stateless_resets_per_host_ s;
     sessions_ := sessions_ s;
     dcid_to_scid_ := dcid_to_scid_ s;
     addr_counts_ := addr_counts_ s;
     reset_counts_ := reset_counts_ s;
     token_map_ := token_map_ s;
     validated_addrs_ := validated_addrs_ s;
     preferred_endpoint_ := preferred_endpoint_ s;
     last_created_send_wrap_ := last_created_send_wrap_ s;
     socket_stats_ := socket_stats_ s;
     effects := v |}.

Definition set_reset_counts_ (v : gmap (list Z) Z) (s : QuicSocket) : QuicSocket :=
  {| QUICSOCKET_FLAGS_SERVER_LISTENING := QUICSOCKET_FLAGS_SERVER_LISTENING s;
     QUICSOCKET_FLAGS_SERVER_BUSY := QUICSOCKET_FLAGS_SERVER_BUSY s;
     QUICSOCKET_FLAGS_DISABLE_STATELESS_RESET :=
       QUICSOCKET_FLAGS_DISABLE_STATELESS_RESET s;
     QUICSOCKET_OPTIONS_VALIDATE_ADDRESS := QUICSOCKET_OPTIONS_VALIDATE_ADDRESS s;
     QUICSOCKET_OPTIONS_VALIDATE_ADDRESS_LRU :=
       QUICSOCKET_OPTIONS_VALIDATE_ADDRESS_LRU s;
     max_connections_per_host_ := max_connections_per_host_ s;
     max_stateless_resets_per_host_ := max_stateless_resets_per_host_ s;
     sessions_ := sessions_ s;
     dcid_to_scid_ := dcid_to_scid_ s;
     addr_counts_ := addr_counts_ s;
     reset_counts_ := v;
     token_map_ := token_map_ s;
     validated_addrs_ := validated_addrs_ s;
     preferred_endpoint_ := preferred_endpoint_ s;
     last_created_send_wrap_ := last_created_send_wrap_ s;
     socket_stats_ := socket_stats_ s;
     effects := effects s |}.

Definition set_validated_addrs_ (v : list (list Z)) (s : QuicSocket) : QuicSocket :=
  {| QUICSOCKET_FLAGS_SERVER_LISTENING := QUICSOCKET_FLAGS_SERVER_LISTENING s;
     QUICSOCKET_FLAGS_SERVER_BUSY := QUICSOCKET_FLAGS_SERVER_BUSY s;
     QUICSOCKET_FLAGS_DISABLE_STATELESS_RESET :=
       QUICSOCKET_FLAGS_DISABLE_STATELESS_RESET s;
     QUICSOCKET_OPTIONS_VALIDATE_ADDRESS := QUICSOCKET_OPTIONS_VALIDATE_ADDRESS s;
     QUICSOCKET_OPTIONS_VALIDATE_ADDRESS_LRU :=
       QUICSOCKET_OPTIONS_VALIDATE_ADDRESS_LRU s;
     max_connections_per_host_ := max_connections_per_host_ s;
     max_stateless_resets_per_host_ := max_stateless_resets_per_host_ s;
     sessions_ := sessions_ s;
     dcid_to_scid_ := dcid_to_scid_ s;
     addr_counts_ := addr_counts_ s;
     reset_counts_ := reset_counts_ s;
     token_map_ := token_map_ s;
     validated_addrs_ := v;
     preferred_endpoint_ := preferred_endpoint_ s;
     last_created_send_wrap_ := last_created_send_wrap_ s;
     socket_stats_ := socket_stats_ s;
     effects := effects s |}.

Definition set_last_created_send_wrap_
    (v : option SendWrap) (s : QuicSocket) : QuicSocket :=
  {| QUICSOCKET_FLAGS_SERVER_LISTENING := QUICSOCKET_FLAGS_SERVER_LISTENING s;
     QUICSOCKET_FLAGS_SERVER_BUSY := QUICSOCKET_FLAGS_SERVER_BUSY s;
     QUICSOCKET_FLAGS_DISABLE_STATELESS_RESET :=
       QUICSOCKET_FLAGS_DISABLE_STATELESS_RESET s;
     QUICSOCKET_OPTIONS_VALIDATE_ADDRESS := QUICSOCKET_OPTIONS_VALIDATE_ADDRESS s;
     QUICSOCKET_OPTIONS_VALIDATE_ADDRESS_LRU :=
       QUICSOCKET_OPTIONS_VALIDATE_ADDRESS_LRU s;
     max_connections_per_host_ := max_connections_per_host_ s;
     max_stateless_resets_per_host_ := max_stateless_resets_per_host_ s;
     sessions_ := sessions_ s;
     dcid_to_scid_ := dcid_to_scid_ s;
     addr_counts_ := addr_counts_ s;
     reset_counts_ := reset_counts_ s;
     token_map_ := token_map_ s;
     validated_addrs_ := validated_addrs_ s;
     preferred_endpoint_ := preferred_endpoint_ s;
     last_created_send_wrap_ := v;
     socket_stats_ := socket_stats_ s;
     effects := effects s |}.

(** The three tables a new server session enters. *)
Definition set_session_tables
    (ss : gmap (list Z) Session) (tm : gmap (list Z) Session)
    (ac : gmap (list Z) Z) (s : QuicSocket) : QuicSocket :=
  {| QUICSOCKET_FLAGS_SERVER_LISTENING := QUICSOCKET_FLAGS_SERVER_LISTENING s;
     QUICSOCKET_FLAGS_SERVER_BUSY := QUICSOCKET_FLAGS_SERVER_BUSY s;
     QUICSOCKET_FLAGS_DISABLE_STATELESS_RESET :=
       QUICSOCKET_FLAGS_DISABLE_STATELESS_RESET s;
     QUICSOCKET_OPTIONS_VALIDATE_ADDRESS := QUICSOCKET_OPTIONS_VALIDATE_ADDRESS s;
     QUICSOCKET_OPTIONS_VALIDATE_ADDRESS_LRU :=
       QUICSOCKET_OPTIONS_VALIDATE_ADDRESS_LRU s;
     max_connections_per_host_ := max_connections_per_host_ s;
     max_stateless_resets_per_host_ := max_stateless_resets_per_host_ s;
     sessions_ := ss;
     dcid_to_scid_ := dcid_to_scid_ s;
     addr_counts_ := ac;
     reset_counts_ := reset_counts_ s;
     token_map_ := tm;
     validated_addrs_ := validated_addrs_ s;
     preferred_endpoint_ := preferred_endpoint_ s;
     last_created_send_wrap_ := last_created_send_wrap_ s;
     socket_stats_ := socket_stats_ s;
     effects := effects s |}.

(** ** Control flow: a state monad with fatal assertions

    A member function runs on the socket and either returns a value and the
    socket it leaves behind, or stops the process at a failed [CHECK]. *)

Inductive outcome (A : Type) :=
| Done (a : A) (s : QuicSocket)
| Crash.
Arguments Done {A} a s.
Arguments Crash {A}.

Definition M (A : Type) : Type := QuicSocket -> outcome A.

Definition ret {A} (a : A) : M A := fun s => Done a s.

Definition bind {A B} (m : M A) (k : A -> M B) : M B :=
  fun s => match m s with
           | Done a s' => k a s'
           | Crash => Crash
           end.

Notation "'let*' x := m 'in' k" := (bind m (fun x => k))
  (at level 10, x name, m at level 100, k at level 200).
Notation "m ;;; k" := (bind m (fun _ => k))
  (at level 100, k at level 200, right associativity).

Definition get : M QuicSocket := fun s => Done s s.
Definition modify (f : QuicSocket -> QuicSocket) : M unit :=
  fun s => Done tt (f s).
Definition abort {A} : M A := fun _ => Crash.
Definition CHECK (b : bool) : M unit :=
  fun s => if b then Done tt s else Crash.
Definition emit (e : Effect) : M unit :=
  modify (fun s => set_effects (effects s ++ [e]) s).

(** ** The answers of the collaborators

    One record holds what everything outside this file answers during one
    call into the socket: the loss draws, the header parser of ngtcp2, the
    session collaborator, the token helpers, the entropy source and the UDP
    endpoint. *)

Record VersionCid := {
  pversion : Z;
  pdcid : bytes;
  (** [None] is [pscid == nullptr]; [pscidlen] is then 0. *)
  pscid : option bytes
}.

Record Env := {
  (** [is_diagnostic_packet_loss(rx_loss_)], [is_diagnostic_packet_loss(tx_loss_)] *)
  rx_loss_draw : bool;
  tx_loss_draw : bool;
  (** [ngtcp2_pkt_decode_version_cid]; [None] when it returns below zero. *)
  decode_version_cid : option VersionCid;
  (** [QuicSession::Receive] of each session on this datagram. *)
  receive : Session -> bool;
  (** [QuicSession::Accept] and whether it left [hd.type == NGTCP2_PKT_INITIAL]. *)
  accept : InitialPacketResult;
  hd_type_initial : bool;
  (** [InvalidRetryToken]: [None] when the token is invalid, else the
      original connection id it recovers. *)
  retry_token_ocid : option bytes;
  (** [QuicSession::CreateServer]: the new session and its stateless reset
      token, or [None] when no session could be created. *)
  create_server : option (Session * bytes);
  (** [GenerateRetryToken]: the token, or [None] on failure. *)
  generate_retry_token : option bytes;
  (** [EntropySource(buf, n)] *)
  EntropySource : Z -> bytes;
  (** [preferred_endpoint_->Send]: the status, and whether the endpoint
      called back [OnCreateSendWrap] with success. *)
  endpoint_send : Z;
  send_wrap_created : bool
}.

(** ** The socket *)

Section Socket.
Context `{P : Platform}.

(** *** Helpers declared in the headers *)

(** The value that a signed argument has as a [uint64_t] parameter: a
    negative [ssize_t] wraps around. *)
Definition to_uint64 (amount : Z) : Z :=
  if amount <? 0 then amount + (UINT64_MAX + 1) else amount.

(** Modelled from the spec: [IncrementSocketStat] (declared in a header
    that is not under src/). Section 4.6.7 makes the statistics monotonic
    u64 counters: the amount, itself a u64, is added and the sum stays at
    the largest u64 once it is reached. The callers pass a [size_t], the
    literal 1 and, at line 435, the [ssize_t nread]. *)
Definition IncrementSocketStat (amount : Z) (f : stat) : M unit :=
  modify (fun s =>
    let current := get_stat f (socket_stats_ s) in
    let delta := Z.min (to_uint64 amount) (UINT64_MAX - current) in
    set_socket_stats_ (set_stat f (current + delta) (socket_stats_ s)) s).

(** [QuicPacket::QuicPacket] (lines 80-84) behind [QuicPacket::Create]. *)
Definition QuicPacket_Create (diagnostic_label : string) (len : Z)
    : M QuicPacket :=
  CHECK (len <=? NGTCP2_MAX_PKT_SIZE) ;;;
  ret {| diagnostic_label_ := diagnostic_label; data_size := len;
         data_ := Unwritten; length_ := len |}.

(** The encoder fills the buffer of the packet. *)
Definition written (body : PacketBody) (p : QuicPacket) : QuicPacket :=
  {| diagnostic_label_ := diagnostic_label_ p; data_size := data_size p;
     data_ := body; length_ := length_ p |}.

(** Modelled from the spec: [QuicPacket::set_length] (declared in a header
    that is not under src/). Section 4.1: [set_length(n)] where
    [n <= capacity]; a larger [n] is a misuse and stops the process like
    the other assertions of the packet. *)
Definition set_length (n : Z) (p : QuicPacket) : M QuicPacket :=
  CHECK (n <=? data_size p) ;;;
  ret {| diagnostic_label_ := diagnostic_label_ p; data_size := data_size p;
         data_ := data_ p; length_ := n |}.

Definition is_stateless_reset_disabled (s : QuicSocket) : bool :=
  QUICSOCKET_FLAGS_DISABLE_STATELESS_RESET s.

(** Modelled from the spec: [GetCurrentStatelessResetCounter] and
    [IncrementStatelessResetCounter] (declared in a header that is not
    under src/). Section 4.4: [current_resets(peer)] reads the per-peer
    count, absent peers count zero, and [inc_resets(peer)] adds one. *)
Definition GetCurrentStatelessResetCounter (addr : sockaddr) (s : QuicSocket)
    : Z :=
  default 0 (reset_counts_ s !! addr).

Definition IncrementStatelessResetCounter (addr : sockaddr) : M unit :=
  modify (fun s =>
    set_reset_counts_
      (<[addr := GetCurrentStatelessResetCounter addr s + 1]>
         (reset_counts_ s)) s).

(** Modelled from the spec: [GetCurrentSocketAddressCounter] (declared in a
    header that is not under src/). Section 4.4: [current_conns(peer)]. *)
Definition GetCurrentSocketAddressCounter (addr : sockaddr) (s : QuicSocket)
    : Z :=
  default 0 (addr_counts_ s !! addr).

(** Modelled from the spec: [is_validated_address] and
    [set_validated_address] (declared in a header that is not under src/).
    Section 4.4: an LRU of capacity 100, [set_validated] inserts or
    promotes, [is_validated] queries without promoting; section 6.3 and the
    comment at lines 757-760: the LRU is used only with the
    validate-address-LRU option. *)
Definition VALIDATED_ADDR_LRU : nat := 100.

Definition is_validated_address (addr : sockaddr) (s : QuicSocket) : bool :=
  QUICSOCKET_OPTIONS_VALIDATE_ADDRESS_LRU s &&
  bool_decide (addr ∈ validated_addrs_ s).

Definition set_validated_address (addr : sockaddr) : M unit :=
  modify (fun s =>
    if QUICSOCKET_OPTIONS_VALIDATE_ADDRESS_LRU s
    then set_validated_addrs_
           (take VALIDATED_ADDR_LRU
              (addr :: filter (fun a => a <> addr) (validated_addrs_ s))) s
    else s).

(** [QuicSession::Receive], a call out of the socket. *)
Definition Session_Receive
    (e : Env) (session : Session) (nread : Z) (remote_addr : sockaddr)
    : M bool :=
  emit (SessionReceive session nread remote_addr) ;;;
  ret (receive e session).

(** Modelled from the spec: [QuicSession::CreateServer] (the session
    collaborator is not under src/). Section 4.6.2, step 4: on success the
    session is registered under DCID, its stateless reset token is
    registered and [conns_by_peer[remote]] is incremented. *)
Definition Session_CreateServer
    (e : Env) (dcid : QuicCID) (remote_addr : sockaddr) (scid : QuicCID)
    (ocid_ptr : option QuicCID) (version : Z)
    (initial_connection_close : ConnectionClose) : M (option Session) :=
  emit (SessionCreateServer dcid remote_addr scid ocid_ptr version
          initial_connection_close) ;;;
  match create_server e with
  | None => ret None
  | Some (session, token) =>
      modify (fun s =>
        set_session_tables
          (<[dcid := session]> (sessions_ s))
          (<[token := session]> (token_map_ s))
          (<[remote_addr := GetCurrentSocketAddressCounter remote_addr s + 1]>
             (addr_counts_ s)) s) ;;;
      ret (Some session)
  end.

(** [preferred_endpoint_->Send]: the datagram goes to the UDP handle, which
    asks [OnCreateSendWrap] (lines 363-369) for the request object. *)
Definition Endpoint_Send (e : Env) (remote_addr : sockaddr) (packet : QuicPacket)
    : M Z :=
  emit (EndpointSend remote_addr packet) ;;;
  (if send_wrap_created e
   then modify (set_last_created_send_wrap_
                  (Some {| packet_ := None; session_ := None |}))
   else ret tt) ;;;
  ret (endpoint_send e).

(** *** IsShortHeader (lines 70-77) *)
Definition IsShortHeader (version : Z) (pscid : option bytes) (pscidlen : Z)
    : bool :=
  (version =? NGTCP2_PROTO_VER) &&
  (if pscid is None then true else false) &&
  (pscidlen =? 0).

(** *** FindSession (lines 384-398) *)
Definition FindSession (cid : QuicCID) : M (option Session) :=
  let* s := get in
  match sessions_ s !! cid with
  | None =>
      match dcid_to_scid_ s !! cid with
      | Some scid =>
          match sessions_ s !! scid with
          | None => abort
          | Some session => ret (Some session)
          end
      | None => ret None
      end
  | Some session => ret (Some session)
  end.

(** *** OnSend (lines 861-880) *)
Definition OnSend (status : Z) (packet : QuicPacket) : M unit :=
  if status =? 0 then
    IncrementSocketStat (length_ packet) bytes_sent ;;;
    IncrementSocketStat 1 packets_sent
  else ret tt.

(** *** SendPacket (lines 819-859) *)
Definition SendPacket
    (e : Env) (remote_addr : sockaddr) (packet : QuicPacket)
    (session : option Session) : M Z :=
  if length_ packet =? 0 then ret 0 else
  if tx_loss_draw e then ret 0 else
  modify (set_last_created_send_wrap_ None) ;;;
  let* s := get in
  CHECK (preferred_endpoint_ s) ;;;
  let* err := Endpoint_Send e remote_addr packet in
  if negb (err =? 0) then
    let err := if err >? 0 then 0 else err in
    OnSend err packet ;;;
    ret err
  else
    let* s := get in
    match last_created_send_wrap_ s with
    | None => abort
    | Some wrap =>
        let wrap := {| packet_ := Some packet; session_ := session_ wrap |} in
        let wrap :=
          if session is Some _
          then {| packet_ := packet_ wrap; session_ := session |}
          else wrap in
        modify (set_last_created_send_wrap_ (Some wrap)) ;;;
        ret err
    end.

(** *** SendVersionNegotiation (lines 554-585) *)
Definition SendVersionNegotiation
    (e : Env) (version : Z) (dcid scid : QuicCID) (remote_addr : sockaddr)
    : M unit :=
  let sv :=
    [ReservedVersion.GenerateReservedVersion host_byte_order remote_addr version;
     NGTCP2_PROTO_VER] in
  let unused_random := hd 0 (EntropySource e 1) in
  let pktlen := len dcid + len scid + 4 * len sv + 7 in
  let* packet := QuicPacket_Create "version negotiation" pktlen in
  let nwrite :=
    ngtcp2_pkt_write_version_negotiation
      NGTCP2_MAX_PKTLEN_IPV6 (len dcid) (len scid) (len sv) in
  let packet := written (VersionNegotiationBody unused_random dcid scid sv) packet in
  if nwrite <=? 0 then ret tt else
  let* packet := set_length nwrite packet in
  SendPacket e remote_addr packet None ;;;
  ret tt.

(** *** SendStatelessReset (lines 587-635) *)
Definition kMinStatelessResetLen : Z := 41.

Definition SendStatelessReset
    (e : Env) (cid : QuicCID) (remote_addr : sockaddr) (source_len : Z)
    : M bool :=
  let* s := get in
  if is_stateless_reset_disabled s then ret false else
  let kRandlen := NGTCP2_MIN_STATELESS_RESET_RANDLEN * 5 in
  if GetCurrentStatelessResetCounter remote_addr s >=?
       max_stateless_resets_per_host_ s
  then ret false else
  let pktlen := (source_len - 1) mod SIZE_MOD in
  if pktlen <? kMinStatelessResetLen then ret false else
  let random := EntropySource e kRandlen in
  let* packet := QuicPacket_Create "stateless reset" pktlen in
  let nwrite :=
    ngtcp2_pkt_write_stateless_reset NGTCP2_MAX_PKTLEN_IPV4 kRandlen in
  let packet := written (StatelessResetBody cid random kRandlen) packet in
  if nwrite <? kMinStatelessResetLen then ret false else
  let* packet := set_length nwrite packet in
  IncrementStatelessResetCounter remote_addr ;;;
  let* err := SendPacket e remote_addr packet None in
  ret (err =? 0).

(** *** SendRetry (lines 637-685) *)
Definition SendRetry
    (e : Env) (version : Z) (dcid scid : QuicCID) (remote_addr : sockaddr)
    : M bool :=
  match generate_retry_token e with
  | None => ret false
  | Some token =>
      let tokenlen := len token in
      let hd_dcid := scid in
      let hd_scid := EntropySource e kScidLen in
      let pktlen := tokenlen + 2 * NGTCP2_MAX_CIDLEN + len scid + 8 in
      CHECK (pktlen <=? NGTCP2_MAX_PKT_SIZE) ;;;
      let* packet := QuicPacket_Create "retry" pktlen in
      let nwrite :=
        ngtcp2_pkt_write_retry
          NGTCP2_MAX_PKTLEN_IPV4 (len hd_dcid) kScidLen (len dcid) tokenlen in
      let packet := written (RetryBody version hd_dcid hd_scid dcid token) packet in
      if nwrite <=? 0 then ret false else
      let* packet := set_length nwrite packet in
      let* err := SendPacket e remote_addr packet None in
      ret (err =? 0)
  end.

(** *** AcceptInitialPacket (lines 687-800) *)

(** Lines 782-799, which the function reaches with [ocid_ptr] null or set:
    the session factory, then the listener. The call of the listener is
    recorded with the session that it is given, and the socket goes on to
    line 799 when the listener returns. What the listener does is not the
    socket's: [QuicSocketListener::OnSessionReady] forwards the call, and
    [JSQuicSocketListener::OnSessionReady] (lines 151-156) reads
    [session->object()], also of an empty session. *)
Definition AcceptInitialPacket_create
    (e : Env) (version : Z) (dcid scid : QuicCID) (remote_addr : sockaddr)
    (ocid_ptr : option QuicCID) (initial_connection_close : ConnectionClose)
    : M (option Session) :=
  let* session :=
    Session_CreateServer e dcid remote_addr scid ocid_ptr version
      initial_connection_close in
  emit (ListenerOnSessionReady session) ;;;
  ret session.

Definition AcceptInitialPacket
    (e : Env) (version : Z) (dcid scid : QuicCID) (nread : Z) (data : bytes)
    (remote_addr : sockaddr) : M (option Session) :=
  let initial_connection_close := NGTCP2_NO_ERROR in
  let* s := get in
  if negb (QUICSOCKET_FLAGS_SERVER_LISTENING s) then ret None else
  match accept e with
  | PACKET_VERSION =>
      SendVersionNegotiation e version dcid scid remote_addr ;;;
      ret None
  | PACKET_RETRY =>
      SendRetry e version dcid scid remote_addr ;;;
      ret None
  | PACKET_IGNORE => ret None
  | PACKET_OK =>
      let initial_connection_close :=
        if QUICSOCKET_FLAGS_SERVER_BUSY s
        then NGTCP2_SERVER_BUSY else initial_connection_close in
      let initial_connection_close :=
        if GetCurrentSocketAddressCounter remote_addr s >=?
             max_connections_per_host_ s
        then NGTCP2_SERVER_BUSY else initial_connection_close in
      if ConnectionClose_eqb initial_connection_close NGTCP2_NO_ERROR &&
         QUICSOCKET_OPTIONS_VALIDATE_ADDRESS s &&
         hd_type_initial e
      then
        if negb (is_validated_address remote_addr s) then
          match retry_token_ocid e with
          | None =>
              SendRetry e version dcid scid remote_addr ;;;
              ret None
          | Some ocid =>
              set_validated_address remote_addr ;;;
              AcceptInitialPacket_create e version dcid scid remote_addr
                (Some ocid) initial_connection_close
          end
        else
          AcceptInitialPacket_create e version dcid scid remote_addr
            None initial_connection_close
      else
        AcceptInitialPacket_create e version dcid scid remote_addr
          None initial_connection_close
  end.

(** *** MaybeStatelessReset (lines 401-418) *)
Definition MaybeStatelessReset
    (e : Env) (dcid scid : QuicCID) (nread : Z) (data : bytes)
    (remote_addr : sockaddr) : M bool :=
  let* s := get in
  if is_stateless_reset_disabled s || (nread <? 16) then ret false else
  let possible_token :=
    take (Z.to_nat NGTCP2_STATELESS_RESET_TOKENLEN)
         (drop (Z.to_nat (nread - NGTCP2_STATELESS_RESET_TOKENLEN)) data) in
  match token_map_ s !! possible_token with
  | None => ret false
  | Some session => Session_Receive e session nread remote_addr
  end.

(** *** OnReceive (lines 420-552)

    The function returns nothing; the value here names the [return]
    statement that was taken. *)
Inductive Exit :=
| SimulatedLoss           (* line 432 *)
| Ignored                 (* lines 458, 467, 538, 548 *)
| HandledStatelessReset   (* line 502 *)
| SentStatelessReset      (* line 535 *)
| Received.               (* line 551 *)

(** Lines 542-551: the datagram goes to its session. *)
Definition OnReceive_deliver
    (e : Env) (session : Session) (nread : Z) (remote_addr : sockaddr)
    : M Exit :=
  let* ok := Session_Receive e session nread remote_addr in
  if negb ok then
    IncrementSocketStat 1 packets_ignored ;;;
    ret Ignored
  else
    IncrementSocketStat 1 packets_received ;;;
    ret Received.

(** Lines 505-551: no session is known and no stateless reset was handled. *)
Definition OnReceive_accept
    (e : Env) (vc : VersionCid) (nread : Z) (data : bytes)
    (remote_addr : sockaddr) : M Exit :=
  let pscidlen := len (default [] (pscid vc)) in
  let dcid := pdcid vc in
  let scid := default [] (pscid vc) in
  let is_short_header := IsShortHeader (pversion vc) (pscid vc) pscidlen in
  let* session :=
    AcceptInitialPacket e (pversion vc) dcid scid nread data remote_addr in
  match session with
  | None =>
      let* sent :=
        if is_short_header
        then SendStatelessReset e dcid remote_addr nread
        else ret false in
      if sent then
        IncrementSocketStat 1 stateless_reset_count ;;;
        ret SentStatelessReset
      else
        IncrementSocketStat 1 packets_ignored ;;;
        ret Ignored
  | Some session => OnReceive_deliver e session nread remote_addr
  end.

Definition OnReceive
    (e : Env) (nread : Z) (buf : bytes) (remote_addr : sockaddr) : M Exit :=
  if rx_loss_draw e then ret SimulatedLoss else
  IncrementSocketStat nread bytes_received ;;;
  let data := buf in
  match decode_version_cid e with
  | None =>
      IncrementSocketStat 1 packets_ignored ;;;
      ret Ignored
  | Some vc =>
      let pdcidlen := len (pdcid vc) in
      let pscidlen := len (default [] (pscid vc)) in
      if (pdcidlen >? NGTCP2_MAX_CIDLEN) || (pscidlen >? NGTCP2_MAX_CIDLEN)
      then
        IncrementSocketStat 1 packets_ignored ;;;
        ret Ignored
      else
      let dcid := pdcid vc in
      let scid := default [] (pscid vc) in
      let* session := FindSession dcid in
      match session with
      | Some session => OnReceive_deliver e session nread remote_addr
      | None =>
          let is_short_header :=
            IsShortHeader (pversion vc) (pscid vc) pscidlen in
          let* handled :=
            if is_short_header
            then MaybeStatelessReset e dcid scid nread data remote_addr
            else ret false in
          if handled then ret HandledStatelessReset else
          OnReceive_accept e vc nread data remote_addr
      end
  end.

(** *** QuicEndpoint::OnRecv (lines 203-222) *)
Definition OnRecv
    (e : Env) (nread : Z) (buf : bytes) (addr : sockaddr)
    : M (option Exit) :=
  if nread <=? 0 then
    (if nread <? 0 then emit (ListenerOnError nread) else ret tt) ;;;
    ret None
  else
    let* x := OnReceive e nread buf addr in
    ret (Some x).

(** A run of the socket over the datagrams that the endpoint hands up,
    each with the answers of the collaborators for it. *)
Record Datagram := {
  dg_env : Env;
  dg_nread : Z;
  dg_buf : bytes;
  dg_remote : sockaddr
}.

Fixpoint run (ds : list Datagram) : M (list Exit) :=
  match ds with
  | [] => ret []
  | d :: ds' =>
      let* x := OnReceive (dg_env d) (dg_nread d) (dg_buf d) (dg_remote d) in
      let* xs := run ds' in
      ret (x :: xs)
  end.

End Socket.

(** ** A concrete platform

    Modelled from the spec: the constants of [ngtcp2.h] and the encoders of
    ngtcp2 (not under src/). Section 3 gives the connection id bound 20 and
    the packet bound 1452, section 4.6.4 the 16-byte server connection id,
    section 8 the protocol version 0x00000001. Section 6.4 fixes the layouts:
    a stateless reset is the random prefix followed by the 16-byte token; a
    version negotiation packet is one byte, the zero version, the two
    length-prefixed connection ids and four bytes per version; a retry is the
    long header with both connection ids, the original one and the token. The
    host is little-endian. *)

Definition NGTCP2_ERR_NOBUF : Z := -203.
Definition NGTCP2_ERR_INVALID_ARGUMENT : Z := -201.

Definition quic_platform : Platform := {|
  host_byte_order := ReservedVersion.LittleEndian;
  NGTCP2_PROTO_VER := 1;
  NGTCP2_MAX_CIDLEN := 20;
  NGTCP2_MAX_PKT_SIZE := 1452;
  NGTCP2_MAX_PKTLEN_IPV4 := 1252;
  NGTCP2_MAX_PKTLEN_IPV6 := 1232;
  NGTCP2_MIN_STATELESS_RESET_RANDLEN := 5;
  kScidLen := 16;
  ngtcp2_pkt_write_version_negotiation := fun destlen dcidlen scidlen nsv =>
    let len := 1 + 4 + 1 + dcidlen + 1 + scidlen + nsv * 4 in
    if destlen <? len then NGTCP2_ERR_NOBUF else len;
  ngtcp2_pkt_write_stateless_reset := fun destlen randlen =>
    if destlen <? 5 + NGTCP2_STATELESS_RESET_TOKENLEN then NGTCP2_ERR_NOBUF
    else if randlen <? 5 then NGTCP2_ERR_INVALID_ARGUMENT
    else Z.min (destlen - NGTCP2_STATELESS_RESET_TOKENLEN) randlen
         + NGTCP2_STATELESS_RESET_TOKENLEN;
  ngtcp2_pkt_write_retry := fun destlen dcidlen scidlen odcidlen tokenlen =>
    let len := 1 + 4 + 1 + dcidlen + 1 + scidlen + 1 + odcidlen + tokenlen in
    if destlen <? len then NGTCP2_ERR_NOBUF else len
|}.

(** The socket right after its constructor (lines 239-291), with one
    preferred endpoint added. *)
Definition new_socket
    (max_connections_per_host max_stateless_resets_per_host : Z)
    (validate_address validate_address_lru disable_stateless_reset : bool)
    : QuicSocket :=
  {| QUICSOCKET_FLAGS_SERVER_LISTENING := false;
     QUICSOCKET_FLAGS_SERVER_BUSY := false;
     QUICSOCKET_FLAGS_DISABLE_STATELESS_RESET := disable_stateless_reset;
     QUICSOCKET_OPTIONS_VALIDATE_ADDRESS := validate_address;
     QUICSOCKET_OPTIONS_VALIDATE_ADDRESS_LRU := validate_address_lru;
     max_connections_per_host_ := max_connections_per_host;
     max_stateless_resets_per_host_ := max_stateless_resets_per_host;
     sessions_ := ∅;
     dcid_to_scid_ := ∅;
     addr_counts_ := ∅;
     reset_counts_ := ∅;
     token_map_ := ∅;
     validated_addrs_ := [];
     preferred_endpoint_ := true;
     last_created_send_wrap_ := None;
     socket_stats_ :=
       {| st_bytes_received := 0; st_bytes_sent := 0;
          st_packets_received := 0; st_packets_sent := 0;
          st_packets_ignored := 0; st_server_sessions := 0;
          st_client_sessions := 0; st_stateless_reset_count := 0 |};
     effects := [] |}.

(** [Listen] (lines 340-356), as far as the receive path reads it. *)
Definition Listen (s : QuicSocket) : outcome unit :=
  if QUICSOCKET_FLAGS_SERVER_LISTENING s then Crash else
  Done tt
  {| QUICSOCKET_FLAGS_SERVER_LISTENING := true;
     QUICSOCKET_FLAGS_SERVER_BUSY := QUICSOCKET_FLAGS_SERVER_BUSY s;
     QUICSOCKET_FLAGS_DISABLE_STATELESS_RESET :=
       QUICSOCKET_FLAGS_DISABLE_STATELESS_RESET s;
     QUICSOCKET_OPTIONS_VALIDATE_ADDRESS := QUICSOCKET_OPTIONS_VALIDATE_ADDRESS s;
     QUICSOCKET_OPTIONS_VALIDATE_ADDRESS_LRU :=
       QUICSOCKET_OPTIONS_VALIDATE_ADDRESS_LRU s;
     max_connections_per_host_ := max_connections_per_host_ s;
     max_stateless_resets_per_host_ := max_stateless_resets_per_host_ s;
     sessions_ := sessions_ s;
     dcid_to_scid_ := dcid_to_scid_ s;
     addr_counts_ := addr_counts_ s;
     reset_counts_ := reset_counts_ s;
     token_map_ := token_map_ s;
     validated_addrs_ := validated_addrs_ s;
     preferred_endpoint_ := preferred_endpoint_ s;
     last_created_send_wrap_ := last_created_send_wrap_ s;
     socket_stats_ := socket_stats_ s;
     effects := effects s |}.

(** ** Observations used by the properties *)

Create HintDb keeps.

(** A member function keeps an observation [f] of the socket when every
    returning run leaves [f] as it was. *)
Definition keeps {A B} (f : QuicSocket -> B) (m : M A) : Prop :=
  forall s a s', m s = Done a s' -> f s' = f s.

(** The three counters that account for received datagrams. *)
Definition accounting (s : QuicSocket) : Z * Z * Z :=
  (get_stat packets_received (socket_stats_ s),
   get_stat packets_ignored (socket_stats_ s),
   get_stat stateless_reset_count (socket_stats_ s)).

(** The per-peer reset counters and their cap. *)
Definition reset_table (s : QuicSocket) : gmap (list Z) Z * Z :=
  (reset_counts_ s, max_stateless_resets_per_host_ s).

(** One more on a saturating u64 counter. *)
Definition bump (v : Z) : Z := v + Z.min 1 (UINT64_MAX - v).

(** What each exit of [OnReceive] charges to (packets_received,
    packets_ignored, stateless_reset_count). *)
Definition charge (x : Exit) (t : Z * Z * Z) : Z * Z * Z :=
  match x with
  | SimulatedLoss | HandledStatelessReset => t
  | Ignored => (t.1.1, bump t.1.2, t.2)
  | Received => (bump t.1.1, t.1.2, t.2)
  | SentStatelessReset => (t.1.1, t.1.2, bump t.2)
  end.

Definition is_handled (x : Exit) : bool :=
  match x with HandledStatelessReset => true | _ => false end.

Definition not_dropped (d : Datagram) : bool :=
  negb (rx_loss_draw (dg_env d)).

Definition len_of {A} (l : list A) : Z := Z.of_nat (length l).


(** The operations that move the per-peer reset counters, as a host and the
    network interleave them. *)
Inductive Op :=
| OpListen
| OpReceive (d : Datagram)
| OpSendStatelessReset
    (e : Env) (cid : QuicCID) (remote_addr : sockaddr) (source_len : Z).

Definition step `{P : Platform} (op : Op) : M unit :=
  match op with
  | OpListen => Listen
  | OpReceive d =>
      OnReceive (dg_env d) (dg_nread d) (dg_buf d) (dg_remote d) ;;; ret tt
  | OpSendStatelessReset e cid remote_addr source_len =>
      SendStatelessReset e cid remote_addr source_len ;;; ret tt
  end.

Fixpoint steps `{P : Platform} (ops : list Op) : M unit :=
  match ops with
  | [] => ret tt
  | op :: ops' => step op ;;; steps ops'
  end.

(** Invariant 5 of the data model. *)
Definition resets_capped (s : QuicSocket) : Prop :=
  forall p : sockaddr,
    GetCurrentStatelessResetCounter p s <= max_stateless_resets_per_host_ s.

(** ** Scenarios

    Concrete sockets, peers and datagrams on [quic_platform], after the
    end-to-end scenarios of section 8 of the specification. *)

(** A [sockaddr_in]: AF_INET, port 1234, 127.0.0.1. *)
Definition peer : list Z := [2; 0; 4; 210; 127; 0; 0; 1; 0; 0; 0; 0; 0; 0; 0; 0].

(** The collaborators of a scenario: the entropy source yields zeroes, no
    retry token is offered or issued, and the endpoint creates its send
    request exactly when it reports success. *)
Definition scenario_env
    (rx_loss tx_loss : bool) (decoded : option VersionCid)
    (received : bool) (verdict : InitialPacketResult)
    (created : option (Session * list Z)) (send_status : Z) : Env :=
  {| rx_loss_draw := rx_loss;
     tx_loss_draw := tx_loss;
     decode_version_cid := decoded;
     receive := fun _ => received;
     accept := verdict;
     hd_type_initial := true;
     retry_token_ocid := None;
     create_server := created;
     generate_retry_token := None;
     EntropySource := fun n => repeat 0 (Z.to_nat n);
     endpoint_send := send_status;
     send_wrap_created := (send_status =? 0) |}.

Definition short_header : VersionCid :=
  {| pversion := 1; pdcid := repeat 7 16; pscid := None |}.

Definition long_header (version : Z) : VersionCid :=
  {| pversion := version; pdcid := repeat 0xAA 8;
     pscid := Some (repeat 0xBB 8) |}.

(** A new socket (10 connections and 3 resets per peer, no address
    validation), before and after [Listen]. *)
Definition boot : QuicSocket := new_socket 10 3 false false false.

Definition state_of {A} (o : outcome A) (otherwise : QuicSocket) : QuicSocket :=
  match o with
  | Done _ s => s
  | Crash => otherwise
  end.

Definition listening : QuicSocket := state_of (Listen boot) boot.

(** Scenario 1: a 1200-byte short-header packet for an unknown DCID. *)
Definition unknown_short_env : Env :=
  scenario_env false false (Some short_header) false PACKET_IGNORE None 0.

Definition unknown_short : Datagram :=
  {| dg_env := unknown_short_env; dg_nread := 1200;
     dg_buf := repeat 0 1200; dg_remote := peer |}.

(** A datagram that the rx-loss draw drops, and one that does not parse. *)
Definition dropped : Datagram :=
  {| dg_env := scenario_env true false (Some short_header) false
                 PACKET_IGNORE None 0;
     dg_nread := 1200; dg_buf := repeat 0 1200; dg_remote := peer |}.

Definition garbage : Datagram :=
  {| dg_env := scenario_env false false None false PACKET_IGNORE None 0;
     dg_nread := 3; dg_buf := [1; 2; 3]; dg_remote := peer |}.

(** Scenario 2: a 1252-byte long-header packet of version 0x01020304 with
    DCID AA..AA and SCID BB..BB. *)
Definition version_mismatch_env : Env :=
  scenario_env false false (Some (long_header 0x01020304)) false
    PACKET_VERSION None 0.

(** An acceptable initial packet for which the session factory fails. *)
Definition factory_fails_env : Env :=
  scenario_env false false (Some (long_header 1)) false PACKET_OK None 0.

(** An acceptable initial packet for which the factory makes session 1. *)
Definition factory_succeeds_env : Env :=
  scenario_env false false (Some (long_header 1)) true PACKET_OK
    (Some (1%nat, repeat 9 16)) 0.

(** A socket that allows no connection to any peer. *)
Definition full : QuicSocket :=
  state_of (Listen (new_socket 0 3 false false false)) boot.

(** A socket that knows session 5 by its stateless reset token only, and a
    short-header datagram for an unknown DCID that ends in that token. *)
Definition reset_token : list Z := repeat 9 16.

Definition with_token : QuicSocket :=
  set_session_tables ∅ {[ reset_token := 5%nat ]} ∅ boot.

Definition ends_in_token : list Z := repeat 0 1184 ++ reset_token.

(** The endpoint refuses the datagram with UV_ENOBUFS. *)
Definition send_fails_env : Env :=
  scenario_env false false (Some short_header) false PACKET_IGNORE None (-105).

Definition tx_loss_env : Env :=
  scenario_env false true (Some short_header) false PACKET_IGNORE None 0.

Definition some_packet : QuicPacket :=
  {| diagnostic_label_ := "retry"; data_size := 100; data_ := Unwritten;
     length_ := 80 |}.

Definition empty_packet : QuicPacket :=
  {| diagnostic_label_ := "retry"; data_size := 100; data_ := Unwritten;
     length_ := 0 |}.

(** The same short-header datagram when the session accepts it. *)
Definition handled_short_env : Env :=
  scenario_env false false (Some short_header) true PACKET_IGNORE None 0.

(** A platform whose IPv4 packets have room for 40 bytes only: the stateless
    reset encoder then reports 40 bytes. *)
Definition tight_platform : Platform := {|
  host_byte_order := host_byte_order (Platform := quic_platform);
  NGTCP2_PROTO_VER := NGTCP2_PROTO_VER (Platform := quic_platform);
  NGTCP2_MAX_CIDLEN := NGTCP2_MAX_CIDLEN (Platform := quic_platform);
  NGTCP2_MAX_PKT_SIZE := NGTCP2_MAX_PKT_SIZE (Platform := quic_platform);
  NGTCP2_MAX_PKTLEN_IPV4 := 40;
  NGTCP2_MAX_PKTLEN_IPV6 := NGTCP2_MAX_PKTLEN_IPV6 (Platform := quic_platform);
  NGTCP2_MIN_STATELESS_RESET_RANDLEN :=
    NGTCP2_MIN_STATELESS_RESET_RANDLEN (Platform := quic_platform);
  kScidLen := kScidLen (Platform := quic_platform);
  ngtcp2_pkt_write_version_negotiation :=
    ngtcp2_pkt_write_version_negotiation (Platform := quic_platform);
  ngtcp2_pkt_write_stateless_reset :=
    ngtcp2_pkt_write_stateless_reset (Platform := quic_platform);
  ngtcp2_pkt_write_retry := ngtcp2_pkt_write_retry (Platform := quic_platform)
|}.

(** Five unknown short-header packets from one peer (scenario 5). *)
Definition five_unknown : list Op :=
  [OpListen; OpReceive unknown_short; OpReceive unknown_short;
   OpReceive unknown_short; OpReceive unknown_short; OpReceive unknown_short].

(** The new socket once the 1200 bytes of a datagram were charged to
    bytes_received. *)
Definition boot_1200 : QuicSocket :=
  state_of (IncrementSocketStat 1200 bytes_received boot) boot.

(** ** Further observations *)

(** Invariant 2 of the data model: every alias leads to a primary id. *)
Definition aliases_resolve (s : QuicSocket) : Prop :=
  forall alias scid : list Z,
    dcid_to_scid_ s !! alias = Some scid -> is_Some (sessions_ s !! scid).

(** What [FindSession] looks up: the primary table first, then the alias
    table and through it the primary table again. *)
Definition session_of (cid : list Z) (s : QuicSocket) : option Session :=
  match sessions_ s !! cid with
  | Some session => Some session
  | None =>
      match dcid_to_scid_ s !! cid with
      | Some scid => sessions_ s !! scid
      | None => None
      end
  end.

(** A saturating u64 counter after adding [amount], taken as a u64. *)
Definition sat_add (current amount : Z) : Z :=
  current + Z.min (to_uint64 amount) (UINT64_MAX - current).

(** A connection id too long for the socket. *)
Definition oversize `{P : Platform} (vc : VersionCid) : bool :=
  (len (pdcid vc) >? NGTCP2_MAX_CIDLEN) ||
  (len (default [] (pscid vc)) >? NGTCP2_MAX_CIDLEN).

(** The socket with [v] in the statistic [f] and nothing else changed. *)
Definition with_stat (f : stat) (v : Z) (s : QuicSocket) : QuicSocket :=
  set_socket_stats_ (set_stat f v (socket_stats_ s)) s.

(** *** OnSendDone (lines 882-885): the endpoint reports the completion of
    the send request; the request must hold its packet. *)
Definition OnSendDone (wrap : SendWrap) (status : Z) : M unit :=
  match packet_ wrap with
  | Some packet => OnSend status packet
  | None => abort
  end.

(** The socket after a datagram was counted as sent. *)
Definition charged_as_sent (packet : QuicPacket) (s : QuicSocket) : QuicSocket :=
  let s1 :=
    with_stat bytes_sent
      (sat_add (get_stat bytes_sent (socket_stats_ s)) (length_ packet)) s in
  with_stat packets_sent
    (sat_add (get_stat packets_sent (socket_stats_ s1)) 1) s1.

(** The settings of the socket together with bytes_received: what only the
    host and the first statement of [OnReceive] may change. *)
Definition steady (s : QuicSocket) :=
  (QUICSOCKET_FLAGS_SERVER_LISTENING s,
   QUICSOCKET_FLAGS_SERVER_BUSY s,
   QUICSOCKET_FLAGS_DISABLE_STATELESS_RESET s,
   QUICSOCKET_OPTIONS_VALIDATE_ADDRESS s,
   QUICSOCKET_OPTIONS_VALIDATE_ADDRESS_LRU s,
   max_connections_per_host_ s,
   max_stateless_resets_per_host_ s,
   preferred_endpoint_ s,
   get_stat bytes_received (socket_stats_ s)).

(** How often the history holds an effect of some kind. *)
Definition count_eff (q : Effect -> bool) (s : QuicSocket) : Z :=
  len_of (List.filter q (effects s)).

(** A call of the session factory or of the session-ready listener. *)
Definition is_creation (x : Effect) : bool :=
  match x with
  | SessionCreateServer _ _ _ _ _ _ => true
  | ListenerOnSessionReady _ => true
  | _ => false
  end.

(** A datagram labelled "stateless reset" handed to the endpoint for [p]. *)
Definition is_reset_to (p : list Z) (x : Effect) : bool :=
  match x with
  | EndpointSend remote_addr packet =>
      bool_decide (remote_addr = p) &&
      String.eqb (diagnostic_label_ packet) "stateless reset"
  | _ => false
  end.

(** The tables of sessions and peers, and the factory calls so far. *)
Definition standing (s : QuicSocket) :=
  (sessions_ s, dcid_to_scid_ s, token_map_ s, addr_counts_ s,
   validated_addrs_ s, count_eff is_creation s).

(** The stateless resets sent to a peer never outnumber its counter, and the
    counter never passes the cap. *)
Definition reset_budget (s : QuicSocket) : Prop :=
  forall p : list Z,
    count_eff (is_reset_to p) s <= GetCurrentStatelessResetCounter p s /\
    GetCurrentStatelessResetCounter p s <= max_stateless_resets_per_host_ s.

(** The bytes of the datagrams of a run that the rx-loss draw lets through. *)
Definition bytes_let_through (ds : list Datagram) : Z :=
  fold_right (fun d acc => (if not_dropped d then dg_nread d else 0) + acc)
             0 ds.

(** The settings alone: the flags, the options, the limits and the
    preferred endpoint. *)
Definition settings (s : QuicSocket) := (steady s).1.

(** What a disabled socket keeps through one finished call. *)
Definition quiet (p : list Z) (s0 s1 : QuicSocket) : Prop :=
  QUICSOCKET_FLAGS_DISABLE_STATELESS_RESET s1 = true /\
  reset_table s1 = reset_table s0 /\
  count_eff (is_reset_to p) s1 = count_eff (is_reset_to p) s0.


(** ** Further scenarios *)

(** A socket that knows session 5 by the DCID of [short_header], and one
    that knows it by its own id and reaches it through that DCID as an
    alias. *)
Definition with_session : QuicSocket :=
  set_session_tables {[ repeat 7 16 := 5%nat ]} ∅ ∅ boot.

Definition with_alias : QuicSocket :=
  {| QUICSOCKET_FLAGS_SERVER_LISTENING := false;
     QUICSOCKET_FLAGS_SERVER_BUSY := false;
     QUICSOCKET_FLAGS_DISABLE_STATELESS_RESET := false;
     QUICSOCKET_OPTIONS_VALIDATE_ADDRESS := false;
     QUICSOCKET_OPTIONS_VALIDATE_ADDRESS_LRU := false;
     max_connections_per_host_ := 10;
     max_stateless_resets_per_host_ := 3;
     sessions_ := {[ repeat 1 8 := 5%nat ]};
     dcid_to_scid_ := {[ repeat 7 16 := repeat 1 8 ]};
     addr_counts_ := ∅;
     reset_counts_ := ∅;
     token_map_ := ∅;
     validated_addrs_ := [];
     preferred_endpoint_ := true;
     last_created_send_wrap_ := None;
     socket_stats_ := socket_stats_ boot;
     effects := [] |}.

(** The endpoint writes the datagram out at once and creates no send
    request. *)
Definition sent_at_once_env : Env :=
  scenario_env false false (Some short_header) false PACKET_IGNORE None 80.

(** An initial packet that is to be answered by a retry, with a token
    generator that issues a 32-byte token. *)
Definition retry_env : Env :=
  {| rx_loss_draw := false;
     tx_loss_draw := false;
     decode_version_cid := Some (long_header 1);
     receive := fun _ => false;
     accept := PACKET_RETRY;
     hd_type_initial := true;
     retry_token_ocid := None;
     create_server := None;
     generate_retry_token := Some (repeat 3 32);
     EntropySource := fun n => repeat 0 (Z.to_nat n);
     endpoint_send := 0;
     send_wrap_created := true |}.

(** An acceptable initial packet as a datagram. *)
Definition initial_packet : Datagram :=
  {| dg_env := factory_succeeds_env; dg_nread := 1252;
     dg_buf := repeat 0 1252; dg_remote := peer |}.

(** A listening socket that validates addresses and remembers the
    validated ones, and an acceptable initial packet that carries a valid
    retry token for the original connection id CC..CC. *)
Definition validating : QuicSocket :=
  state_of (Listen (new_socket 10 3 true true false)) boot.

Definition valid_token_env : Env :=
  {| rx_loss_draw := false;
     tx_loss_draw := false;
     decode_version_cid := Some (long_header 1);
     receive := fun _ => true;
     accept := PACKET_OK;
     hd_type_initial := true;
     retry_token_ocid := Some (repeat 0xCC 8);
     create_server := Some (1%nat, repeat 9 16);
     generate_retry_token := None;
     EntropySource := fun n => repeat 0 (Z.to_nat n);
     endpoint_send := 0;
     send_wrap_created := true |}.

(** A new socket with stateless reset disabled. *)
Definition reset_disabled : QuicSocket := new_socket 10 3 false false true.


(** ** The listener chain (lines 100-179 and 899-930)

    Listeners are objects on the heap, named by their address; each holds
    the pointer to the listener that was pushed before it and the weak
    pointer to its socket, of which only being set matters. The socket
    holds the head of the chain. *)

Module ListenerChain.

(** The two classes of listener of this file: the base class, whose event
    handlers forward to the previous listener, and the JavaScript listener,
    whose handlers call into JavaScript (or, for [OnDestroy], do nothing)
    and forward nothing. *)
Inductive ListenerClass := QuicSocketListener | JSQuicSocketListener.

Record Listener := {
  class_ : ListenerClass;
  socket_ : bool;
  previous_listener_ : option nat
}.

Record Listeners := {
  listener_ : option nat;
  objects : gmap nat Listener
}.

(** *** PushListener (lines 899-907); [None] is a failed [CHECK] or a
    pointer to no object. *)
Definition PushListener (listener : option nat) (c : Listeners)
    : option Listeners :=
  match listener with
  | None => None
  | Some l =>
      match objects c !! l with
      | None => None
      | Some o =>
          if socket_ o then None else
          Some {| listener_ := Some l;
                  objects :=
                    <[l := {| class_ := class_ o; socket_ := true;
                              previous_listener_ := listener_ c |}]>
                      (objects c) |}
      end
  end.

(** *** RemoveListener (lines 909-930)

    The loop has no condition: it ends at the listener or at the failed
    [CHECK_NOT_NULL(current)]. [fuel] bounds the iterations that the model
    follows; [Spinning] is a loop that did not end within them. *)
Inductive Search := Found (previous : option nat) | NotFound | Spinning.

Fixpoint search (fuel : nat) (objs : gmap nat Listener) (listener : nat)
    (current previous : option nat) : Search :=
  match fuel with
  | O => Spinning
  | S fuel' =>
      match current with
      | None => NotFound
      | Some cur =>
          if decide (cur = listener) then Found previous
          else
            match objs !! cur with
            | None => NotFound
            | Some o =>
                search fuel' objs listener (previous_listener_ o) (Some cur)
            end
      end
  end.

Inductive Removal := Removed (c : Listeners) | Fatal | StillRunning.

(** Lines 920-923: the listener before the removed one, or else the socket,
    takes over the removed listener's previous listener. *)
Definition unlink (previous : option nat) (o : Listener) (c : Listeners)
    : option Listeners :=
  match previous with
  | Some pv =>
      match objects c !! pv with
      | Some po =>
          Some {| listener_ := listener_ c;
                  objects :=
                    <[pv := {| class_ := class_ po; socket_ := socket_ po;
                               previous_listener_ := previous_listener_ o |}]>
                      (objects c) |}
      | None => None
      end
  | None =>
      Some {| listener_ := previous_listener_ o; objects := objects c |}
  end.

(** Lines 928-929. *)
Definition detach (l : nat) (o : Listener) (c : Listeners) : Listeners :=
  {| listener_ := listener_ c;
     objects :=
       <[l := {| class_ := class_ o; socket_ := false;
                 previous_listener_ := None |}]> (objects c) |}.

Definition RemoveListener (fuel : nat) (listener : option nat) (c : Listeners)
    : Removal :=
  match listener with
  | None => Fatal
  | Some l =>
      match search fuel (objects c) l (listener_ c) None with
      | Spinning => StillRunning
      | NotFound => Fatal
      | Found previous =>
          match objects c !! l with
          | None => Fatal
          | Some o =>
              match unlink previous o c with
              | None => Fatal
              | Some c1 => Removed (detach l o c1)
              end
          end
      end
  end.

(** *** The event handlers (lines 105-179): which listener, if any, ends up
    handling an event that is raised at [current]. *)
Inductive Dispatch := HandledBy (l : nat) | Dropped | Dangling | Unfinished.

Fixpoint OnEvent (fuel : nat) (objs : gmap nat Listener) (current : nat)
    : Dispatch :=
  match fuel with
  | O => Unfinished
  | S fuel' =>
      match objs !! current with
      | None => Dangling
      | Some o =>
          match class_ o with
          | JSQuicSocketListener => HandledBy current
          | QuicSocketListener =>
              match previous_listener_ o with
              | None => Dropped
              | Some pv => OnEvent fuel' objs pv
              end
          end
      end
  end.

(** The chain read as a list, head first. *)
Inductive chain (objs : gmap nat Listener) : option nat -> list nat -> Prop :=
| chain_nil : chain objs None []
| chain_cons a o l :
    objs !! a = Some o ->
    chain objs (previous_listener_ o) l ->
    chain objs (Some a) (a :: l).

(** Every listener of the list points to its socket. *)
Definition attached (objs : gmap nat Listener) (l : list nat) : Prop :=
  forall a, a ∈ l -> exists o, objs !! a = Some o /\ socket_ o = true.

(** The first JavaScript listener of a list of listeners. *)
Fixpoint first_js (objs : gmap nat Listener) (l : list nat) : option nat :=
  match l with
  | [] => None
  | a :: l' =>
      match objs !! a with
      | Some o =>
          match class_ o with
          | JSQuicSocketListener => Some a
          | QuicSocketListener => first_js objs l'
          end
      | None => None
      end
  end.

(** The value of [previous] when the loop of [RemoveListener] has walked
    over [l1], having started with [previous]. *)
Definition before (previous : option nat) (l1 : list nat) : option nat :=
  match last l1 with Some pv => Some pv | None => previous end.

(** *** ~QuicSocketListener (lines 100-103): a listener that still points
    to its socket removes itself from the chain; then its object is gone. *)
Definition QuicSocketListener_destroy (fuel : nat) (x : nat) (c : Listeners)
    : Removal :=
  match objects c !! x with
  | None => Fatal
  | Some o =>
      let freed c' :=
        {| listener_ := listener_ c'; objects := delete x (objects c') |} in
      if socket_ o then
        match RemoveListener fuel (Some x) c with
        | Removed c' => Removed (freed c')
        | r => r
        end
      else Removed (freed c)
  end.

(** The listeners that point to the socket are those of its chain. *)
Definition consistent (c : Listeners) (l : list nat) : Prop :=
  chain (objects c) (listener_ c) l /\
  forall x o, objects c !! x = Some o -> (socket_ o = true <-> x ∈ l).

(** Listener 1 is the JavaScript listener that the socket starts with;
    listener 2 is a base-class listener, first on its own and then pushed
    on the socket. *)
Definition default_listener : Listener :=
  {| class_ := JSQuicSocketListener; socket_ := true;
     previous_listener_ := None |}.

Definition one_listener : Listeners :=
  {| listener_ := Some 1%nat;
     objects :=
       {[ 1%nat := default_listener;
          2%nat := {| class_ := QuicSocketListener; socket_ := false;
                      previous_listener_ := None |} ]} |}.

Definition two_listeners : Listeners :=
  {| listener_ := Some 2%nat;
     objects :=
       {[ 1%nat := default_listener;
          2%nat := {| class_ := QuicSocketListener; socket_ := true;
                      previous_listener_ := Some 1%nat |} ]} |}.

End ListenerChain.
(** * Properties *)

(** ** GenerateReservedVersion *)

Module ReservedVersionFacts.
Import ReservedVersion.

Lemma walk_fold h p : walk h p = fold_left round p h.
Proof. revert h; induction p as [|b p IH]; intros h; simpl; auto. Qed.

Lemma testbit_byte_at v i n :
  0 <= n -> 0 <= i ->
  Z.testbit (byte_at v i) n = (n <? 8) && Z.testbit v (n + 8 * i).
Proof.
  intros Hn Hi. unfold byte_at. change 255 with (Z.ones 8).
  rewrite Z.land_spec, Z.shiftr_spec by lia.
  destruct (Z.ltb_spec n 8).
  - rewrite Z.ones_spec_low by lia. now rewrite andb_true_r.
  - rewrite Z.ones_spec_high by lia. now rewrite andb_false_r.
Qed.

Lemma testbit_shiftl_byte_at v i k n :
  0 <= n -> 0 <= i -> 0 <= k ->
  Z.testbit (Z.shiftl (byte_at v i) k) n =
  (k <=? n) && (n <? k + 8) && Z.testbit v (n - k + 8 * i).
Proof.
  intros Hn Hi Hk. rewrite Z.shiftl_spec by lia.
  destruct (Z.leb_spec k n).
  - rewrite testbit_byte_at by lia.
    replace (n - k <? 8) with (n <? k + 8); auto.
    destruct (Z.ltb_spec n (k + 8)), (Z.ltb_spec (n - k) 8); auto; lia.
  - now rewrite Z.testbit_neg_r by lia.
Qed.

(** [htonl] on a little-endian host reverses the four bytes. *)
Lemma byte_at_bswap32 v i :
  0 <= i < 4 -> byte_at (bswap32 v) i = byte_at v (3 - i).
Proof.
  intros Hi. apply Z.bits_inj'. intros n Hn.
  rewrite (testbit_byte_at (bswap32 v)), (testbit_byte_at v (3 - i)) by lia.
  destruct (Z.ltb_spec n 8) as [Hlt|Hge]; [|reflexivity].
  rewrite !andb_true_l.
  unfold bswap32. rewrite !Z.lor_spec.
  rewrite (testbit_shiftl_byte_at v 0 24), (testbit_shiftl_byte_at v 1 16),
    (testbit_shiftl_byte_at v 2 8), (testbit_byte_at v 3) by lia.
  assert (Hi' : i = 0 \/ i = 1 \/ i = 2 \/ i = 3) by lia.
  destruct Hi' as [->|[->|[->| ->]]];
    repeat match goal with
    | |- context [?a <=? ?b] => destruct (Z.leb_spec a b); try lia
    | |- context [?a <? ?b] => destruct (Z.ltb_spec a b); try lia
    end; cbn [andb orb]; rewrite ?orb_false_r; f_equal; lia.
Qed.

(** Whatever the host, the second loop walks the version in network order. *)
Lemma object_bytes_htonl bo v :
  object_bytes bo (htonl bo v) = network_bytes v.
Proof.
  destruct bo; unfold object_bytes, htonl, network_bytes; [|reflexivity].
  now rewrite !byte_at_bswap32 by lia.
Qed.

Lemma reserved_bits h :
  Z.land (Z.lor (Z.land h 0xF0F0F0F0) 0x0A0A0A0A) 0x0F0F0F0F = 0x0A0A0A0A.
Proof.
  rewrite Z.land_lor_distr_l, <- Z.land_assoc.
  change (Z.land 0xF0F0F0F0 0x0F0F0F0F) with 0.
  now rewrite Z.land_0_r.
Qed.

(** C8. For every sockaddr [a], version [v] and host byte order,
    [GenerateReservedVersion] is the 32-bit FNV-1a hash (offset basis
    0x811C9DC5, prime 0x01000193, arithmetic modulo 2^32) of the raw sockaddr
    bytes followed by the four bytes of [htonl(v)], masked to
    [(h & 0xF0F0F0F0) | 0x0A0A0A0A]; hence its low nibbles are always
    0x0A0A0A0A. *)
Theorem GenerateReservedVersion_fnv1a (bo : byte_order) (a : bytes) (v : Z) :
  GenerateReservedVersion bo a v = reserved_version_spec a v /\
  GenerateReservedVersion bo a v =
    Z.lor (Z.land (fnv1a_32 (a ++ object_bytes bo (htonl bo v))) 0xF0F0F0F0)
          0x0A0A0A0A /\
  Z.land (GenerateReservedVersion bo a v) 0x0F0F0F0F = 0x0A0A0A0A.
Proof.
  assert (E : GenerateReservedVersion bo a v =
              Z.lor (Z.land (fnv1a_32 (a ++ object_bytes bo (htonl bo v)))
                            0xF0F0F0F0) 0x0A0A0A0A).
  { unfold GenerateReservedVersion, fnv1a_32.
    rewrite !walk_fold, fold_left_app. reflexivity. }
  split; [|split].
  - rewrite E. unfold reserved_version_spec. now rewrite object_bytes_htonl.
  - exact E.
  - rewrite E. apply reserved_bits.
Qed.

End ReservedVersionFacts.

(** ** Running the monad *)

Lemma bind_Done {A B} (m : M A) (k : A -> M B) s b s2 :
  bind m k s = Done b s2 ->
  exists a s1, m s = Done a s1 /\ k a s1 = Done b s2.
Proof. unfold bind. destruct (m s) as [a s1|]; [eauto|discriminate]. Qed.

Lemma bind_run {A B} (m : M A) (k : A -> M B) s a s1 :
  m s = Done a s1 -> bind m k s = k a s1.
Proof. unfold bind. intros ->. reflexivity. Qed.

Lemma ret_Done {A} (a b : A) s s' : ret a s = Done b s' -> b = a /\ s' = s.
Proof. unfold ret. intros H; inversion H; auto. Qed.

Lemma get_Done s a s' : get s = Done a s' -> a = s /\ s' = s.
Proof. unfold get. intros H; inversion H; auto. Qed.

Lemma modify_Done f s a s' : modify f s = Done a s' -> s' = f s.
Proof. unfold modify. intros H; inversion H; auto. Qed.

Lemma emit_Done x s a s' :
  emit x s = Done a s' -> s' = set_effects (effects s ++ [x]) s.
Proof. unfold emit, modify. intros H; inversion H; auto. Qed.

Lemma CHECK_Done b s a s' : CHECK b s = Done a s' -> b = true /\ s' = s.
Proof. unfold CHECK. destruct b; intros H; inversion H; auto. Qed.

(** Symbolic execution of a run that is known to return. *)
Ltac exec_step :=
  match goal with
  | H : bind _ _ _ = Done _ _ |- _ =>
      let a := fresh "a" in let s := fresh "s" in let H1 := fresh "Hrun" in
      apply bind_Done in H as (a & s & H1 & H)
  | H : ret _ _ = Done _ _ |- _ => apply ret_Done in H as [? ?]; subst
  | H : get _ = Done _ _ |- _ => apply get_Done in H as [? ?]; subst
  | H : modify _ _ = Done _ _ |- _ => apply modify_Done in H; subst
  | H : emit _ _ = Done _ _ |- _ => apply emit_Done in H; subst
  | H : CHECK _ _ = Done _ _ |- _ => apply CHECK_Done in H as [? ?]; subst
  | H : abort _ = Done _ _ |- _ => discriminate H
  | H : Crash = Done _ _ |- _ => discriminate H
  | H : (match ?x with _ => _ end) _ = Done _ _ |- _ => destruct x eqn:?
  end.
Ltac exec := repeat (cbv beta zeta in *; exec_step).


Section Keeps.
Context {B : Type} (f : QuicSocket -> B).

Lemma keeps_ret {A} (a : A) : keeps f (ret a).
Proof. intros s b s' H. exec. reflexivity. Qed.

Lemma keeps_get : keeps f get.
Proof. intros s b s' H. exec. reflexivity. Qed.

Lemma keeps_abort {A} : keeps f (@abort A).
Proof. intros s b s' H. discriminate H. Qed.

Lemma keeps_CHECK b : keeps f (CHECK b).
Proof. intros s a s' H. exec. reflexivity. Qed.

Lemma keeps_modify g : (forall s, f (g s) = f s) -> keeps f (modify g).
Proof. intros Hg s a s' H. exec. apply Hg. Qed.

Lemma keeps_bind {A C} (m : M A) (k : A -> M C) :
  keeps f m -> (forall a, keeps f (k a)) -> keeps f (bind m k).
Proof.
  intros Hm Hk s c s' H. exec.
  erewrite Hk by eassumption. eapply Hm; eassumption.
Qed.

End Keeps.

Ltac keeps_step :=
  match goal with
  | |- keeps _ (bind _ _) => apply keeps_bind; [|intros ?]
  | |- keeps _ (ret _) => apply keeps_ret
  | |- keeps _ get => apply keeps_get
  | |- keeps _ abort => apply keeps_abort
  | |- keeps _ (CHECK _) => apply keeps_CHECK
  | |- keeps _ (emit _) => apply keeps_modify; intros ?; reflexivity
  | |- keeps _ (modify _) =>
      apply keeps_modify; intros ?; cbn; repeat case_match; reflexivity
  | |- keeps _ (match ?x with _ => _ end) => destruct x
  | |- keeps _ _ => solve [eauto with keeps]
  end.
Ltac keeps_auto := repeat (cbv beta zeta; keeps_step).

(** ** Frames of the member functions *)


Section Frames.
Context `{P : Platform}.

Lemma IncrementSocketStat_reset_table n g :
  keeps reset_table (IncrementSocketStat n g).
Proof. unfold IncrementSocketStat. keeps_auto. Qed.

Lemma IncrementSocketStat_accounting n g :
  g <> packets_received -> g <> packets_ignored ->
  g <> stateless_reset_count ->
  keeps accounting (IncrementSocketStat n g).
Proof.
  intros H1 H2 H3. unfold IncrementSocketStat. apply keeps_modify.
  intros s. destruct g; try congruence; reflexivity.
Qed.

#[local] Hint Extern 1 (_ <> _) => discriminate : keeps.
#[local] Hint Resolve IncrementSocketStat_reset_table
  IncrementSocketStat_accounting : keeps.

Lemma QuicPacket_Create_reset_table label n :
  keeps reset_table (QuicPacket_Create label n).
Proof. unfold QuicPacket_Create. keeps_auto. Qed.

Lemma QuicPacket_Create_accounting label n :
  keeps accounting (QuicPacket_Create label n).
Proof. unfold QuicPacket_Create. keeps_auto. Qed.
#[local] Hint Resolve QuicPacket_Create_reset_table QuicPacket_Create_accounting : keeps.

Lemma set_length_reset_table n p :
  keeps reset_table (set_length n p).
Proof. unfold set_length. keeps_auto. Qed.

Lemma set_length_accounting n p :
  keeps accounting (set_length n p).
Proof. unfold set_length. keeps_auto. Qed.
#[local] Hint Resolve set_length_reset_table set_length_accounting : keeps.

Lemma set_validated_address_reset_table a :
  keeps reset_table (set_validated_address a).
Proof. unfold set_validated_address. keeps_auto. Qed.

Lemma set_validated_address_accounting a :
  keeps accounting (set_validated_address a).
Proof. unfold set_validated_address. keeps_auto. Qed.
#[local] Hint Resolve set_validated_address_reset_table set_validated_address_accounting : keeps.

Lemma Session_Receive_reset_table e x n r :
  keeps reset_table (Session_Receive e x n r).
Proof. unfold Session_Receive. keeps_auto. Qed.

Lemma Session_Receive_accounting e x n r :
  keeps accounting (Session_Receive e x n r).
Proof. unfold Session_Receive. keeps_auto. Qed.
#[local] Hint Resolve Session_Receive_reset_table Session_Receive_accounting : keeps.

Lemma Session_CreateServer_reset_table e d r c o v i :
  keeps reset_table (Session_CreateServer e d r c o v i).
Proof. unfold Session_CreateServer. keeps_auto. Qed.

Lemma Session_CreateServer_accounting e d r c o v i :
  keeps accounting (Session_CreateServer e d r c o v i).
Proof. unfold Session_CreateServer. keeps_auto. Qed.
#[local] Hint Resolve Session_CreateServer_reset_table Session_CreateServer_accounting : keeps.

Lemma Endpoint_Send_reset_table e r p :
  keeps reset_table (Endpoint_Send e r p).
Proof. unfold Endpoint_Send. keeps_auto. Qed.

Lemma Endpoint_Send_accounting e r p :
  keeps accounting (Endpoint_Send e r p).
Proof. unfold Endpoint_Send. keeps_auto. Qed.
#[local] Hint Resolve Endpoint_Send_reset_table Endpoint_Send_accounting : keeps.

Lemma FindSession_reset_table c :
  keeps reset_table (FindSession c).
Proof. unfold FindSession. keeps_auto. Qed.

Lemma FindSession_accounting c :
  keeps accounting (FindSession c).
Proof. unfold FindSession. keeps_auto. Qed.
#[local] Hint Resolve FindSession_reset_table FindSession_accounting : keeps.

Lemma OnSend_reset_table n p :
  keeps reset_table (OnSend n p).
Proof. unfold OnSend. keeps_auto. Qed.

Lemma OnSend_accounting n p :
  keeps accounting (OnSend n p).
Proof. unfold OnSend. keeps_auto. Qed.
#[local] Hint Resolve OnSend_reset_table OnSend_accounting : keeps.

Lemma SendPacket_reset_table e r p x :
  keeps reset_table (SendPacket e r p x).
Proof. unfold SendPacket. keeps_auto. Qed.

Lemma SendPacket_accounting e r p x :
  keeps accounting (SendPacket e r p x).
Proof. unfold SendPacket. keeps_auto. Qed.
#[local] Hint Resolve SendPacket_reset_table SendPacket_accounting : keeps.

Lemma SendVersionNegotiation_reset_table e v d c r :
  keeps reset_table (SendVersionNegotiation e v d c r).
Proof. unfold SendVersionNegotiation. keeps_auto. Qed.

Lemma SendVersionNegotiation_accounting e v d c r :
  keeps accounting (SendVersionNegotiation e v d c r).
Proof. unfold SendVersionNegotiation. keeps_auto. Qed.
#[local] Hint Resolve SendVersionNegotiation_reset_table SendVersionNegotiation_accounting : keeps.

Lemma SendRetry_reset_table e v d c r :
  keeps reset_table (SendRetry e v d c r).
Proof. unfold SendRetry. keeps_auto. Qed.

Lemma SendRetry_accounting e v d c r :
  keeps accounting (SendRetry e v d c r).
Proof. unfold SendRetry. keeps_auto. Qed.
#[local] Hint Resolve SendRetry_reset_table SendRetry_accounting : keeps.

Lemma AcceptInitialPacket_create_reset_table e v d c r o i :
  keeps reset_table (AcceptInitialPacket_create e v d c r o i).
Proof. unfold AcceptInitialPacket_create. keeps_auto. Qed.

Lemma AcceptInitialPacket_create_accounting e v d c r o i :
  keeps accounting (AcceptInitialPacket_create e v d c r o i).
Proof. unfold AcceptInitialPacket_create. keeps_auto. Qed.
#[local] Hint Resolve AcceptInitialPacket_create_reset_table AcceptInitialPacket_create_accounting : keeps.

Lemma AcceptInitialPacket_reset_table e v d c n b r :
  keeps reset_table (AcceptInitialPacket e v d c n b r).
Proof. unfold AcceptInitialPacket. keeps_auto. Qed.

Lemma AcceptInitialPacket_accounting e v d c n b r :
  keeps accounting (AcceptInitialPacket e v d c n b r).
Proof. unfold AcceptInitialPacket. keeps_auto. Qed.
#[local] Hint Resolve AcceptInitialPacket_reset_table AcceptInitialPacket_accounting : keeps.

Lemma MaybeStatelessReset_reset_table e d c n b r :
  keeps reset_table (MaybeStatelessReset e d c n b r).
Proof. unfold MaybeStatelessReset. keeps_auto. Qed.

Lemma MaybeStatelessReset_accounting e d c n b r :
  keeps accounting (MaybeStatelessReset e d c n b r).
Proof. unfold MaybeStatelessReset. keeps_auto. Qed.
#[local] Hint Resolve MaybeStatelessReset_reset_table MaybeStatelessReset_accounting : keeps.

Lemma OnReceive_deliver_reset_table e x n r :
  keeps reset_table (OnReceive_deliver e x n r).
Proof. unfold OnReceive_deliver. keeps_auto. Qed.
#[local] Hint Resolve OnReceive_deliver_reset_table : keeps.

Lemma IncrementStatelessResetCounter_accounting a :
  keeps accounting (IncrementStatelessResetCounter a).
Proof. unfold IncrementStatelessResetCounter. keeps_auto. Qed.
#[local] Hint Resolve IncrementStatelessResetCounter_accounting : keeps.

Lemma SendStatelessReset_accounting e c r n :
  keeps accounting (SendStatelessReset e c r n).
Proof. unfold SendStatelessReset. keeps_auto. Qed.
#[local] Hint Resolve SendStatelessReset_accounting : keeps.

End Frames.

#[global] Hint Extern 1 (_ <> _) => discriminate : keeps.
#[global] Hint Resolve IncrementSocketStat_reset_table
  IncrementSocketStat_accounting
  QuicPacket_Create_reset_table QuicPacket_Create_accounting
  set_length_reset_table set_length_accounting
  set_validated_address_reset_table set_validated_address_accounting
  Session_Receive_reset_table Session_Receive_accounting
  Session_CreateServer_reset_table Session_CreateServer_accounting
  Endpoint_Send_reset_table Endpoint_Send_accounting
  FindSession_reset_table FindSession_accounting
  OnSend_reset_table OnSend_accounting
  SendPacket_reset_table SendPacket_accounting
  SendVersionNegotiation_reset_table SendVersionNegotiation_accounting
  SendRetry_reset_table SendRetry_accounting
  AcceptInitialPacket_create_reset_table AcceptInitialPacket_create_accounting
  AcceptInitialPacket_reset_table AcceptInitialPacket_accounting
  MaybeStatelessReset_reset_table MaybeStatelessReset_accounting
  OnReceive_deliver_reset_table IncrementStatelessResetCounter_accounting
  SendStatelessReset_accounting : keeps.

(** ** Accounting of received datagrams *)


Section Accounting.
Context `{P : Platform}.

Lemma IncrementSocketStat_charge g x s a s' :
  IncrementSocketStat 1 g s = Done a s' ->
  match g with
  | packets_ignored => x = Ignored
  | packets_received => x = Received
  | stateless_reset_count => x = SentStatelessReset
  | _ => x = SimulatedLoss
  end ->
  accounting s' = charge x (accounting s).
Proof.
  unfold IncrementSocketStat. intros H Hx. exec.
  destruct g; subst x; reflexivity.
Qed.

(** Turn every finished call in the context into what it did to the
    accounting counters. *)
Ltac account :=
  repeat match goal with
  | H : IncrementSocketStat 1 packets_ignored _ = Done _ _ |- _ =>
      apply (IncrementSocketStat_charge _ Ignored) in H; [|reflexivity]
  | H : IncrementSocketStat 1 packets_received _ = Done _ _ |- _ =>
      apply (IncrementSocketStat_charge _ Received) in H; [|reflexivity]
  | H : IncrementSocketStat 1 stateless_reset_count _ = Done _ _ |- _ =>
      apply (IncrementSocketStat_charge _ SentStatelessReset) in H;
      [|reflexivity]
  | H : ?m ?s = Done _ _ |- _ =>
      let K := fresh "K" in
      assert (K : keeps accounting m) by eauto with keeps;
      apply K in H; clear K
  end.

Lemma OnReceive_deliver_charge e session nread remote s x s' :
  OnReceive_deliver e session nread remote s = Done x s' ->
  accounting s' = charge x (accounting s) /\ x <> SimulatedLoss.
Proof.
  unfold OnReceive_deliver. intros H. exec; account;
    (split; [congruence|discriminate]).
Qed.

Lemma OnReceive_accept_charge e vc nread data remote s x s' :
  OnReceive_accept e vc nread data remote s = Done x s' ->
  accounting s' = charge x (accounting s) /\ x <> SimulatedLoss.
Proof.
  unfold OnReceive_accept. intros H. exec;
    try (apply OnReceive_deliver_charge in H as [H ?]);
    account; (split; [congruence|congruence]).
Qed.

Lemma OnReceive_charge e nread buf remote s x s' :
  OnReceive e nread buf remote s = Done x s' ->
  accounting s' = charge x (accounting s) /\
  (x = SimulatedLoss <-> rx_loss_draw e = true).
Proof.
  unfold OnReceive. intros H. exec;
    try (apply OnReceive_deliver_charge in H as [H ?]);
    try (apply OnReceive_accept_charge in H as [H ?]);
    account;
    (split; [first [congruence|cbn [charge]; congruence]|split; congruence]).
Qed.

End Accounting.

Section AccountingRun.
Context `{P : Platform}.

Lemma bump_headroom v : v < UINT64_MAX -> bump v = v + 1.
Proof. unfold bump. lia. Qed.

Lemma charge_sum x s s' :
  accounting s' = charge x (accounting s) ->
  get_stat packets_received (socket_stats_ s) < UINT64_MAX ->
  get_stat packets_ignored (socket_stats_ s) < UINT64_MAX ->
  get_stat stateless_reset_count (socket_stats_ s) < UINT64_MAX ->
  let r' := get_stat packets_received (socket_stats_ s') in
  let i' := get_stat packets_ignored (socket_stats_ s') in
  let c' := get_stat stateless_reset_count (socket_stats_ s') in
  let r := get_stat packets_received (socket_stats_ s) in
  let i := get_stat packets_ignored (socket_stats_ s) in
  let c := get_stat stateless_reset_count (socket_stats_ s) in
  r <= r' <= r + 1 /\ i <= i' <= i + 1 /\ c <= c' <= c + 1 /\
  r' + i' + c' + (if is_handled x then 1 else 0) =
  r + i + c + (if x is SimulatedLoss then 0 else 1).
Proof.
  unfold accounting, get_stat. intros E Hr Hi Hc.
  destruct x; cbn [charge fst snd] in E; injection E as E1 E2 E3;
    rewrite ?bump_headroom in * by assumption; cbn [is_handled]; lia.
Qed.

(** C1, amended. Over any finite sequence of datagrams handed to
    [OnReceive], as long as no counter saturates, every datagram that the
    rx-loss draw does not drop is accounted exactly once: in
    packets_received, in packets_ignored, in stateless_reset_count (a
    stateless reset was sent for it), or it was consumed as a stateless reset
    from the peer, which charges no counter. *)
Theorem run_accounts_every_datagram (ds : list Datagram) :
  forall (s : QuicSocket) (xs : list Exit) (s' : QuicSocket),
  run ds s = Done xs s' ->
  get_stat packets_received (socket_stats_ s) + len_of ds <= UINT64_MAX ->
  get_stat packets_ignored (socket_stats_ s) + len_of ds <= UINT64_MAX ->
  get_stat stateless_reset_count (socket_stats_ s) + len_of ds <= UINT64_MAX ->
  get_stat packets_received (socket_stats_ s') +
  get_stat packets_ignored (socket_stats_ s') +
  get_stat stateless_reset_count (socket_stats_ s') +
  len_of (List.filter is_handled xs) =
  get_stat packets_received (socket_stats_ s) +
  get_stat packets_ignored (socket_stats_ s) +
  get_stat stateless_reset_count (socket_stats_ s) +
  len_of (List.filter not_dropped ds).
Proof.
  unfold len_of.
  induction ds as [|d ds IH]; intros s xs s' H Hr Hi Hc; cbn [run] in H; exec.
  - cbn. lia.
  - rename a into x, a0 into xs', s0 into mid, s1 into final.
    apply OnReceive_charge in Hrun as [E Hloss].
    cbn [length] in Hr, Hi, Hc.
    apply charge_sum in E; [|lia..]. cbv zeta in E.
    destruct E as (Er & Ei & Ec & E).
    specialize (IH mid xs' final Hrun0 ltac:(lia) ltac:(lia) ltac:(lia)).
    cbn [List.filter]. unfold not_dropped at 1.
    assert (Hd : (if x is SimulatedLoss then 0 else 1) =
                 if negb (rx_loss_draw (dg_env d)) then 1 else 0).
    { destruct (rx_loss_draw (dg_env d)).
      - rewrite (proj2 Hloss eq_refl). reflexivity.
      - destruct x; try reflexivity. now destruct Hloss as [-> _]. }
    rewrite Hd in E.
    destruct (is_handled x), (negb (rx_loss_draw (dg_env d)));
      cbn [length]; lia.
Qed.

End AccountingRun.

(** ** The cap on stateless resets per peer *)

Section ResetCap.
Context `{P : Platform}.

Lemma resets_capped_keeps {A} (m : M A) s a s' :
  keeps reset_table m -> m s = Done a s' ->
  resets_capped s -> resets_capped s'.
Proof.
  intros K H Hs p. apply K in H. unfold reset_table in H.
  injection H as Hc Hm. unfold GetCurrentStatelessResetCounter in *.
  rewrite Hc, Hm. apply Hs.
Qed.

Lemma IncrementStatelessResetCounter_capped remote s a s' :
  IncrementStatelessResetCounter remote s = Done a s' ->
  GetCurrentStatelessResetCounter remote s < max_stateless_resets_per_host_ s ->
  resets_capped s -> resets_capped s'.
Proof.
  unfold IncrementStatelessResetCounter. intros H Hlt Hs p. exec.
  unfold GetCurrentStatelessResetCounter in *. cbn.
  destruct (decide (remote = p)) as [->|Hne].
  - rewrite lookup_insert_eq. cbn. lia.
  - rewrite lookup_insert_ne by assumption. apply Hs.
Qed.

Lemma SendStatelessReset_capped e cid remote source_len s b s' :
  SendStatelessReset e cid remote source_len s = Done b s' ->
  resets_capped s -> resets_capped s'.
Proof.
  unfold SendStatelessReset. intros H Hs. exec; try assumption.
  - eapply resets_capped_keeps; [| eassumption |]; [eauto with keeps|].
    assumption.
  - eapply resets_capped_keeps; [| exact Hrun2 |]; [eauto with keeps|].
    eapply IncrementStatelessResetCounter_capped; [eassumption| |].
    + apply set_length_reset_table in Hrun0.
      apply QuicPacket_Create_reset_table in Hrun.
      unfold reset_table in *. injection Hrun as Hc Hm.
      injection Hrun0 as Hc0 Hm0.
      unfold GetCurrentStatelessResetCounter in *.
      rewrite Hc0, Hm0, Hc, Hm. lia.
    + eapply resets_capped_keeps; [| exact Hrun0 |]; [eauto with keeps|].
      eapply resets_capped_keeps; [| exact Hrun |]; [eauto with keeps|].
      assumption.
Qed.

(** From the cap before a finished call to the cap after it, call by call. *)
Ltac capped_step :=
  match goal with
  | Hs : resets_capped ?s0, H : ?m ?s0 = Done _ ?s1 |- _ =>
      let K := fresh "Hs" in
      assert (K : resets_capped s1)
        by first
             [ eapply SendStatelessReset_capped; [exact H|exact Hs]
             | eapply (resets_capped_keeps m);
               [solve [eauto with keeps]|exact H|exact Hs] ];
      clear H Hs
  end.

Lemma OnReceive_accept_capped e vc nread data remote s x s' :
  OnReceive_accept e vc nread data remote s = Done x s' ->
  resets_capped s -> resets_capped s'.
Proof.
  unfold OnReceive_accept. intros H Hs. exec; repeat capped_step; assumption.
Qed.

Lemma OnReceive_capped e nread buf remote s x s' :
  OnReceive e nread buf remote s = Done x s' ->
  resets_capped s -> resets_capped s'.
Proof.
  unfold OnReceive. intros H Hs. exec;
    repeat first
      [ match goal with
        | Hs : resets_capped ?s0,
          H : OnReceive_accept _ _ _ _ _ ?s0 = Done _ ?s1 |- _ =>
            let K := fresh "Hs" in
            assert (K : resets_capped s1)
              by (eapply OnReceive_accept_capped; [exact H|exact Hs]);
            clear H Hs
        end
      | capped_step ];
    assumption.
Qed.

Lemma Listen_capped s a s' :
  Listen s = Done a s' -> resets_capped s -> resets_capped s'.
Proof.
  unfold Listen. intros H Hs.
  destruct (QUICSOCKET_FLAGS_SERVER_LISTENING s); [discriminate|].
  injection H as H. subst s'. intros p. exact (Hs p).
Qed.

Lemma step_capped op s a s' :
  step op s = Done a s' -> resets_capped s -> resets_capped s'.
Proof.
  destruct op; cbn [step]; intros H Hs; exec;
    eauto using Listen_capped, OnReceive_capped, SendStatelessReset_capped.
Qed.

Lemma steps_capped ops : forall s a s',
  steps ops s = Done a s' -> resets_capped s -> resets_capped s'.
Proof.
  induction ops as [|op ops IH]; intros s a s' H Hs; cbn [steps] in H; exec.
  - assumption.
  - eauto using step_capped.
Qed.

Lemma new_socket_capped mc mr va lru dis :
  0 <= mr -> resets_capped (new_socket mc mr va lru dis).
Proof.
  intros Hmr p. unfold GetCurrentStatelessResetCounter. cbn.
  rewrite lookup_empty. cbn. exact Hmr.
Qed.

(** C6. In every state that a new socket reaches through any sequence of
    [Listen], [OnReceive] and [SendStatelessReset] operations, every peer's
    stateless reset counter is at most max_stateless_resets_per_host_; and
    at the cap [SendStatelessReset] refuses: it returns false and leaves the
    socket, counter included, as it was. *)
Theorem resets_by_peer_capped
    (ops : list Op) (mc mr : Z) (va lru dis : bool) (s' : QuicSocket) :
  0 <= mr ->
  steps ops (new_socket mc mr va lru dis) = Done tt s' ->
  (forall p : sockaddr,
     GetCurrentStatelessResetCounter p s' <= max_stateless_resets_per_host_ s') /\
  (forall e cid p source_len,
     GetCurrentStatelessResetCounter p s' = max_stateless_resets_per_host_ s' ->
     SendStatelessReset e cid p source_len s' = Done false s').
Proof.
  intros Hmr H. split.
  - eapply steps_capped; [exact H|]. now apply new_socket_capped.
  - intros e cid p source_len Hcap. unfold SendStatelessReset, bind, get.
    destruct (is_stateless_reset_disabled s'); [reflexivity|].
    destruct (Z.geb_spec (GetCurrentStatelessResetCounter p s')
                (max_stateless_resets_per_host_ s')); [reflexivity|lia].
Qed.

End ResetCap.

(** ** The send path *)

Section Send.
Context `{P : Platform}.

Lemma SendPacket_sync_failure e remote_addr packet session s :
  length_ packet <> 0 -> tx_loss_draw e = false ->
  preferred_endpoint_ s = true ->
  endpoint_send e < 0 ->
  SendPacket e remote_addr packet session s =
  (modify (set_last_created_send_wrap_ None) ;;;
   Endpoint_Send e remote_addr packet ;;;
   OnSend (endpoint_send e) packet ;;;
   ret (endpoint_send e)) s /\
  exists s',
    SendPacket e remote_addr packet session s = Done (endpoint_send e) s' /\
    effects s' = effects s ++ [EndpointSend remote_addr packet] /\
    socket_stats_ s' = socket_stats_ s /\
    (forall wrap, last_created_send_wrap_ s' = Some wrap ->
                  packet_ wrap = None).
Proof.
  intros Hlen Hloss Hpref Herr.
  assert (Hz : (endpoint_send e =? 0) = false) by (apply Z.eqb_neq; lia).
  assert (Hg : (endpoint_send e >? 0) = false)
    by (destruct (Z.gtb_spec (endpoint_send e) 0); [lia|reflexivity]).
  assert (Hl : (length_ packet =? 0) = false) by (apply Z.eqb_neq; lia).
  unfold SendPacket, Endpoint_Send, OnSend, bind, modify, get, CHECK, emit,
    modify, ret.
  rewrite Hl, Hloss, Hz. cbn. rewrite Hpref.
  destruct (send_wrap_created e); cbn; rewrite ?Hz, ?Hg; cbn;
    rewrite ?Hz, ?Hg; cbn;
    (split; [reflexivity|]; eexists; split; [reflexivity|]; cbn;
     repeat split; auto; intros wrap Hw; inversion Hw; reflexivity).
Qed.

(** C9. [SendPacket] returns 0 on an empty packet and on a simulated
    transmit loss, both without sending anything or touching the socket; it
    returns 0 when the preferred endpoint takes the datagram, which the send
    request then owns; and when the endpoint fails synchronously it returns
    the negative status after [OnSend] ran inline with that status, the
    packet attached to no send request. *)
Theorem SendPacket_returns
    (e : Env) (remote_addr : sockaddr) (packet : QuicPacket)
    (session : option Session) (s : QuicSocket) :
  (length_ packet = 0 ->
   SendPacket e remote_addr packet session s = Done 0 s) /\
  (length_ packet <> 0 -> tx_loss_draw e = true ->
   SendPacket e remote_addr packet session s = Done 0 s) /\
  (length_ packet <> 0 -> tx_loss_draw e = false ->
   preferred_endpoint_ s = true ->
   endpoint_send e = 0 -> send_wrap_created e = true ->
   SendPacket e remote_addr packet session s =
   Done 0
     (set_last_created_send_wrap_
        (Some {| packet_ := Some packet; session_ := session |})
        (set_effects (effects s ++ [EndpointSend remote_addr packet]) s))) /\
  (length_ packet <> 0 -> tx_loss_draw e = false ->
   preferred_endpoint_ s = true ->
   endpoint_send e < 0 ->
   SendPacket e remote_addr packet session s =
   (modify (set_last_created_send_wrap_ None) ;;;
    Endpoint_Send e remote_addr packet ;;;
    OnSend (endpoint_send e) packet ;;;
    ret (endpoint_send e)) s /\
   exists s',
     SendPacket e remote_addr packet session s = Done (endpoint_send e) s' /\
     effects s' = effects s ++ [EndpointSend remote_addr packet] /\
     socket_stats_ s' = socket_stats_ s /\
     (forall wrap, last_created_send_wrap_ s' = Some wrap ->
                   packet_ wrap = None)).
Proof.
  split; [|split; [|split]].
  - unfold SendPacket. intros ->. reflexivity.
  - unfold SendPacket. intros Hlen ->.
    destruct (Z.eqb_spec (length_ packet) 0); [lia|reflexivity].
  - unfold SendPacket. intros Hlen -> Hpref Herr Hwrap.
    destruct (Z.eqb_spec (length_ packet) 0); [lia|].
    unfold bind, modify, get, CHECK, Endpoint_Send, bind, emit, modify, ret.
    cbn. rewrite Hpref, Hwrap, Herr. cbn.
    destruct session; reflexivity.
  - apply SendPacket_sync_failure.
Qed.

End Send.

(** ** Emission of stateless resets *)

Section StatelessReset.
Context `{P : Platform}.

(** What [SendPacket] leaves in the history: nothing, or the one datagram. *)
Lemma SendPacket_effects e remote packet session s err s' :
  SendPacket e remote packet session s = Done err s' ->
  effects s' = effects s \/
  effects s' = effects s ++ [EndpointSend remote packet].
Proof.
  unfold SendPacket, Endpoint_Send, OnSend, IncrementSocketStat.
  intros H. exec; cbn; auto.
Qed.

Lemma SendPacket_reset_counter e remote packet session s err s' p :
  SendPacket e remote packet session s = Done err s' ->
  GetCurrentStatelessResetCounter p s' = GetCurrentStatelessResetCounter p s /\
  get_stat stateless_reset_count (socket_stats_ s') =
  get_stat stateless_reset_count (socket_stats_ s).
Proof.
  intros H. pose proof H as H'.
  apply SendPacket_reset_table in H. apply SendPacket_accounting in H'.
  unfold reset_table, accounting in *. injection H as Hc _.
  injection H' as _ _ Ha.
  unfold GetCurrentStatelessResetCounter. rewrite Hc. auto.
Qed.

(** C7, amended. With [source_len] a positive [size_t],
    [SendStatelessReset] returns false and leaves the socket untouched when
    stateless reset is disabled, or the peer's counter has reached the cap,
    or [source_len - 1 < 41]; when the encoder reports fewer than 41 bytes it
    returns false likewise, unless the packet buffer was refused first.
    Whenever it emits, the packet has the length that the encoder reports
    for 5 * NGTCP2_MIN_STATELESS_RESET_RANDLEN random bytes in a room of
    NGTCP2_MAX_PKTLEN_IPV4, a length that does not depend on [source_len];
    it is at least 41 and at most [source_len - 1], so strictly smaller than
    the triggering packet. *)
Theorem SendStatelessReset_emission
    (e : Env) (cid : QuicCID) (remote_addr : sockaddr) (source_len : Z)
    (s : QuicSocket) :
  0 < source_len < SIZE_MOD ->
  let nwrite :=
    ngtcp2_pkt_write_stateless_reset
      NGTCP2_MAX_PKTLEN_IPV4 (NGTCP2_MIN_STATELESS_RESET_RANDLEN * 5) in
  (is_stateless_reset_disabled s = true \/
   GetCurrentStatelessResetCounter remote_addr s >=
     max_stateless_resets_per_host_ s \/
   source_len - 1 < 41 ->
   SendStatelessReset e cid remote_addr source_len s = Done false s) /\
  (nwrite < 41 ->
   SendStatelessReset e cid remote_addr source_len s = Done false s \/
   SendStatelessReset e cid remote_addr source_len s = Crash) /\
  (forall b s',
     SendStatelessReset e cid remote_addr source_len s = Done b s' ->
     effects s' = effects s \/
     exists packet,
       effects s' = effects s ++ [EndpointSend remote_addr packet] /\
       length_ packet = nwrite /\
       41 <= length_ packet <= source_len - 1 /\
       length_ packet < source_len).
Proof.
  intros Hlen nwrite.
  assert (Hmod : (source_len - 1) mod SIZE_MOD = source_len - 1)
    by (apply Z.mod_small; lia).
  repeat split.
  - intros Hguard. unfold SendStatelessReset, bind, get. rewrite Hmod.
    destruct (is_stateless_reset_disabled s) eqn:Hdis; [reflexivity|].
    destruct (Z.geb_spec (GetCurrentStatelessResetCounter remote_addr s)
                (max_stateless_resets_per_host_ s)); [reflexivity|].
    unfold kMinStatelessResetLen.
    destruct (Z.ltb_spec (source_len - 1) 41); [reflexivity|].
    destruct Hguard as [?|[?|?]]; [discriminate|lia|lia].
  - intros Hn. unfold SendStatelessReset, bind, get. rewrite Hmod.
    destruct (is_stateless_reset_disabled s) eqn:Hdis; [left; reflexivity|].
    destruct (_ >=? _); [left; reflexivity|].
    destruct (_ <? _); [left; reflexivity|].
    unfold QuicPacket_Create, bind, CHECK, ret.
    destruct (_ <=? _); [|right; reflexivity].
    fold nwrite. unfold kMinStatelessResetLen.
    destruct (Z.ltb_spec nwrite 41); [left; reflexivity|lia].
  - intros b s' H. unfold SendStatelessReset in H. rewrite Hmod in H.
    fold nwrite in H. unfold kMinStatelessResetLen in H.
    exec; auto;
      unfold QuicPacket_Create, set_length, IncrementStatelessResetCounter
        in *; exec; cbn in *; try (left; reflexivity).
    match goal with
    | Hsend : SendPacket _ _ _ _ _ = Done _ _ |- _ =>
        apply SendPacket_effects in Hsend as [E|E]; cbn in E
    end; [left; exact E|].
    right. eexists. split; [exact E|]. cbn.
    repeat match goal with
    | H : (_ <? _) = false |- _ => apply Z.ltb_ge in H
    | H : (_ <=? _) = true |- _ => apply Z.leb_le in H
    end.
    repeat split; lia.
Qed.

(** C10. Once the three guards of [SendStatelessReset] pass and the encoder
    reports at least 41 bytes, the function is [SendPacket] on the socket
    that already carries the one increment of the peer's reset counter
    (unless an assertion on the packet stops the process). Whenever it
    returns, the counter of the peer is one higher, the counters of the
    other peers and stateless_reset_count are as before, and after a
    synchronous failure of the endpoint it returns false. In [OnReceive]
    (lines 526-539) the boolean it returns decides: true charges
    stateless_reset_count once, false charges packets_ignored and leaves
    stateless_reset_count alone, while the peer's counter has gone up in
    both cases. *)
Theorem SendStatelessReset_counts_attempts
    (e : Env) (cid : QuicCID) (remote_addr : sockaddr) (source_len : Z)
    (s : QuicSocket) :
  let kRandlen := NGTCP2_MIN_STATELESS_RESET_RANDLEN * 5 in
  let nwrite :=
    ngtcp2_pkt_write_stateless_reset NGTCP2_MAX_PKTLEN_IPV4 kRandlen in
  let pktlen := (source_len - 1) mod SIZE_MOD in
  let current := GetCurrentStatelessResetCounter remote_addr s in
  is_stateless_reset_disabled s = false ->
  current < max_stateless_resets_per_host_ s ->
  41 <= pktlen ->
  41 <= nwrite ->
  let packet :=
    {| diagnostic_label_ := "stateless reset";
       data_size := pktlen;
       data_ := StatelessResetBody cid (EntropySource e kRandlen) kRandlen;
       length_ := nwrite |} in
  let counted :=
    set_reset_counts_ (<[remote_addr := current + 1]> (reset_counts_ s)) s in
  let charged (g : stat) (t : QuicSocket) :=
    set_socket_stats_
      (set_stat g (bump (get_stat g (socket_stats_ t))) (socket_stats_ t)) t in
  SendStatelessReset e cid remote_addr source_len s =
    (if (pktlen <=? NGTCP2_MAX_PKT_SIZE) && (nwrite <=? pktlen)
     then (let* err := SendPacket e remote_addr packet None in
           ret (err =? 0)) counted
     else Crash) /\
  (forall b s',
     SendStatelessReset e cid remote_addr source_len s = Done b s' ->
     GetCurrentStatelessResetCounter remote_addr s' = current + 1 /\
     (forall p, p <> remote_addr ->
        GetCurrentStatelessResetCounter p s' =
        GetCurrentStatelessResetCounter p s) /\
     get_stat stateless_reset_count (socket_stats_ s') =
     get_stat stateless_reset_count (socket_stats_ s) /\
     (tx_loss_draw e = false -> preferred_endpoint_ s = true ->
      endpoint_send e < 0 -> b = false)) /\
  (forall (vc : VersionCid) (buf : bytes) (s0 sr sm : QuicSocket),
     rx_loss_draw e = false ->
     decode_version_cid e = Some vc ->
     pdcid vc = cid -> len cid <= NGTCP2_MAX_CIDLEN ->
     pversion vc = NGTCP2_PROTO_VER -> pscid vc = None ->
     IncrementSocketStat source_len bytes_received s0 = Done tt sr ->
     FindSession cid sr = Done None sr ->
     MaybeStatelessReset e cid [] source_len buf remote_addr sr =
       Done false sm ->
     AcceptInitialPacket e (pversion vc) cid [] source_len buf remote_addr sm =
       Done None s ->
     OnReceive e source_len buf remote_addr s0 =
       match SendStatelessReset e cid remote_addr source_len s with
       | Done true s2 =>
           Done SentStatelessReset (charged stateless_reset_count s2)
       | Done false s2 => Done Ignored (charged packets_ignored s2)
       | Crash => Crash
       end /\
     forall x s1,
       OnReceive e source_len buf remote_addr s0 = Done x s1 ->
       GetCurrentStatelessResetCounter remote_addr s1 = current + 1 /\
       (x = SentStatelessReset /\
        get_stat stateless_reset_count (socket_stats_ s1) =
          bump (get_stat stateless_reset_count (socket_stats_ s)) /\
        (exists s2,
           SendStatelessReset e cid remote_addr source_len s = Done true s2)
        \/
        x = Ignored /\
        get_stat stateless_reset_count (socket_stats_ s1) =
          get_stat stateless_reset_count (socket_stats_ s) /\
        (exists s2,
           SendStatelessReset e cid remote_addr source_len s =
             Done false s2)) /\
       (tx_loss_draw e = false -> preferred_endpoint_ s = true ->
        endpoint_send e < 0 ->
        x = Ignored /\
        get_stat stateless_reset_count (socket_stats_ s1) =
          get_stat stateless_reset_count (socket_stats_ s))).
Proof.
  intros kRandlen nwrite pktlen current Hdis Hcap Hmin Hn packet counted
    charged.
  assert (E : SendStatelessReset e cid remote_addr source_len s =
              (if (pktlen <=? NGTCP2_MAX_PKT_SIZE) && (nwrite <=? pktlen)
               then (let* err := SendPacket e remote_addr packet None in
                     ret (err =? 0)) counted
               else Crash)).
  { unfold SendStatelessReset. unfold bind at 1. unfold get.
    rewrite Hdis. fold kRandlen nwrite pktlen current.
    unfold kMinStatelessResetLen.
    destruct (Z.geb_spec current (max_stateless_resets_per_host_ s)); [lia|].
    destruct (Z.ltb_spec pktlen 41); [lia|].
    unfold QuicPacket_Create, set_length, IncrementStatelessResetCounter.
    unfold bind at 1. unfold bind at 1. unfold CHECK at 1.
    destruct (Z.leb_spec pktlen NGTCP2_MAX_PKT_SIZE); [|reflexivity].
    unfold ret at 1.
    destruct (Z.ltb_spec nwrite 41); [lia|].
    unfold bind at 1. unfold bind at 1. unfold CHECK at 1.
    cbn [data_size written andb].
    destruct (Z.leb_spec nwrite pktlen); [|reflexivity].
    unfold ret at 1. unfold bind at 1. unfold bind at 1. unfold modify at 1.
    reflexivity. }
  assert (Hc : GetCurrentStatelessResetCounter remote_addr counted =
               current + 1).
  { unfold GetCurrentStatelessResetCounter, counted. cbn.
    now rewrite lookup_insert_eq. }
  assert (Ho : forall p, p <> remote_addr ->
                 GetCurrentStatelessResetCounter p counted =
                 GetCurrentStatelessResetCounter p s).
  { intros p Hp. unfold GetCurrentStatelessResetCounter, counted. cbn.
    now rewrite lookup_insert_ne by congruence. }
  assert (R : forall b s',
            SendStatelessReset e cid remote_addr source_len s = Done b s' ->
            GetCurrentStatelessResetCounter remote_addr s' = current + 1 /\
            (forall p, p <> remote_addr ->
               GetCurrentStatelessResetCounter p s' =
               GetCurrentStatelessResetCounter p s) /\
            get_stat stateless_reset_count (socket_stats_ s') =
            get_stat stateless_reset_count (socket_stats_ s) /\
            (tx_loss_draw e = false -> preferred_endpoint_ s = true ->
             endpoint_send e < 0 -> b = false)).
  { intros b s' H. rewrite E in H.
    destruct ((pktlen <=? NGTCP2_MAX_PKT_SIZE) && (nwrite <=? pktlen));
      [|discriminate].
    apply bind_Done in H as (err & s2 & Hsend & H).
    unfold ret in H. injection H as Hb Hs. subst b s2.
    split; [|split; [|split]].
    - apply (SendPacket_reset_counter _ _ _ _ _ _ _ remote_addr) in Hsend.
      destruct Hsend as [-> _]. exact Hc.
    - intros p Hp.
      apply (SendPacket_reset_counter _ _ _ _ _ _ _ p) in Hsend.
      destruct Hsend as [-> _]. exact (Ho p Hp).
    - apply (SendPacket_reset_counter _ _ _ _ _ _ _ remote_addr) in Hsend.
      destruct Hsend as [_ ->]. reflexivity.
    - intros Hloss Hpref Herr.
      destruct (SendPacket_sync_failure e remote_addr packet None counted)
        as (_ & s3 & Hs3 & _); try assumption.
      { cbn. lia. }
      rewrite Hs3 in Hsend. injection Hsend as <- _.
      apply Z.eqb_neq. lia. }
  split; [exact E|]. split; [exact R|].
  intros vc buf s0 sr sm Hloss Hdec Hcid Hlen Hver Hscid Hinc Hfind Hmaybe
    Hacc.
  assert (Hsize : (len (pdcid vc) >? NGTCP2_MAX_CIDLEN) ||
                  (len (default [] (pscid vc)) >? NGTCP2_MAX_CIDLEN) = false).
  { rewrite Hscid, Hcid. cbn [default]. unfold len in *.
    change (Z.of_nat (length (@nil Z))) with 0.
    destruct (Z.gtb_spec (Z.of_nat (length cid)) NGTCP2_MAX_CIDLEN); [lia|].
    destruct (Z.gtb_spec 0 NGTCP2_MAX_CIDLEN); [lia|reflexivity]. }
  assert (Hshort : IsShortHeader (pversion vc) (pscid vc)
                     (len (default [] (pscid vc))) = true).
  { unfold IsShortHeader. rewrite Hver, Hscid, Z.eqb_refl. reflexivity. }
  assert (F : OnReceive e source_len buf remote_addr s0 =
              match SendStatelessReset e cid remote_addr source_len s with
              | Done true s2 =>
                  Done SentStatelessReset (charged stateless_reset_count s2)
              | Done false s2 => Done Ignored (charged packets_ignored s2)
              | Crash => Crash
              end).
  { unfold OnReceive. rewrite Hloss, Hdec.
    rewrite (bind_run _ _ _ _ _ Hinc). cbv zeta. rewrite Hsize, Hcid.
    rewrite (bind_run _ _ _ _ _ Hfind). rewrite Hshort.
    replace (default [] (pscid vc)) with (@nil Z) by now rewrite Hscid.
    rewrite (bind_run _ _ _ _ _ Hmaybe).
    unfold OnReceive_accept. cbv zeta. rewrite Hcid.
    replace (default [] (pscid vc)) with (@nil Z) by now rewrite Hscid.
    rewrite (bind_run _ _ _ _ _ Hacc).
    assert (Hshort' : IsShortHeader (pversion vc) (pscid vc) (len []) = true).
    { unfold IsShortHeader. rewrite Hver, Hscid, Z.eqb_refl. reflexivity. }
    rewrite Hshort'. unfold bind at 1.
    destruct (SendStatelessReset e cid remote_addr source_len s)
      as [[|] s2|]; reflexivity. }
  split; [exact F|].
  intros x s1 H. rewrite F in H. clear F E.
  remember (SendStatelessReset e cid remote_addr source_len s) as o
    eqn:Hsent in H.
  symmetry in Hsent.
  destruct o as [[|] s2|]; [| |discriminate];
    injection H as Hx Hs1; subst x s1;
    destruct (R _ _ Hsent) as (Hcount & _ & Hstat & Hfail).
  - split; [exact Hcount|]. split.
    + left. split; [reflexivity|]. split; [|eauto].
      rewrite <- Hstat. reflexivity.
    + intros Hloss' Hpref Herr. specialize (Hfail Hloss' Hpref Herr).
      discriminate.
  - split; [exact Hcount|]. split.
    + right. split; [reflexivity|]. split; [|eauto].
      rewrite <- Hstat. reflexivity.
    + intros _ _ _. split; [reflexivity|]. rewrite <- Hstat. reflexivity.
Qed.

End StatelessReset.

(** ** Recognition of a stateless reset from the peer *)

Section Recognition.
Context `{P : Platform}.

(** C4, amended. In [OnReceive], when no session matches the DCID, the
    packet has a short header, [nread >= 16], stateless reset is not
    disabled and the trailing 16 bytes of the datagram are a token of
    token_map_, the datagram is delivered to the [Receive] of the indexed
    session. When [Receive] returns true, processing stops there: only
    bytes_received has been charged and neither the accept path nor a
    stateless reset is attempted. When [Receive] returns false, processing
    goes on with the accept path of lines 505-551 as for any datagram
    without a session. *)
Theorem token_match_delivers_to_session
    (e : Env) (nread : Z) (buf : bytes) (remote_addr : sockaddr)
    (s : QuicSocket) (vc : VersionCid) (session : Session) :
  rx_loss_draw e = false ->
  decode_version_cid e = Some vc ->
  len (pdcid vc) <= NGTCP2_MAX_CIDLEN ->
  pversion vc = NGTCP2_PROTO_VER -> pscid vc = None ->
  sessions_ s !! pdcid vc = None -> dcid_to_scid_ s !! pdcid vc = None ->
  is_stateless_reset_disabled s = false ->
  16 <= nread ->
  token_map_ s !! take 16 (drop (Z.to_nat (nread - 16)) buf) = Some session ->
  let current := get_stat bytes_received (socket_stats_ s) in
  let s1 :=
    set_effects (effects s ++ [SessionReceive session nread remote_addr])
      (set_socket_stats_
         (set_stat bytes_received
            (current + Z.min nread (UINT64_MAX - current)) (socket_stats_ s))
         s) in
  (receive e session = true ->
   OnReceive e nread buf remote_addr s = Done HandledStatelessReset s1) /\
  (receive e session = false ->
   OnReceive e nread buf remote_addr s =
   OnReceive_accept e vc nread buf remote_addr s1).
Proof.
  intros Hloss Hdec Hdlen Hver Hscid Hs1 Hs2 Hdis Hn Htok current s1.
  set (s0 := set_socket_stats_
               (set_stat bytes_received
                  (current + Z.min nread (UINT64_MAX - current))
                  (socket_stats_ s)) s).
  assert (H1 : IncrementSocketStat nread bytes_received s = Done tt s0).
  { unfold IncrementSocketStat, modify, to_uint64.
    destruct (Z.ltb_spec nread 0); [lia|reflexivity]. }
  assert (H2 : FindSession (pdcid vc) s0 = Done None s0).
  { unfold FindSession, bind, get.
    change (sessions_ s0) with (sessions_ s).
    change (dcid_to_scid_ s0) with (dcid_to_scid_ s).
    rewrite Hs1, Hs2. reflexivity. }
  assert (H3 : MaybeStatelessReset e (pdcid vc) [] nread buf remote_addr s0 =
               Done (receive e session) s1).
  { unfold MaybeStatelessReset, bind, get.
    change (is_stateless_reset_disabled s0)
      with (is_stateless_reset_disabled s).
    change (token_map_ s0) with (token_map_ s).
    rewrite Hdis.
    destruct (Z.ltb_spec nread 16); [lia|]. cbn [orb].
    change (Z.to_nat NGTCP2_STATELESS_RESET_TOKENLEN) with 16%nat.
    change NGTCP2_STATELESS_RESET_TOKENLEN with 16.
    rewrite Htok. reflexivity. }
  assert (Hcid : (len (pdcid vc) >? NGTCP2_MAX_CIDLEN) ||
                 (len (default [] (pscid vc)) >? NGTCP2_MAX_CIDLEN) = false).
  { rewrite Hscid. cbn [default]. unfold len in *.
    change (Z.of_nat (length (@nil Z))) with 0.
    destruct (Z.gtb_spec (Z.of_nat (length (pdcid vc))) NGTCP2_MAX_CIDLEN);
      [lia|].
    destruct (Z.gtb_spec 0 NGTCP2_MAX_CIDLEN); [lia|reflexivity]. }
  assert (Hshort : IsShortHeader (pversion vc) (pscid vc)
                     (len (default [] (pscid vc))) = true).
  { unfold IsShortHeader. rewrite Hver, Hscid, Z.eqb_refl. reflexivity. }
  assert (F : OnReceive e nread buf remote_addr s =
              (if receive e session then ret HandledStatelessReset
               else OnReceive_accept e vc nread buf remote_addr) s1).
  { unfold OnReceive. rewrite Hloss, Hdec.
    rewrite (bind_run _ _ _ _ _ H1). cbv zeta. rewrite Hcid.
    rewrite (bind_run _ _ _ _ _ H2). rewrite Hshort.
    replace (default [] (pscid vc)) with (@nil Z) by now rewrite Hscid.
    rewrite (bind_run _ _ _ _ _ H3). reflexivity. }
  split; intros Hr; rewrite F, Hr; reflexivity.
Qed.

End Recognition.

(** ** Acceptance of initial packets *)

Section Accept.
Context `{P : Platform}.

(** C5. In [AcceptInitialPacket] on a listening socket, after
    [QuicSession::Accept] answers PACKET_OK, the close code handed to the
    session factory is NGTCP2_SERVER_BUSY exactly when the server-busy flag
    is set or the peer's connection count has reached
    max_connections_per_host_, and NGTCP2_NO_ERROR otherwise. In the busy
    case address validation is skipped (no retry, no validated address, no
    original connection id) and the factory is still asked for the session,
    which is returned when it is created. *)
Theorem AcceptInitialPacket_early_close
    (e : Env) (version : Z) (dcid scid : QuicCID) (nread : Z) (data : bytes)
    (remote_addr : sockaddr) (s : QuicSocket) :
  QUICSOCKET_FLAGS_SERVER_LISTENING s = true ->
  accept e = PACKET_OK ->
  let busy :=
    QUICSOCKET_FLAGS_SERVER_BUSY s ||
    (GetCurrentSocketAddressCounter remote_addr s >=?
       max_connections_per_host_ s) in
  let early_close := if busy then NGTCP2_SERVER_BUSY else NGTCP2_NO_ERROR in
  let validate :=
    QUICSOCKET_OPTIONS_VALIDATE_ADDRESS s && hd_type_initial e &&
    negb (is_validated_address remote_addr s) in
  (early_close = NGTCP2_SERVER_BUSY <->
   QUICSOCKET_FLAGS_SERVER_BUSY s = true \/
   GetCurrentSocketAddressCounter remote_addr s >=
     max_connections_per_host_ s) /\
  (busy = true ->
   AcceptInitialPacket e version dcid scid nread data remote_addr s =
   AcceptInitialPacket_create e version dcid scid remote_addr None
     NGTCP2_SERVER_BUSY s) /\
  (busy = true ->
   forall session token, create_server e = Some (session, token) ->
   exists s',
     AcceptInitialPacket e version dcid scid nread data remote_addr s =
       Done (Some session) s' /\
     effects s' =
       effects s ++
       [SessionCreateServer dcid remote_addr scid None version
          NGTCP2_SERVER_BUSY;
        ListenerOnSessionReady (Some session)] /\
     validated_addrs_ s' = validated_addrs_ s) /\
  (busy = false ->
   AcceptInitialPacket e version dcid scid nread data remote_addr s =
   if validate then
     match retry_token_ocid e with
     | None => (SendRetry e version dcid scid remote_addr ;;; ret None) s
     | Some ocid =>
         (set_validated_address remote_addr ;;;
          AcceptInitialPacket_create e version dcid scid remote_addr
            (Some ocid) NGTCP2_NO_ERROR) s
     end
   else
     AcceptInitialPacket_create e version dcid scid remote_addr None
       NGTCP2_NO_ERROR s).
Proof.
  intros Hlisten Hok busy early_close validate.
  assert (E : AcceptInitialPacket e version dcid scid nread data remote_addr s =
    if ConnectionClose_eqb early_close NGTCP2_NO_ERROR && validate then
      match retry_token_ocid e with
      | None => (SendRetry e version dcid scid remote_addr ;;; ret None) s
      | Some ocid =>
          (set_validated_address remote_addr ;;;
           AcceptInitialPacket_create e version dcid scid remote_addr
             (Some ocid) early_close) s
      end
    else
      AcceptInitialPacket_create e version dcid scid remote_addr None
        early_close s).
  { unfold AcceptInitialPacket. unfold bind at 1, get at 1.
    rewrite Hlisten, Hok. cbn [negb].
    subst early_close busy validate.
    destruct (QUICSOCKET_FLAGS_SERVER_BUSY s),
      (GetCurrentSocketAddressCounter remote_addr s >=?
         max_connections_per_host_ s),
      (QUICSOCKET_OPTIONS_VALIDATE_ADDRESS s), (hd_type_initial e),
      (is_validated_address remote_addr s);
      cbn [orb andb negb ConnectionClose_eqb]; try reflexivity;
      destruct (retry_token_ocid e); reflexivity. }
  split; [|split; [|split]].
  - subst early_close busy.
    destruct (QUICSOCKET_FLAGS_SERVER_BUSY s);
      destruct (Z.geb_spec (GetCurrentSocketAddressCounter remote_addr s)
                  (max_connections_per_host_ s));
      cbn [orb];
      (split; intros K;
       [ first [left; reflexivity | right; lia | discriminate K]
       | first [reflexivity | destruct K as [K|K]; [discriminate K|lia]] ]).
  - intros Hb. rewrite E. subst early_close. rewrite Hb. reflexivity.
  - intros Hb session token Hc. rewrite E. subst early_close. rewrite Hb.
    cbn [ConnectionClose_eqb andb].
    unfold AcceptInitialPacket_create, Session_CreateServer, bind, emit,
      modify, ret. rewrite Hc. cbn.
    eexists. split; [reflexivity|]. cbn. rewrite <- app_assoc. auto.
  - intros Hb. rewrite E. subst early_close. rewrite Hb.
    cbn [ConnectionClose_eqb andb]. reflexivity.
Qed.

End Accept.

(** ** The properties on the scenarios *)

(** C1 as stated fails: an unknown short-header datagram that is answered by
    a stateless reset is neither received nor ignored; it is charged to
    stateless_reset_count alone (scenario 1 of the specification). *)
Lemma unknown_short_header_in_neither_counter :
  exists s',
    run (P := quic_platform) [unknown_short] boot =
      Done [SentStatelessReset] s' /\
    0 < dg_nread unknown_short /\
    rx_loss_draw (dg_env unknown_short) = false /\
    get_stat packets_received (socket_stats_ s') +
    get_stat packets_ignored (socket_stats_ s') = 0 /\
    get_stat packets_received (socket_stats_ s') +
    get_stat packets_ignored (socket_stats_ s') <>
    len_of (List.filter not_dropped [unknown_short]).
Proof.
  eexists. split; [vm_compute; reflexivity|].
  vm_compute. repeat split; discriminate.
Qed.

Lemma run_accounts_every_datagram_witness :
  exists xs s',
    run (P := quic_platform) [dropped; unknown_short; garbage] boot =
      Done xs s' /\
    get_stat packets_received (socket_stats_ s') +
    get_stat packets_ignored (socket_stats_ s') +
    get_stat stateless_reset_count (socket_stats_ s') +
    len_of (List.filter is_handled xs) =
    get_stat packets_received (socket_stats_ boot) +
    get_stat packets_ignored (socket_stats_ boot) +
    get_stat stateless_reset_count (socket_stats_ boot) +
    len_of (List.filter not_dropped [dropped; unknown_short; garbage]).
Proof.
  eexists. eexists. split; [vm_compute; reflexivity|].
  apply (run_accounts_every_datagram (P := quic_platform)
           [dropped; unknown_short; garbage] boot);
    [vm_compute; reflexivity | vm_compute; discriminate ..].
Defined.

(** C2 on scenario 2: the version list is [reserved version; PROTO_VER], but
    the packet handed to the endpoint was encoded with the received DCID
    (AA..AA) in the encoder's dcid argument and the received SCID (BB..BB)
    in its scid argument: the connection ids are not swapped. *)
Lemma version_negotiation_does_not_swap_cids :
  exists s',
    OnReceive (P := quic_platform) version_mismatch_env 1252
      (repeat 0 1252) peer listening = Done Ignored s' /\
    effects s' =
      [EndpointSend peer
         {| diagnostic_label_ := "version negotiation";
            data_size := 31;
            data_ :=
              VersionNegotiationBody 0
                (pdcid (long_header 0x01020304))
                (default [] (pscid (long_header 0x01020304)))
                [ReservedVersion.GenerateReservedVersion
                   ReservedVersion.LittleEndian peer 0x01020304;
                 NGTCP2_PROTO_VER (Platform := quic_platform)];
            length_ := 31 |}] /\
    pdcid (long_header 0x01020304) <>
    default [] (pscid (long_header 0x01020304)).
Proof.
  eexists. split; [vm_compute; reflexivity|].
  split; [vm_compute; reflexivity|]. vm_compute. discriminate.
Qed.

(** C3 when the session factory fails on an acceptable initial packet:
    [AcceptInitialPacket] returns no session, and the listener has been
    told that a session is ready, with an empty session. *)
Lemma session_ready_raised_without_session :
  exists s',
    AcceptInitialPacket (P := quic_platform) factory_fails_env 1
      (repeat 0xAA 8) (repeat 0xBB 8) 1252 (repeat 0 1252) peer listening =
      Done None s' /\
    effects s' =
      [SessionCreateServer (repeat 0xAA 8) peer (repeat 0xBB 8) None 1
         NGTCP2_NO_ERROR;
       ListenerOnSessionReady None].
Proof.
  eexists. split; vm_compute; reflexivity.
Qed.

(** C4 as stated fails: the trailing 16 bytes match a token of token_map_,
    the indexed session's [Receive] returns false, and processing goes on:
    a stateless reset is sent for the same datagram. *)
Lemma unprocessed_reset_token_goes_on :
  exists s' packet,
    token_map_ with_token !!
      take 16 (drop (Z.to_nat (1200 - 16)) ends_in_token) = Some 5%nat /\
    receive unknown_short_env 5%nat = false /\
    OnReceive (P := quic_platform) unknown_short_env 1200 ends_in_token peer
      with_token = Done SentStatelessReset s' /\
    effects s' =
      [SessionReceive 5%nat 1200 peer; EndpointSend peer packet] /\
    diagnostic_label_ packet = "stateless reset"%string.
Proof.
  eexists. eexists. split; [vm_compute; reflexivity|].
  split; [reflexivity|]. split; [vm_compute; reflexivity|].
  split; vm_compute; reflexivity.
Qed.

Lemma token_match_delivers_to_session_witness :
  (exists s1,
     OnReceive (P := quic_platform) handled_short_env 1200 ends_in_token peer
       with_token = Done HandledStatelessReset s1 /\
     effects s1 = [SessionReceive 5%nat 1200 peer] /\
     accounting s1 = accounting with_token) /\
  (exists s1,
     OnReceive (P := quic_platform) unknown_short_env 1200 ends_in_token peer
       with_token =
     OnReceive_accept (P := quic_platform) unknown_short_env short_header
       1200 ends_in_token peer s1 /\
     effects s1 = [SessionReceive 5%nat 1200 peer]).
Proof.
  split.
  - eexists. split.
    + apply (token_match_delivers_to_session (P := quic_platform)
               handled_short_env 1200 ends_in_token peer with_token
               short_header 5%nat);
        try reflexivity; try (vm_compute; discriminate).
    + split; vm_compute; reflexivity.
  - eexists. split.
    + apply (token_match_delivers_to_session (P := quic_platform)
               unknown_short_env 1200 ends_in_token peer with_token
               short_header 5%nat);
        try reflexivity; try (vm_compute; discriminate).
    + vm_compute; reflexivity.
Defined.

Lemma AcceptInitialPacket_early_close_witness :
  (exists s',
     AcceptInitialPacket (P := quic_platform) factory_succeeds_env 1
       (repeat 0xAA 8) (repeat 0xBB 8) 1252 (repeat 0 1252) peer full =
       Done (Some 1%nat) s' /\
     effects s' =
       effects full ++
       [SessionCreateServer (repeat 0xAA 8) peer (repeat 0xBB 8) None 1
          NGTCP2_SERVER_BUSY;
        ListenerOnSessionReady (Some 1%nat)] /\
     validated_addrs_ s' = validated_addrs_ full) /\
  AcceptInitialPacket (P := quic_platform) factory_succeeds_env 1
    (repeat 0xAA 8) (repeat 0xBB 8) 1252 (repeat 0 1252) peer listening =
  AcceptInitialPacket_create factory_succeeds_env 1
    (repeat 0xAA 8) (repeat 0xBB 8) peer None NGTCP2_NO_ERROR listening.
Proof.
  split.
  - pose proof (AcceptInitialPacket_early_close (P := quic_platform)
                  factory_succeeds_env 1 (repeat 0xAA 8) (repeat 0xBB 8)
                  1252 (repeat 0 1252) peer full eq_refl eq_refl) as H.
    cbv zeta in H. destruct H as (_ & _ & H & _).
    apply (H eq_refl 1%nat (repeat 9 16)). reflexivity.
  - pose proof (AcceptInitialPacket_early_close (P := quic_platform)
                  factory_succeeds_env 1 (repeat 0xAA 8) (repeat 0xBB 8)
                  1252 (repeat 0 1252) peer listening eq_refl eq_refl) as H.
    cbv zeta in H. destruct H as (_ & _ & _ & H).
    apply (H eq_refl).
Defined.

Lemma resets_by_peer_capped_witness :
  exists s',
    steps (P := quic_platform) five_unknown (new_socket 10 3 false false false) =
      Done tt s' /\
    GetCurrentStatelessResetCounter peer s' = 3 /\
    (forall p : list Z,
       GetCurrentStatelessResetCounter p s' <=
       max_stateless_resets_per_host_ s') /\
    (forall e cid p source_len,
       GetCurrentStatelessResetCounter p s' =
         max_stateless_resets_per_host_ s' ->
       SendStatelessReset (P := quic_platform) e cid p source_len s' =
         Done false s').
Proof.
  eexists. split; [vm_compute; reflexivity|].
  split; [vm_compute; reflexivity|].
  apply (resets_by_peer_capped (P := quic_platform) five_unknown
           10 3 false false false);
    [lia | vm_compute; reflexivity].
Defined.

(** C7 as stated fails: for a 1200-byte trigger the emitted stateless reset
    is 41 bytes long, not 1199. *)
Lemma stateless_reset_is_not_source_len_minus_1 :
  exists s' packet,
    SendStatelessReset (P := quic_platform) unknown_short_env (repeat 7 16)
      peer 1200 boot = Done true s' /\
    effects s' = [EndpointSend peer packet] /\
    length_ packet = 41 /\
    length_ packet <> 1200 - 1.
Proof.
  eexists. eexists. split; [vm_compute; reflexivity|].
  split; [vm_compute; reflexivity|]. split; vm_compute; [reflexivity|discriminate].
Qed.

Lemma SendStatelessReset_emission_witness :
  SendStatelessReset (P := quic_platform) unknown_short_env (repeat 7 16)
    peer 30 boot = Done false boot /\
  (SendStatelessReset (P := tight_platform) unknown_short_env (repeat 7 16)
     peer 1200 boot = Done false boot \/
   SendStatelessReset (P := tight_platform) unknown_short_env (repeat 7 16)
     peer 1200 boot = Crash) /\
  forall b s',
    SendStatelessReset (P := quic_platform) unknown_short_env (repeat 7 16)
      peer 1200 boot = Done b s' ->
    effects s' = effects boot \/
    exists packet,
      effects s' = effects boot ++ [EndpointSend peer packet] /\
      length_ packet = 41 /\
      41 <= length_ packet <= 1200 - 1 /\
      length_ packet < 1200.
Proof.
  split; [|split].
  - pose proof (SendStatelessReset_emission (P := quic_platform)
                  unknown_short_env (repeat 7 16) peer 30 boot) as H.
    cbv zeta in H. destruct H as (H & _ & _); [vm_compute; auto|].
    apply H. right. right. lia.
  - pose proof (SendStatelessReset_emission (P := tight_platform)
                  unknown_short_env (repeat 7 16) peer 1200 boot) as H.
    cbv zeta in H. destruct H as (_ & H & _); [vm_compute; auto|].
    apply H. vm_compute. reflexivity.
  - pose proof (SendStatelessReset_emission (P := quic_platform)
                  unknown_short_env (repeat 7 16) peer 1200 boot) as H.
    cbv zeta in H. destruct H as (_ & _ & H); [vm_compute; auto|].
    exact H.
Defined.

Lemma SendPacket_returns_witness :
  SendPacket unknown_short_env peer empty_packet None
    boot = Done 0 boot /\
  SendPacket tx_loss_env peer some_packet None boot =
    Done 0 boot /\
  SendPacket unknown_short_env peer some_packet
    (Some 5%nat) boot =
    Done 0
      (set_last_created_send_wrap_
         (Some {| packet_ := Some some_packet; session_ := Some 5%nat |})
         (set_effects (effects boot ++ [EndpointSend peer some_packet]) boot)) /\
  exists s',
    SendPacket send_fails_env peer some_packet None boot =
      Done (-105) s' /\
    effects s' = effects boot ++ [EndpointSend peer some_packet] /\
    socket_stats_ s' = socket_stats_ boot /\
    (forall wrap, last_created_send_wrap_ s' = Some wrap ->
                  packet_ wrap = None).
Proof.
  split; [|split; [|split]].
  - exact (proj1 (SendPacket_returns unknown_short_env peer empty_packet
                    None boot) eq_refl).
  - exact (proj1 (proj2 (SendPacket_returns tx_loss_env peer some_packet
                           None boot)) ltac:(discriminate) eq_refl).
  - exact (proj1 (proj2 (proj2 (SendPacket_returns unknown_short_env peer
                                  some_packet (Some 5%nat) boot)))
             ltac:(discriminate) eq_refl eq_refl eq_refl eq_refl).
  - destruct (SendPacket_returns send_fails_env peer
                some_packet None boot) as (_ & _ & _ & H).
    destruct (H ltac:(discriminate) eq_refl eq_refl eq_refl) as (_ & K).
    exact K.
Defined.

Lemma SendStatelessReset_counts_attempts_witness :
  (exists s1,
     OnReceive (P := quic_platform) send_fails_env 1200 (repeat 0 1200) peer
       boot = Done Ignored s1 /\
     GetCurrentStatelessResetCounter peer s1 = 1 /\
     get_stat stateless_reset_count (socket_stats_ s1) = 0) /\
  (exists s1,
     OnReceive (P := quic_platform) unknown_short_env 1200 (repeat 0 1200)
       peer boot = Done SentStatelessReset s1 /\
     GetCurrentStatelessResetCounter peer s1 = 1 /\
     get_stat stateless_reset_count (socket_stats_ s1) = 1).
Proof.
  split.
  - destruct (SendStatelessReset_counts_attempts (P := quic_platform)
                send_fails_env (repeat 7 16) peer 1200 boot_1200)
      as (_ & _ & Hrecv);
      [reflexivity|reflexivity|vm_compute; discriminate
      |vm_compute; discriminate|].
    destruct (Hrecv short_header (repeat 0 1200) boot boot_1200 boot_1200)
      as [_ Hrun];
      [reflexivity|reflexivity|reflexivity|vm_compute; discriminate
      |reflexivity|reflexivity|reflexivity|reflexivity|reflexivity
      |reflexivity|].
    eexists. split; [vm_compute; reflexivity|].
    destruct (Hrun Ignored _ ltac:(vm_compute; reflexivity))
      as (Hcount & _ & Hfail).
    split; [exact Hcount|].
    destruct Hfail as [_ Hstat];
      [reflexivity|reflexivity|reflexivity|exact Hstat].
  - destruct (SendStatelessReset_counts_attempts (P := quic_platform)
                unknown_short_env (repeat 7 16) peer 1200 boot_1200)
      as (_ & _ & Hrecv);
      [reflexivity|reflexivity|vm_compute; discriminate
      |vm_compute; discriminate|].
    destruct (Hrecv short_header (repeat 0 1200) boot boot_1200 boot_1200)
      as [_ Hrun];
      [reflexivity|reflexivity|reflexivity|vm_compute; discriminate
      |reflexivity|reflexivity|reflexivity|reflexivity|reflexivity
      |reflexivity|].
    eexists. split; [vm_compute; reflexivity|].
    destruct (Hrun SentStatelessReset _ ltac:(vm_compute; reflexivity))
      as (Hcount & [(_ & Hstat & _)|(Hx & _)] & _).
    + split; [exact Hcount|exact Hstat].
    + discriminate Hx.
Defined.

(** ** Frames for the further observations *)

Section MoreFrames.
Context `{P : Platform}.

Lemma filter_snoc (q : Effect -> bool) (l : list Effect) (x : Effect) :
  len_of (List.filter q (l ++ [x])) =
  len_of (List.filter q l) + (if q x then 1 else 0).
Proof.
  unfold len_of. rewrite List.filter_app, length_app. cbn [List.filter].
  destruct (q x); cbn [length]; lia.
Qed.

Lemma emit_keeps_count (q : Effect -> bool) (x : Effect) :
  q x = false -> keeps (count_eff q) (emit x).
Proof.
  intros Hq. apply keeps_modify. intros s. unfold count_eff. cbn.
  rewrite filter_snoc, Hq. lia.
Qed.

Lemma emit_keeps_standing (x : Effect) :
  is_creation x = false -> keeps standing (emit x).
Proof.
  intros Hq. apply keeps_modify. intros s. unfold standing, count_eff. cbn.
  rewrite filter_snoc, Hq. now rewrite Z.add_0_r.
Qed.

Lemma IncrementSocketStat_steady n g :
  g <> bytes_received -> keeps steady (IncrementSocketStat n g).
Proof.
  intros Hg. unfold IncrementSocketStat. apply keeps_modify.
  intros s. destruct g; try congruence; reflexivity.
Qed.

Lemma IncrementSocketStat_standing n g :
  keeps standing (IncrementSocketStat n g).
Proof. unfold IncrementSocketStat. keeps_auto. Qed.

Lemma IncrementSocketStat_count q n g :
  keeps (count_eff q) (IncrementSocketStat n g).
Proof. unfold IncrementSocketStat. keeps_auto. Qed.

#[local] Hint Extern 1 (_ <> _) => discriminate : keeps.
#[local] Hint Extern 1 (_ = false) => reflexivity : keeps.
#[local] Hint Resolve emit_keeps_count emit_keeps_standing
  IncrementSocketStat_steady IncrementSocketStat_standing
  IncrementSocketStat_count : keeps.

Lemma QuicPacket_Create_steady label n :
  keeps steady (QuicPacket_Create label n).
Proof. unfold QuicPacket_Create. keeps_auto. Qed.
#[local] Hint Resolve QuicPacket_Create_steady : keeps.

Lemma QuicPacket_Create_standing label n :
  keeps standing (QuicPacket_Create label n).
Proof. unfold QuicPacket_Create. keeps_auto. Qed.
#[local] Hint Resolve QuicPacket_Create_standing : keeps.

Lemma set_length_steady n p :
  keeps steady (set_length n p).
Proof. unfold set_length. keeps_auto. Qed.
#[local] Hint Resolve set_length_steady : keeps.

Lemma set_length_standing n p :
  keeps standing (set_length n p).
Proof. unfold set_length. keeps_auto. Qed.
#[local] Hint Resolve set_length_standing : keeps.

Lemma set_validated_address_steady a :
  keeps steady (set_validated_address a).
Proof. unfold set_validated_address. keeps_auto. Qed.
#[local] Hint Resolve set_validated_address_steady : keeps.

Lemma IncrementStatelessResetCounter_steady a :
  keeps steady (IncrementStatelessResetCounter a).
Proof. unfold IncrementStatelessResetCounter. keeps_auto. Qed.
#[local] Hint Resolve IncrementStatelessResetCounter_steady : keeps.

Lemma IncrementStatelessResetCounter_standing a :
  keeps standing (IncrementStatelessResetCounter a).
Proof. unfold IncrementStatelessResetCounter. keeps_auto. Qed.
#[local] Hint Resolve IncrementStatelessResetCounter_standing : keeps.

Lemma Session_Receive_steady e x n r :
  keeps steady (Session_Receive e x n r).
Proof. unfold Session_Receive. keeps_auto. Qed.
#[local] Hint Resolve Session_Receive_steady : keeps.

Lemma Session_Receive_standing e x n r :
  keeps standing (Session_Receive e x n r).
Proof. unfold Session_Receive. keeps_auto. Qed.
#[local] Hint Resolve Session_Receive_standing : keeps.

Lemma Session_CreateServer_steady e d r c o v i :
  keeps steady (Session_CreateServer e d r c o v i).
Proof. unfold Session_CreateServer. keeps_auto. Qed.
#[local] Hint Resolve Session_CreateServer_steady : keeps.

Lemma Endpoint_Send_steady e r p :
  keeps steady (Endpoint_Send e r p).
Proof. unfold Endpoint_Send. keeps_auto. Qed.
#[local] Hint Resolve Endpoint_Send_steady : keeps.

Lemma Endpoint_Send_standing e r p :
  keeps standing (Endpoint_Send e r p).
Proof. unfold Endpoint_Send. keeps_auto. Qed.
#[local] Hint Resolve Endpoint_Send_standing : keeps.

Lemma FindSession_steady c :
  keeps steady (FindSession c).
Proof. unfold FindSession. keeps_auto. Qed.
#[local] Hint Resolve FindSession_steady : keeps.

Lemma FindSession_standing c :
  keeps standing (FindSession c).
Proof. unfold FindSession. keeps_auto. Qed.
#[local] Hint Resolve FindSession_standing : keeps.

Lemma OnSend_steady n p :
  keeps steady (OnSend n p).
Proof. unfold OnSend. keeps_auto. Qed.
#[local] Hint Resolve OnSend_steady : keeps.

Lemma OnSend_standing n p :
  keeps standing (OnSend n p).
Proof. unfold OnSend. keeps_auto. Qed.
#[local] Hint Resolve OnSend_standing : keeps.

Lemma SendPacket_steady e r p x :
  keeps steady (SendPacket e r p x).
Proof. unfold SendPacket. keeps_auto. Qed.
#[local] Hint Resolve SendPacket_steady : keeps.

Lemma SendPacket_standing e r p x :
  keeps standing (SendPacket e r p x).
Proof. unfold SendPacket. keeps_auto. Qed.
#[local] Hint Resolve SendPacket_standing : keeps.

Lemma SendVersionNegotiation_steady e v d c r :
  keeps steady (SendVersionNegotiation e v d c r).
Proof. unfold SendVersionNegotiation. keeps_auto. Qed.
#[local] Hint Resolve SendVersionNegotiation_steady : keeps.

Lemma SendStatelessReset_steady e c r n :
  keeps steady (SendStatelessReset e c r n).
Proof. unfold SendStatelessReset. keeps_auto. Qed.
#[local] Hint Resolve SendStatelessReset_steady : keeps.

Lemma SendStatelessReset_standing e c r n :
  keeps standing (SendStatelessReset e c r n).
Proof. unfold SendStatelessReset. keeps_auto. Qed.
#[local] Hint Resolve SendStatelessReset_standing : keeps.

Lemma SendRetry_steady e v d c r :
  keeps steady (SendRetry e v d c r).
Proof. unfold SendRetry. keeps_auto. Qed.
#[local] Hint Resolve SendRetry_steady : keeps.

Lemma AcceptInitialPacket_create_steady e v d c r o i :
  keeps steady (AcceptInitialPacket_create e v d c r o i).
Proof. unfold AcceptInitialPacket_create. keeps_auto. Qed.
#[local] Hint Resolve AcceptInitialPacket_create_steady : keeps.

Lemma AcceptInitialPacket_steady e v d c n b r :
  keeps steady (AcceptInitialPacket e v d c n b r).
Proof. unfold AcceptInitialPacket. keeps_auto. Qed.
#[local] Hint Resolve AcceptInitialPacket_steady : keeps.

Lemma MaybeStatelessReset_steady e d c n b r :
  keeps steady (MaybeStatelessReset e d c n b r).
Proof. unfold MaybeStatelessReset. keeps_auto. Qed.
#[local] Hint Resolve MaybeStatelessReset_steady : keeps.

Lemma MaybeStatelessReset_standing e d c n b r :
  keeps standing (MaybeStatelessReset e d c n b r).
Proof. unfold MaybeStatelessReset. keeps_auto. Qed.
#[local] Hint Resolve MaybeStatelessReset_standing : keeps.

Lemma OnReceive_deliver_steady e x n r :
  keeps steady (OnReceive_deliver e x n r).
Proof. unfold OnReceive_deliver. keeps_auto. Qed.
#[local] Hint Resolve OnReceive_deliver_steady : keeps.

Lemma OnReceive_deliver_standing e x n r :
  keeps standing (OnReceive_deliver e x n r).
Proof. unfold OnReceive_deliver. keeps_auto. Qed.
#[local] Hint Resolve OnReceive_deliver_standing : keeps.

Lemma OnReceive_accept_steady e vc n b r :
  keeps steady (OnReceive_accept e vc n b r).
Proof. unfold OnReceive_accept. keeps_auto. Qed.
#[local] Hint Resolve OnReceive_accept_steady : keeps.

End MoreFrames.

#[global] Hint Extern 1 (_ = false) => reflexivity : keeps.
#[global] Hint Resolve emit_keeps_count emit_keeps_standing
  IncrementSocketStat_steady IncrementSocketStat_standing
  IncrementSocketStat_count
  QuicPacket_Create_steady QuicPacket_Create_standing
  set_length_steady set_length_standing
  set_validated_address_steady IncrementStatelessResetCounter_steady
  IncrementStatelessResetCounter_standing Session_Receive_steady
  Session_Receive_standing Session_CreateServer_steady
  Endpoint_Send_steady Endpoint_Send_standing
  FindSession_steady FindSession_standing
  OnSend_steady OnSend_standing
  SendPacket_steady SendPacket_standing
  SendVersionNegotiation_steady SendStatelessReset_steady
  SendStatelessReset_standing SendRetry_steady
  AcceptInitialPacket_create_steady AcceptInitialPacket_steady
  MaybeStatelessReset_steady MaybeStatelessReset_standing
  OnReceive_deliver_steady OnReceive_deliver_standing
  OnReceive_accept_steady : keeps.

Section SettingsFrames.
Context `{P : Platform}.

Lemma keeps_settings {A} (m : M A) : keeps steady m -> keeps settings m.
Proof. intros K s a s' H. unfold settings. now rewrite (K s a s' H). Qed.

Lemma IncrementSocketStat_settings n g :
  keeps settings (IncrementSocketStat n g).
Proof. unfold IncrementSocketStat. keeps_auto. Qed.

Lemma settings_flags s s' :
  settings s' = settings s ->
  QUICSOCKET_FLAGS_SERVER_LISTENING s' = QUICSOCKET_FLAGS_SERVER_LISTENING s /\
  QUICSOCKET_FLAGS_DISABLE_STATELESS_RESET s' =
  QUICSOCKET_FLAGS_DISABLE_STATELESS_RESET s /\
  max_stateless_resets_per_host_ s' = max_stateless_resets_per_host_ s.
Proof. unfold settings, steady. cbn. intros H. inversion H. auto. Qed.

End SettingsFrames.

#[global] Hint Resolve IncrementSocketStat_settings : keeps.
#[global] Hint Extern 3 (keeps settings _) => apply keeps_settings : keeps.

(** From a finished call to what it kept of an observation. *)
Ltac kept f H :=
  match type of H with
  | ?m ?s0 = Done _ ?s1 =>
      let K := fresh "K" in
      assert (K : f s1 = f s0)
        by (eapply (ltac:(eauto with keeps) : keeps f m); exact H)
  end.

(** ** Frames for the count of stateless resets on the wire *)

Section ResetFrames.
Context `{P : Platform}.
Variable who : list Z.

Lemma SendPacket_count (q : Effect -> bool) e r packet session :
  q (EndpointSend r packet) = false ->
  keeps (count_eff q) (SendPacket e r packet session).
Proof.
  intros Hq s a s' H. apply SendPacket_effects in H as [E|E];
    unfold count_eff; rewrite E; [reflexivity|].
  rewrite filter_snoc, Hq. lia.
Qed.

Lemma QuicPacket_Create_resets label n :
  keeps (count_eff (is_reset_to who)) (QuicPacket_Create label n).
Proof. unfold QuicPacket_Create. keeps_auto. Qed.
#[local] Hint Resolve QuicPacket_Create_resets : keeps.

Lemma set_length_resets n p :
  keeps (count_eff (is_reset_to who)) (set_length n p).
Proof. unfold set_length. keeps_auto. Qed.
#[local] Hint Resolve set_length_resets : keeps.

Lemma set_validated_address_resets a :
  keeps (count_eff (is_reset_to who)) (set_validated_address a).
Proof. unfold set_validated_address. keeps_auto. Qed.
#[local] Hint Resolve set_validated_address_resets : keeps.

Lemma IncrementStatelessResetCounter_resets a :
  keeps (count_eff (is_reset_to who)) (IncrementStatelessResetCounter a).
Proof. unfold IncrementStatelessResetCounter. keeps_auto. Qed.
#[local] Hint Resolve IncrementStatelessResetCounter_resets : keeps.

Lemma Session_Receive_resets e x n r :
  keeps (count_eff (is_reset_to who)) (Session_Receive e x n r).
Proof. unfold Session_Receive. keeps_auto. Qed.
#[local] Hint Resolve Session_Receive_resets : keeps.

Lemma Session_CreateServer_resets e d r c o v i :
  keeps (count_eff (is_reset_to who)) (Session_CreateServer e d r c o v i).
Proof. unfold Session_CreateServer. keeps_auto. Qed.
#[local] Hint Resolve Session_CreateServer_resets : keeps.

Lemma FindSession_resets c :
  keeps (count_eff (is_reset_to who)) (FindSession c).
Proof. unfold FindSession. keeps_auto. Qed.
#[local] Hint Resolve FindSession_resets : keeps.

Lemma OnSend_resets n p :
  keeps (count_eff (is_reset_to who)) (OnSend n p).
Proof. unfold OnSend. keeps_auto. Qed.
#[local] Hint Resolve OnSend_resets : keeps.

Lemma AcceptInitialPacket_create_resets e v d c r o i :
  keeps (count_eff (is_reset_to who)) (AcceptInitialPacket_create e v d c r o i).
Proof. unfold AcceptInitialPacket_create. keeps_auto. Qed.
#[local] Hint Resolve AcceptInitialPacket_create_resets : keeps.

Lemma MaybeStatelessReset_resets e d c n b r :
  keeps (count_eff (is_reset_to who)) (MaybeStatelessReset e d c n b r).
Proof. unfold MaybeStatelessReset. keeps_auto. Qed.
#[local] Hint Resolve MaybeStatelessReset_resets : keeps.

Lemma OnReceive_deliver_resets e x n r :
  keeps (count_eff (is_reset_to who)) (OnReceive_deliver e x n r).
Proof. unfold OnReceive_deliver. keeps_auto. Qed.
#[local] Hint Resolve OnReceive_deliver_resets : keeps.

Lemma SendVersionNegotiation_resets e v d c r :
  keeps (count_eff (is_reset_to who)) (SendVersionNegotiation e v d c r).
Proof.
  intros s a s' H.
  unfold SendVersionNegotiation, QuicPacket_Create, set_length in H.
  exec; try reflexivity.
  match goal with
  | Hsend : SendPacket _ _ _ _ _ = Done _ _ |- _ =>
      eapply (SendPacket_count (is_reset_to who)); [|exact Hsend]
  end.
  cbn. apply andb_false_r.
Qed.

Lemma SendRetry_resets e v d c r :
  keeps (count_eff (is_reset_to who)) (SendRetry e v d c r).
Proof.
  intros s a s' H.
  unfold SendRetry, QuicPacket_Create, set_length in H.
  exec; try reflexivity.
  match goal with
  | Hsend : SendPacket _ _ _ _ _ = Done _ _ |- _ =>
      eapply (SendPacket_count (is_reset_to who)); [|exact Hsend]
  end.
  cbn. apply andb_false_r.
Qed.
#[local] Hint Resolve SendVersionNegotiation_resets SendRetry_resets : keeps.

Lemma AcceptInitialPacket_resets e v d c n b r :
  keeps (count_eff (is_reset_to who)) (AcceptInitialPacket e v d c n b r).
Proof. unfold AcceptInitialPacket. keeps_auto. Qed.

End ResetFrames.

#[global] Hint Resolve SendVersionNegotiation_resets SendRetry_resets
  AcceptInitialPacket_resets
  QuicPacket_Create_resets set_length_resets
  set_validated_address_resets IncrementStatelessResetCounter_resets
  Session_Receive_resets Session_CreateServer_resets
  FindSession_resets OnSend_resets
  AcceptInitialPacket_create_resets MaybeStatelessReset_resets
  OnReceive_deliver_resets : keeps.

(** * Further properties of the socket *)

(** ** More on the reserved version *)

Module ReservedVersionRange.
Import ReservedVersion ReservedVersionFacts.

Lemma byte_at_low32 v i : 0 <= i < 4 -> byte_at (v mod 2 ^ 32) i = byte_at v i.
Proof.
  intros Hi. apply Z.bits_inj'. intros n Hn.
  rewrite !testbit_byte_at by lia.
  destruct (Z.ltb_spec n 8); [|reflexivity].
  rewrite Z.mod_pow2_bits_low by lia. reflexivity.
Qed.

(** X1. The reserved version is a [uint32_t] value. *)
Theorem GenerateReservedVersion_uint32 (bo : byte_order) (a : bytes) (v : Z) :
  0 <= GenerateReservedVersion bo a v < 2 ^ 32.
Proof.
  unfold GenerateReservedVersion. cbv zeta.
  set (h := walk _ _).
  assert (E : Z.lor (Z.land h 0xf0f0f0f0) 0x0a0a0a0a =
              Z.lor (Z.land h 0xf0f0f0f0) 0x0a0a0a0a mod 2 ^ 32).
  { rewrite <- Z.land_ones by lia.
    rewrite Z.land_lor_distr_l, <- Z.land_assoc.
    change (Z.land 0xf0f0f0f0 (Z.ones 32)) with 0xf0f0f0f0.
    change (Z.land 0x0a0a0a0a (Z.ones 32)) with 0x0a0a0a0a.
    reflexivity. }
  rewrite E. apply Z.mod_pos_bound. lia.
Qed.

(** X2. The reserved version does not depend on the byte order of the host, and
    it reads the version through its low 32 bits only. *)
Theorem GenerateReservedVersion_portable (a : bytes) (v : Z) :
  GenerateReservedVersion LittleEndian a v =
  GenerateReservedVersion BigEndian a v /\
  forall bo, GenerateReservedVersion bo a (v mod 2 ^ 32) =
             GenerateReservedVersion bo a v.
Proof.
  split.
  - unfold GenerateReservedVersion. now rewrite !object_bytes_htonl.
  - intros bo. unfold GenerateReservedVersion.
    rewrite !object_bytes_htonl. unfold network_bytes.
    now rewrite !byte_at_low32 by lia.
Qed.

(** X3. A version whose low nibbles are not all 0xA is never mistaken for the
    reserved one: the two entries of the version list differ. *)
Theorem GenerateReservedVersion_differs
    (bo : byte_order) (a : bytes) (v supported : Z) :
  Z.land supported 0x0F0F0F0F <> 0x0A0A0A0A ->
  GenerateReservedVersion bo a v <> supported.
Proof.
  intros Hs E. apply Hs. rewrite <- E.
  unfold GenerateReservedVersion. apply reserved_bits.
Qed.

End ReservedVersionRange.

Lemma GenerateReservedVersion_differs_witness :
  ReservedVersion.GenerateReservedVersion ReservedVersion.LittleEndian peer
    0x01020304 <> NGTCP2_PROTO_VER (Platform := quic_platform).
Proof.
  apply (ReservedVersionRange.GenerateReservedVersion_differs
           ReservedVersion.LittleEndian peer 0x01020304 1).
  vm_compute. discriminate.
Defined.

(** ** Session lookup *)

Section Lookup.
Context `{P : Platform}.

(** X4. [FindSession] answers with the session of the primary table, or else
    with the one its alias leads to, and never changes the socket; it stops
    the process exactly when an alias leads to no session. Where every
    alias resolves it always returns. *)
Theorem FindSession_lookup (cid : list Z) (s : QuicSocket) :
  (forall r s', FindSession cid s = Done r s' ->
                s' = s /\ r = session_of cid s) /\
  (FindSession cid s = Crash <->
   sessions_ s !! cid = None /\
   exists scid, dcid_to_scid_ s !! cid = Some scid /\
                sessions_ s !! scid = None) /\
  (aliases_resolve s -> FindSession cid s = Done (session_of cid s) s).
Proof.
  unfold FindSession, session_of, bind, get, ret, abort.
  destruct (sessions_ s !! cid) as [x|] eqn:Hp.
  - split; [|split].
    + intros r s' H. inversion H. auto.
    + split; [discriminate|]. intros [H _]. discriminate.
    + reflexivity.
  - destruct (dcid_to_scid_ s !! cid) as [scid|] eqn:Ha.
    + destruct (sessions_ s !! scid) as [x|] eqn:Hs.
      * split; [|split].
        -- intros r s' H. inversion H. auto.
        -- split; [discriminate|].
           intros (_ & c & Hc & Hn). congruence.
        -- reflexivity.
      * split; [|split].
        -- discriminate.
        -- split; [|reflexivity]. intros _. split; [reflexivity|].
           exists scid. auto.
        -- intros Hinv. destruct (Hinv cid scid Ha) as [x Hx]. congruence.
    + split; [|split].
      * intros r s' H. inversion H. auto.
      * split; [discriminate|]. intros (_ & c & Hc & _). discriminate.
      * reflexivity.
Qed.

End Lookup.

(** ** Datagrams that never reach a session *)

Section Unroutable.
Context `{P : Platform}.

(** X5. A datagram of [nread >= 0] bytes that the header parser rejects, or
    whose connection ids are longer than NGTCP2_MAX_CIDLEN, is ignored:
    bytes_received and packets_ignored are charged and nothing else
    happens, no lookup result is used, no session is called and nothing is
    sent. *)
Theorem OnReceive_malformed
    (e : Env) (nread : Z) (buf : bytes) (remote_addr : sockaddr)
    (s : QuicSocket) :
  rx_loss_draw e = false ->
  0 <= nread ->
  match decode_version_cid e with
  | None => True
  | Some vc => oversize vc = true
  end ->
  let current := get_stat bytes_received (socket_stats_ s) in
  let s1 :=
    with_stat bytes_received
      (current + Z.min nread (UINT64_MAX - current)) s in
  OnReceive e nread buf remote_addr s =
  Done Ignored
    (with_stat packets_ignored
       (bump (get_stat packets_ignored (socket_stats_ s1))) s1).
Proof.
  intros Hloss Hpos Hbad current s1.
  assert (H1 : IncrementSocketStat nread bytes_received s = Done tt s1).
  { unfold IncrementSocketStat, modify, to_uint64.
    destruct (Z.ltb_spec nread 0); [lia|reflexivity]. }
  unfold OnReceive. rewrite Hloss, (bind_run _ _ _ _ _ H1).
  destruct (decode_version_cid e) as [vc|].
  - unfold oversize in Hbad. cbv zeta. rewrite Hbad. reflexivity.
  - reflexivity.
Qed.

(** X6. A datagram of [nread >= 0] bytes whose DCID is known, directly or
    through an alias, goes to that session and to nothing else: the accept
    path is not entered, no stateless reset is considered, and the boolean
    of [Receive] decides between packets_received and packets_ignored. *)
Theorem OnReceive_known_session
    (e : Env) (nread : Z) (buf : bytes) (remote_addr : sockaddr)
    (s : QuicSocket) (vc : VersionCid) (session : Session) :
  rx_loss_draw e = false ->
  0 <= nread ->
  decode_version_cid e = Some vc ->
  oversize vc = false ->
  session_of (pdcid vc) s = Some session ->
  let current := get_stat bytes_received (socket_stats_ s) in
  let s1 :=
    with_stat bytes_received
      (current + Z.min nread (UINT64_MAX - current)) s in
  let s2 :=
    set_effects (effects s ++ [SessionReceive session nread remote_addr]) s1 in
  OnReceive e nread buf remote_addr s =
  if receive e session
  then Done Received
         (with_stat packets_received
            (bump (get_stat packets_received (socket_stats_ s))) s2)
  else Done Ignored
         (with_stat packets_ignored
            (bump (get_stat packets_ignored (socket_stats_ s))) s2).
Proof.
  intros Hloss Hpos Hdec Hsize Hfind current s1 s2.
  assert (H1 : IncrementSocketStat nread bytes_received s = Done tt s1).
  { unfold IncrementSocketStat, modify, to_uint64.
    destruct (Z.ltb_spec nread 0); [lia|reflexivity]. }
  assert (H2 : FindSession (pdcid vc) s1 = Done (Some session) s1).
  { unfold session_of in Hfind.
    unfold FindSession, bind, get.
    change (sessions_ s1) with (sessions_ s).
    change (dcid_to_scid_ s1) with (dcid_to_scid_ s).
    destruct (sessions_ s !! pdcid vc) as [x|].
    - inversion Hfind. reflexivity.
    - destruct (dcid_to_scid_ s !! pdcid vc) as [scid|]; [|discriminate].
      rewrite Hfind. reflexivity. }
  unfold OnReceive. rewrite Hloss, Hdec, (bind_run _ _ _ _ _ H1).
  cbv zeta. unfold oversize in Hsize. rewrite Hsize.
  rewrite (bind_run _ _ _ _ _ H2).
  unfold OnReceive_deliver, Session_Receive, bind, emit, modify, ret.
  destruct (receive e session); reflexivity.
Qed.

(** X7. With every datagram dropped by the rx-loss draw, a run of any length
    leaves the socket exactly as it was: no statistic moves and nothing is
    sent (scenario 6). *)
Theorem run_all_dropped (ds : list Datagram) (s : QuicSocket) :
  Forall (fun d => rx_loss_draw (dg_env d) = true) ds ->
  run ds s = Done (map (fun _ => SimulatedLoss) ds) s.
Proof.
  induction 1 as [|d ds Hd _ IH]; [reflexivity|].
  cbn [run map]. unfold bind at 1. unfold OnReceive. rewrite Hd.
  unfold ret at 1. unfold bind at 1. rewrite IH. reflexivity.
Qed.

End Unroutable.

(** ** Counting sent packets *)

Section Sent.
Context `{P : Platform}.

(** X8. A positive status of the endpoint is a datagram that went out at once:
    [SendPacket] returns 0, runs [OnSend] with status 0, which charges
    bytes_sent and packets_sent, and attaches the packet to no send
    request. *)
Theorem SendPacket_sent_at_once
    (e : Env) (remote_addr : sockaddr) (packet : QuicPacket)
    (session : option Session) (s : QuicSocket) :
  length_ packet <> 0 -> tx_loss_draw e = false ->
  preferred_endpoint_ s = true ->
  0 < endpoint_send e ->
  SendPacket e remote_addr packet session s =
  Done 0
    (charged_as_sent packet
       (set_last_created_send_wrap_
          (if send_wrap_created e
           then Some {| packet_ := None; session_ := None |} else None)
          (set_effects (effects s ++ [EndpointSend remote_addr packet]) s))).
Proof.
  intros Hlen Hloss Hpref Herr.
  assert (Hz : (endpoint_send e =? 0) = false) by (apply Z.eqb_neq; lia).
  assert (Hg : (endpoint_send e >? 0) = true)
    by (destruct (Z.gtb_spec (endpoint_send e) 0); [reflexivity|lia]).
  assert (Hl : (length_ packet =? 0) = false) by (apply Z.eqb_neq; lia).
  unfold SendPacket, Endpoint_Send, OnSend, bind, modify, get, CHECK, emit,
    modify, ret.
  rewrite Hl, Hloss. cbn. rewrite Hpref.
  destruct (send_wrap_created e); cbn; rewrite ?Hz, ?Hg; cbn;
    rewrite ?Hz, ?Hg; cbn; reflexivity.
Qed.

(** X9. A datagram that the endpoint queues is not counted by [SendPacket]; the
    completion of its send request counts it, once, when the status is 0
    and not at all otherwise. *)
Theorem SendPacket_then_OnSendDone
    (e : Env) (remote_addr : sockaddr) (packet : QuicPacket)
    (session : option Session) (s : QuicSocket) :
  length_ packet <> 0 -> tx_loss_draw e = false ->
  preferred_endpoint_ s = true ->
  endpoint_send e = 0 -> send_wrap_created e = true ->
  exists wrap s1,
    SendPacket e remote_addr packet session s = Done 0 s1 /\
    last_created_send_wrap_ s1 = Some wrap /\
    packet_ wrap = Some packet /\
    socket_stats_ s1 = socket_stats_ s /\
    forall status,
      OnSendDone wrap status s1 =
      Done tt (if status =? 0 then charged_as_sent packet s1 else s1).
Proof.
  intros Hlen Hloss Hpref Herr Hwrap.
  assert (Hl : (length_ packet =? 0) = false) by (apply Z.eqb_neq; lia).
  exists {| packet_ := Some packet; session_ := session |}.
  exists (set_last_created_send_wrap_
            (Some {| packet_ := Some packet; session_ := session |})
            (set_effects (effects s ++ [EndpointSend remote_addr packet]) s)).
  split; [|split; [|split; [|split]]]; try reflexivity.
  - unfold SendPacket, Endpoint_Send, bind, modify, get, CHECK, emit,
      modify, ret.
    rewrite Hl, Hloss. cbn. rewrite Hpref, Hwrap. cbn. rewrite Herr. cbn.
    destruct session; reflexivity.
  - intros status. unfold OnSendDone, OnSend. cbn [packet_].
    destruct (status =? 0); reflexivity.
Qed.

End Sent.

(** ** What the stateless responders put on the wire *)

Section Responders.
Context `{P : Platform}.

(** X10. [SendVersionNegotiation] hands the endpoint at most one datagram: it is
    labelled "version negotiation", goes to the remote address, lists the
    reserved version of (remote, version) followed by NGTCP2_PROTO_VER, has
    the positive length that the encoder reported and fits the buffer of
    [dcid.length() + scid.length() + 15] bytes. The accounting counters and
    the reset counters are not touched. *)
Theorem SendVersionNegotiation_packet
    (e : Env) (version : Z) (dcid scid : QuicCID) (remote_addr : sockaddr)
    (s s' : QuicSocket) :
  SendVersionNegotiation e version dcid scid remote_addr s = Done tt s' ->
  let nwrite :=
    ngtcp2_pkt_write_version_negotiation
      NGTCP2_MAX_PKTLEN_IPV6 (len dcid) (len scid) 2 in
  accounting s' = accounting s /\
  reset_table s' = reset_table s /\
  (effects s' = effects s \/
   exists packet unused_random d c,
     effects s' = effects s ++ [EndpointSend remote_addr packet] /\
     diagnostic_label_ packet = "version negotiation"%string /\
     data_ packet =
       VersionNegotiationBody unused_random d c
         [ReservedVersion.GenerateReservedVersion host_byte_order
            remote_addr version;
          NGTCP2_PROTO_VER] /\
     length_ packet = nwrite /\
     0 < nwrite <= len dcid + len scid + 15).
Proof.
  intros H nwrite.
  split; [eapply SendVersionNegotiation_accounting; exact H|].
  split; [eapply SendVersionNegotiation_reset_table; exact H|].
  unfold SendVersionNegotiation, QuicPacket_Create, set_length in H.
  change (len [ReservedVersion.GenerateReservedVersion host_byte_order
                 remote_addr version; NGTCP2_PROTO_VER]) with 2 in H.
  fold nwrite in H. exec; cbn in *; auto.
  match goal with
  | Hsend : SendPacket _ _ _ _ _ = Done _ _ |- _ =>
      apply SendPacket_effects in Hsend as [E|E]; cbn in E
  end; [left; exact E|].
  right. do 4 eexists. split; [exact E|]. cbn.
  repeat match goal with
  | H : (_ <=? _) = false |- _ => apply Z.leb_gt in H
  | H : (_ <=? _) = true |- _ => apply Z.leb_le in H
  end.
  repeat split; auto; lia.
Qed.

(** X11. [SendRetry] sends nothing and returns false when no retry token can be
    generated. The one datagram it can send is labelled "retry": its header
    carries the received SCID as destination connection id and kScidLen
    bytes of the entropy source as source connection id, and the received
    DCID travels as the original connection id with the token. It returns
    true only with a positive encoder result. *)
Theorem SendRetry_packet
    (e : Env) (version : Z) (dcid scid : QuicCID) (remote_addr : sockaddr)
    (s : QuicSocket) :
  (generate_retry_token e = None ->
   SendRetry e version dcid scid remote_addr s = Done false s) /\
  forall b s',
    SendRetry e version dcid scid remote_addr s = Done b s' ->
    accounting s' = accounting s /\
    reset_table s' = reset_table s /\
    (effects s' = effects s \/
     exists packet token,
       generate_retry_token e = Some token /\
       effects s' = effects s ++ [EndpointSend remote_addr packet] /\
       diagnostic_label_ packet = "retry"%string /\
       data_ packet =
         RetryBody version scid (EntropySource e kScidLen) dcid token /\
       length_ packet =
         ngtcp2_pkt_write_retry NGTCP2_MAX_PKTLEN_IPV4 (len scid) kScidLen
           (len dcid) (len token) /\
       0 < length_ packet <= data_size packet) /\
    (b = true ->
     exists token,
       generate_retry_token e = Some token /\
       0 < ngtcp2_pkt_write_retry NGTCP2_MAX_PKTLEN_IPV4 (len scid) kScidLen
             (len dcid) (len token)).
Proof.
  split.
  - intros Hnone. unfold SendRetry. rewrite Hnone. reflexivity.
  - intros b s' H.
    split; [eapply SendRetry_accounting; exact H|].
    split; [eapply SendRetry_reset_table; exact H|].
    unfold SendRetry, QuicPacket_Create, set_length in H.
    destruct (generate_retry_token e) as [token|] eqn:Htok.
    + exec; cbn in *;
        repeat match goal with
        | H : (_ <=? _) = false |- _ => apply Z.leb_gt in H
        | H : (_ <=? _) = true |- _ => apply Z.leb_le in H
        end.
      * split; [left; reflexivity|]. intros Hb. discriminate Hb.
      * split.
        -- match goal with
           | Hsend : SendPacket _ _ _ _ _ = Done _ _ |- _ =>
               apply SendPacket_effects in Hsend as [E|E]; cbn in E
           end; [left; exact E|].
           right. do 2 eexists. split; [reflexivity|].
           split; [exact E|]. cbn. repeat split; auto; lia.
        -- intros _. exists token. split; [reflexivity|lia].
    + exec. split; [left; reflexivity|]. intros Hb. discriminate Hb.
Qed.

End Responders.

(** ** What a session returned by the accept path means *)

Section Accepted.
Context `{P : Platform}.

(** X12. [AcceptInitialPacket] returns a session only on a listening socket, for
    a packet that [QuicSession::Accept] found acceptable, when the session
    factory made that very session; the listener has then been told that
    this session is ready, as the last thing the function did. Without
    [Listen] it returns nothing and does nothing. *)
Theorem AcceptInitialPacket_session
    (e : Env) (version : Z) (dcid scid : QuicCID) (nread : Z) (data : bytes)
    (remote_addr : sockaddr) (s : QuicSocket) :
  (QUICSOCKET_FLAGS_SERVER_LISTENING s = false ->
   AcceptInitialPacket e version dcid scid nread data remote_addr s =
   Done None s) /\
  forall session s',
    AcceptInitialPacket e version dcid scid nread data remote_addr s =
      Done (Some session) s' ->
    QUICSOCKET_FLAGS_SERVER_LISTENING s = true /\
    accept e = PACKET_OK /\
    (exists token, create_server e = Some (session, token)) /\
    (exists before,
       effects s' = before ++ [ListenerOnSessionReady (Some session)]).
Proof.
  split.
  - intros Hl. unfold AcceptInitialPacket, bind, get. rewrite Hl. reflexivity.
  - intros session s' H.
    unfold AcceptInitialPacket, AcceptInitialPacket_create,
      Session_CreateServer in H.
    exec; try discriminate;
      repeat match goal with
      | H : Some _ = Some _ |- _ => injection H as H; subst
      | H : negb _ = false |- _ => apply negb_false_iff in H
      end;
      (split; [assumption|]; split; [reflexivity|];
       split; [eexists; reflexivity|]; eexists; cbn; reflexivity).
Qed.

End Accepted.

(** ** Bytes received *)

Section BytesReceived.
Context `{P : Platform}.

Lemma OnReceive_steady e nread buf remote s x s' :
  OnReceive e nread buf remote s = Done x s' ->
  settings s' = settings s /\
  get_stat bytes_received (socket_stats_ s') =
  if rx_loss_draw e then get_stat bytes_received (socket_stats_ s)
  else sat_add (get_stat bytes_received (socket_stats_ s)) nread.
Proof.
  unfold OnReceive. intros H.
  destruct (rx_loss_draw e); [exec; auto|].
  apply bind_Done in H as (a & s0 & H0 & H).
  match type of H with
  | ?m s0 = _ =>
      assert (Km : keeps steady m) by (cbv zeta; keeps_auto)
  end.
  apply Km in H. unfold IncrementSocketStat in H0. exec.
  split.
  - unfold settings. rewrite H. reflexivity.
  - apply (f_equal snd) in H. exact H.
Qed.

Lemma bytes_let_through_cons d ds :
  bytes_let_through (d :: ds) =
  (if not_dropped d then dg_nread d else 0) + bytes_let_through ds.
Proof. reflexivity. Qed.

Lemma bytes_let_through_nonneg ds :
  Forall (fun d => 0 <= dg_nread d) ds -> 0 <= bytes_let_through ds.
Proof.
  induction 1 as [|d ds Hd _ IH]; [cbn; lia|].
  rewrite bytes_let_through_cons. destruct (not_dropped d); lia.
Qed.

(** X13. The first thing [OnReceive] does with a datagram that is not dropped is
    to add its length to bytes_received, and nothing else on the receive
    path moves that counter: over a run it grows by the bytes of the
    datagrams let through, as long as it does not saturate. *)
Theorem run_bytes_received (ds : list Datagram) :
  forall (s : QuicSocket) (xs : list Exit) (s' : QuicSocket),
  run ds s = Done xs s' ->
  Forall (fun d => 0 <= dg_nread d) ds ->
  get_stat bytes_received (socket_stats_ s) + bytes_let_through ds <=
    UINT64_MAX ->
  get_stat bytes_received (socket_stats_ s') =
  get_stat bytes_received (socket_stats_ s) + bytes_let_through ds.
Proof.
  induction ds as [|d ds IH]; intros s xs s' H Hpos Hroom; cbn [run] in H;
    exec.
  - cbn. lia.
  - inversion Hpos as [|? ? Hd Hds]; subst.
    pose proof (bytes_let_through_nonneg ds Hds) as Hrest.
    rewrite bytes_let_through_cons in *.
    apply OnReceive_steady in Hrun as [_ Hrx].
    unfold not_dropped in *.
    destruct (rx_loss_draw (dg_env d)); cbn [negb] in *.
    + rewrite (IH _ _ _ Hrun0 Hds); rewrite Hrx; lia.
    + assert (E : sat_add (get_stat bytes_received (socket_stats_ s))
                    (dg_nread d) =
                  get_stat bytes_received (socket_stats_ s) + dg_nread d)
        by (unfold sat_add, to_uint64;
            destruct (Z.ltb_spec (dg_nread d) 0); lia).
      rewrite E in Hrx.
      rewrite (IH _ _ _ Hrun0 Hds); rewrite Hrx; lia.
Qed.

End BytesReceived.

(** ** A socket that does not listen *)

Section NotListening.
Context `{P : Platform}.

Lemma AcceptInitialPacket_not_listening e v d c n b r s :
  QUICSOCKET_FLAGS_SERVER_LISTENING s = false ->
  AcceptInitialPacket e v d c n b r s = Done None s.
Proof.
  intros Hl. unfold AcceptInitialPacket, bind, get. rewrite Hl. reflexivity.
Qed.

Lemma OnReceive_accept_not_listening e vc nread buf remote s x s' :
  QUICSOCKET_FLAGS_SERVER_LISTENING s = false ->
  OnReceive_accept e vc nread buf remote s = Done x s' ->
  standing s' = standing s.
Proof.
  intros Hl H. unfold OnReceive_accept in H. cbv zeta in H.
  rewrite (bind_run _ _ _ _ _
             (AcceptInitialPacket_not_listening _ _ _ _ _ _ _ _ Hl)) in H.
  match type of H with
  | ?m s = _ => assert (Km : keeps standing m) by keeps_auto
  end.
  apply Km in H. exact H.
Qed.

Lemma OnReceive_not_listening e nread buf remote s x s' :
  QUICSOCKET_FLAGS_SERVER_LISTENING s = false ->
  OnReceive e nread buf remote s = Done x s' ->
  standing s' = standing s.
Proof.
  intros Hl H. unfold OnReceive in H. exec;
    repeat match goal with
    | Hc : ?m ?t0 = Done _ ?t1 |- _ =>
        lazymatch m with
        | OnReceive_accept _ _ _ _ _ => fail
        | _ => kept standing Hc; kept settings Hc; clear Hc
        end
    end;
    repeat match goal with
    | K : settings _ = settings _ |- _ =>
        apply settings_flags in K as (K & _ & _)
    end;
    try match goal with
    | Hc : OnReceive_accept _ _ _ _ _ ?t0 = Done _ _ |- _ =>
        apply OnReceive_accept_not_listening in Hc; [|congruence]
    end;
    congruence.
Qed.

(** X14. Before [Listen], no run of datagrams creates a session: the session
    factory is never called and the listener never told of a session, the
    tables of sessions, aliases, tokens, peers and validated addresses stay
    as they were, and the socket is still not listening. *)
Theorem run_not_listening (ds : list Datagram) :
  forall (s : QuicSocket) (xs : list Exit) (s' : QuicSocket),
  QUICSOCKET_FLAGS_SERVER_LISTENING s = false ->
  run ds s = Done xs s' ->
  QUICSOCKET_FLAGS_SERVER_LISTENING s' = false /\
  count_eff is_creation s' = count_eff is_creation s /\
  sessions_ s' = sessions_ s /\ dcid_to_scid_ s' = dcid_to_scid_ s /\
  token_map_ s' = token_map_ s /\ addr_counts_ s' = addr_counts_ s /\
  validated_addrs_ s' = validated_addrs_ s.
Proof.
  induction ds as [|d ds IH]; intros s xs s' Hl H; cbn [run] in H; exec.
  - auto 10.
  - pose proof (OnReceive_not_listening _ _ _ _ _ _ _ Hl Hrun) as Hst.
    apply OnReceive_steady in Hrun as [Hset _].
    apply settings_flags in Hset as (Hl0 & _ & _).
    rewrite Hl in Hl0.
    destruct (IH _ _ _ Hl0 Hrun0) as (Hl' & H1 & H2 & H3 & H4 & H5 & H6).
    unfold standing in Hst. inversion Hst.
    split; [exact Hl'|]. repeat split; congruence.
Qed.

End NotListening.

(** ** A socket with stateless reset disabled *)

Section Disabled.
Context `{P : Platform}.

Lemma MaybeStatelessReset_disabled e d c n b r s :
  QUICSOCKET_FLAGS_DISABLE_STATELESS_RESET s = true ->
  MaybeStatelessReset e d c n b r s = Done false s.
Proof.
  intros Hd. unfold MaybeStatelessReset, bind, get,
    is_stateless_reset_disabled. rewrite Hd. reflexivity.
Qed.

Lemma SendStatelessReset_disabled e c r n s :
  QUICSOCKET_FLAGS_DISABLE_STATELESS_RESET s = true ->
  SendStatelessReset e c r n s = Done false s.
Proof.
  intros Hd. unfold SendStatelessReset, bind, get,
    is_stateless_reset_disabled. rewrite Hd. reflexivity.
Qed.

Lemma quiet_trans p s0 s1 s2 : quiet p s0 s1 -> quiet p s1 s2 -> quiet p s0 s2.
Proof. unfold quiet. intros (? & ? & ?) (? & ? & ?). repeat split; congruence. Qed.

Lemma quiet_kept {A} p (m : M A) s0 a s1 :
  keeps settings m -> keeps reset_table m ->
  keeps (count_eff (is_reset_to p)) m ->
  QUICSOCKET_FLAGS_DISABLE_STATELESS_RESET s0 = true ->
  m s0 = Done a s1 -> quiet p s0 s1.
Proof.
  intros K1 K2 K3 Hd H. unfold quiet.
  apply K1 in H as H1. apply K2 in H as H2. apply K3 in H as H3.
  apply settings_flags in H1 as (_ & H1 & _).
  repeat split; congruence.
Qed.

(** Walk the finished calls of a disabled socket from its first state. *)
Ltac quiet_walk p :=
  repeat match goal with
  | Hq : quiet p ?s ?t0, Hc : SendStatelessReset _ _ _ _ ?t0 = Done _ _ |- _ =>
      rewrite (SendStatelessReset_disabled _ _ _ _ _ (proj1 Hq)) in Hc;
      inversion Hc; subst; clear Hc
  | Hq : quiet p ?s ?t0, Hc : MaybeStatelessReset _ _ _ _ _ _ ?t0 = Done _ _
    |- _ =>
      rewrite (MaybeStatelessReset_disabled _ _ _ _ _ _ _ (proj1 Hq)) in Hc;
      inversion Hc; subst; clear Hc
  | Hq : quiet p ?s ?t0, Hc : ?m ?t0 = Done _ ?t1 |- _ =>
      let Hn := fresh "Hq" in
      assert (Hn : quiet p s t1)
        by (apply (quiet_trans p s t0 t1 Hq);
            eapply (quiet_kept p m t0 _ t1);
            [ solve [eauto with keeps] | solve [eauto with keeps]
            | solve [eauto with keeps] | exact (proj1 Hq) | exact Hc ]);
      clear Hc Hq
  end.

Lemma OnReceive_accept_disabled p e vc nread buf remote s0 s x s' :
  quiet p s0 s ->
  OnReceive_accept e vc nread buf remote s = Done x s' ->
  quiet p s0 s' /\ x <> HandledStatelessReset /\ x <> SentStatelessReset.
Proof.
  intros Hq H. unfold OnReceive_accept, OnReceive_deliver in H.
  exec; quiet_walk p; try discriminate;
    (split; [assumption|split; discriminate]).
Qed.

(** X15. With stateless reset disabled the socket neither recognises nor emits
    one: [OnReceive] never ends as a handled or a sent stateless reset, hands
    the endpoint no datagram labelled "stateless reset" for any peer, and
    leaves the reset counters, stateless_reset_count and the flag as they
    were. *)
Theorem OnReceive_reset_disabled
    (p : list Z) (e : Env) (nread : Z) (buf : bytes) (remote_addr : sockaddr)
    (s : QuicSocket) (x : Exit) (s' : QuicSocket) :
  QUICSOCKET_FLAGS_DISABLE_STATELESS_RESET s = true ->
  OnReceive e nread buf remote_addr s = Done x s' ->
  x <> HandledStatelessReset /\ x <> SentStatelessReset /\
  QUICSOCKET_FLAGS_DISABLE_STATELESS_RESET s' = true /\
  reset_counts_ s' = reset_counts_ s /\
  count_eff (is_reset_to p) s' = count_eff (is_reset_to p) s /\
  get_stat stateless_reset_count (socket_stats_ s') =
  get_stat stateless_reset_count (socket_stats_ s).
Proof.
  intros Hd H.
  assert (Hq : quiet p s s) by (unfold quiet; auto).
  assert (Hx : x <> HandledStatelessReset /\ x <> SentStatelessReset /\
               quiet p s s').
  { unfold OnReceive, OnReceive_deliver in H.
    exec; quiet_walk p; try discriminate;
      try match goal with
      | Hc : OnReceive_accept _ _ _ _ _ _ = Done _ _ |- _ =>
          eapply OnReceive_accept_disabled in Hc as (? & ? & ?);
          [|eassumption]
      end;
      (split; [assumption || discriminate
              |split; [assumption || discriminate|assumption]]). }
  destruct Hx as (Hx1 & Hx2 & Hd' & Ht & Hc).
  split; [exact Hx1|]. split; [exact Hx2|]. split; [exact Hd'|].
  split; [unfold reset_table in Ht; congruence|]. split; [exact Hc|].
  apply OnReceive_charge in H as [H _]. unfold accounting in H.
  destruct x; cbn [charge fst snd] in H; try congruence;
    injection H as _ _ Hsrc; exact Hsrc.
Qed.

End Disabled.

(** ** Stateless resets on the wire *)

Section Budget.
Context `{P : Platform}.

Lemma budget_kept {A} (m : M A) s a s' :
  keeps reset_table m ->
  (forall p, keeps (count_eff (is_reset_to p)) m) ->
  m s = Done a s' -> reset_budget s -> reset_budget s'.
Proof.
  intros K1 K2 H Hs p. specialize (Hs p).
  apply K1 in H as H1. apply (K2 p) in H as H2.
  unfold reset_table in H1. injection H1 as Hc Hm.
  unfold GetCurrentStatelessResetCounter in *. rewrite Hc, Hm, H2. exact Hs.
Qed.

Lemma SendStatelessReset_budget e cid remote source_len s b s' :
  SendStatelessReset e cid remote source_len s = Done b s' ->
  reset_budget s -> reset_budget s'.
Proof.
  intros H Hs.
  unfold SendStatelessReset, QuicPacket_Create, set_length,
    IncrementStatelessResetCounter in H.
  exec; try assumption.
  match goal with
  | Hsend : SendPacket _ _ _ _ _ = Done _ _ |- _ =>
      pose proof (SendPacket_effects _ _ _ _ _ _ _ Hsend) as E;
      pose proof (SendPacket_reset_table _ _ _ _ _ _ _ Hsend) as T
  end.
  unfold reset_table in T. cbn in T, E. injection T as Tc Tm.
  match goal with
  | Hlt : (_ >=? _) = false |- _ =>
      rewrite Z.geb_leb in Hlt; apply Z.leb_gt in Hlt
  end.
  intros p. destruct (Hs p) as [H1 H2].
  unfold GetCurrentStatelessResetCounter in *. rewrite Tc, Tm.
  unfold count_eff.
  destruct (decide (remote = p)) as [->|Hne].
  - set (cur := default 0 (reset_counts_ s !! p)) in *.
    rewrite lookup_insert_eq. change (default 0 (Some (cur + 1))) with (cur + 1).
    destruct E as [E|E]; rewrite E; [|rewrite filter_snoc];
      unfold count_eff in H1; [lia|].
    destruct (is_reset_to _ _); lia.
  - rewrite lookup_insert_ne by assumption.
    destruct E as [E|E]; rewrite E; [|rewrite filter_snoc];
      unfold count_eff in H1; [lia|].
    cbn [is_reset_to]. rewrite bool_decide_eq_false_2 by assumption.
    cbn [andb]. lia.
Qed.

Ltac budget_step :=
  match goal with
  | Hs : reset_budget ?s0, H : ?m ?s0 = Done _ ?s1 |- _ =>
      let K := fresh "Hs" in
      assert (K : reset_budget s1)
        by first
             [ eapply SendStatelessReset_budget; [exact H|exact Hs]
             | eapply (budget_kept m);
               [ solve [eauto with keeps]
               | intros ?; solve [eauto with keeps]
               | exact H | exact Hs ] ];
      clear H Hs
  end.

Lemma OnReceive_budget e nread buf remote s x s' :
  OnReceive e nread buf remote s = Done x s' ->
  reset_budget s -> reset_budget s'.
Proof.
  unfold OnReceive, OnReceive_accept. intros H Hs.
  exec; repeat budget_step; assumption.
Qed.

Lemma Listen_budget s a s' :
  Listen s = Done a s' -> reset_budget s -> reset_budget s'.
Proof.
  unfold Listen. intros H Hs.
  destruct (QUICSOCKET_FLAGS_SERVER_LISTENING s); [discriminate|].
  injection H as H. subst s'. intros p. exact (Hs p).
Qed.

Lemma steps_budget ops : forall s a s',
  steps ops s = Done a s' -> reset_budget s -> reset_budget s'.
Proof.
  induction ops as [|op ops IH]; intros s a s' H Hs; cbn [steps] in H; exec.
  - assumption.
  - eapply IH; [eassumption|].
    destruct op; cbn [step] in *; exec;
      eauto using Listen_budget, OnReceive_budget, SendStatelessReset_budget.
Qed.

(** X16. However the host and the network interleave [Listen], [OnReceive] and
    [SendStatelessReset] on a new socket, the endpoint is handed at most
    max_stateless_resets_per_host_ datagrams labelled "stateless reset" for
    any one peer: each of them was counted against the peer before it was
    sent. *)
Theorem stateless_resets_within_cap
    (ops : list Op) (mc mr : Z) (va lru dis : bool) (s' : QuicSocket)
    (p : list Z) :
  0 <= mr ->
  steps ops (new_socket mc mr va lru dis) = Done tt s' ->
  count_eff (is_reset_to p) s' <= GetCurrentStatelessResetCounter p s' /\
  GetCurrentStatelessResetCounter p s' <= max_stateless_resets_per_host_ s'.
Proof.
  intros Hmr H.
  eapply steps_budget; [exact H|].
  intros q. unfold count_eff, GetCurrentStatelessResetCounter, len_of.
  change (reset_counts_ (new_socket mc mr va lru dis)) with (∅ : gmap (list Z) Z).
  rewrite lookup_empty.
  change (max_stateless_resets_per_host_ (new_socket mc mr va lru dis)) with mr.
  change (effects (new_socket mc mr va lru dis)) with (@nil Effect).
  change (default 0 (@None Z)) with 0. cbn [List.filter length Z.of_nat].
  lia.
Qed.

End Budget.

(** ** Address validation *)

Section Validation.
Context `{P : Platform}.

Lemma SendRetry_standing e v d c r : keeps standing (SendRetry e v d c r).
Proof. unfold SendRetry. keeps_auto. Qed.

(** X17. On a listening socket that is neither busy nor at the connection
    limit of the peer, with address validation on, an acceptable initial
    packet from an address that is not known as validated creates a session
    only with a valid retry token. Without one [AcceptInitialPacket] returns
    nothing, the session factory and the listener are not called and no
    table changes (all it may do is send a retry). With one, and a factory
    that makes the session, the factory is called with the original
    connection id of the token and no early close, the listener is told of
    that session, the session is returned, and with the LRU option the
    address is known as validated from then on. *)
Theorem AcceptInitialPacket_validation
    (e : Env) (version : Z) (dcid scid : QuicCID) (nread : Z) (data : bytes)
    (remote_addr : sockaddr) (s : QuicSocket) :
  QUICSOCKET_FLAGS_SERVER_LISTENING s = true ->
  accept e = PACKET_OK ->
  QUICSOCKET_FLAGS_SERVER_BUSY s = false ->
  GetCurrentSocketAddressCounter remote_addr s < max_connections_per_host_ s ->
  QUICSOCKET_OPTIONS_VALIDATE_ADDRESS s = true ->
  hd_type_initial e = true ->
  is_validated_address remote_addr s = false ->
  match retry_token_ocid e with
  | None =>
      forall r s',
        AcceptInitialPacket e version dcid scid nread data remote_addr s =
          Done r s' ->
        r = None /\ standing s' = standing s
  | Some ocid =>
      forall session token,
        create_server e = Some (session, token) ->
        exists s',
          AcceptInitialPacket e version dcid scid nread data remote_addr s =
            Done (Some session) s' /\
          effects s' =
            effects s ++
            [SessionCreateServer dcid remote_addr scid (Some ocid) version
               NGTCP2_NO_ERROR;
             ListenerOnSessionReady (Some session)] /\
          (QUICSOCKET_OPTIONS_VALIDATE_ADDRESS_LRU s = true ->
           is_validated_address remote_addr s' = true)
  end.
Proof.
  intros Hl Ha Hb Hc Hv Hi Hn.
  assert ((GetCurrentSocketAddressCounter remote_addr s >=?
             max_connections_per_host_ s) = false) as Hc'.
  { rewrite Z.geb_leb. apply Z.leb_gt. exact Hc. }
  destruct (retry_token_ocid e) as [ocid|] eqn:Ht.
  - intros session token Hmade.
    unfold AcceptInitialPacket, bind at 1, get.
    rewrite Hl, Ha. cbn [negb]. rewrite Hb, Hc'.
    cbn [ConnectionClose_eqb andb]. rewrite Hv, Hi, Hn, Ht. cbn [andb negb].
    unfold set_validated_address, AcceptInitialPacket_create,
      Session_CreateServer, bind, modify, emit, ret.
    rewrite Hmade.
    eexists; split; [reflexivity|]. cbn.
    split; [destruct (QUICSOCKET_OPTIONS_VALIDATE_ADDRESS_LRU s); cbn;
            rewrite <- app_assoc; reflexivity|].
    intros Hlru. rewrite Hlru. cbn.
    unfold is_validated_address. cbn. rewrite Hlru. cbn.
    apply bool_decide_eq_true. unfold VALIDATED_ADDR_LRU. cbn [take].
    left.
  - intros r s' H.
    unfold AcceptInitialPacket, bind at 1, get in H.
    rewrite Hl, Ha in H. cbn [negb] in H. rewrite Hb, Hc' in H.
    cbn [ConnectionClose_eqb andb] in H. rewrite Hv, Hi, Hn, Ht in H.
    cbn [andb negb] in H.
    unfold bind in H.
    destruct (SendRetry e version dcid scid remote_addr s)
      as [b s1|] eqn:Hr; [|discriminate].
    unfold ret in H.
    injection H as H1 H2. subst r s'. split; [reflexivity|].
    exact (SendRetry_standing _ _ _ _ _ _ _ _ Hr).
Qed.

End Validation.

(** * The listener chain *)

Module ListenerChainFacts.
Import ListenerChain.
#[local] Open Scope nat_scope.

Lemma chain_functional objs st l1 l2 :
  chain objs st l1 -> chain objs st l2 -> l1 = l2.
Proof.
  intros H; revert l2.
  induction H as [|a o l Ha Hc IH]; intros l2 H2; inversion H2; subst; auto.
  f_equal. apply IH.
  match goal with H : objs !! a = Some ?o' |- _ =>
    rewrite Ha in H; injection H as H; subst o' end.
  assumption.
Qed.

Lemma chain_suffix objs st l1 a l2 :
  chain objs st (l1 ++ a :: l2) -> chain objs (Some a) (a :: l2).
Proof.
  revert st; induction l1 as [|b l1 IH]; intros st H; cbn in H.
  - inversion H; subst. econstructor; eauto.
  - inversion H; subst. eapply IH; eauto.
Qed.

Lemma chain_NoDup objs st l : chain objs st l -> NoDup l.
Proof.
  induction 1 as [|a o l Ha Hc IH]; constructor; auto.
  intros Hin. apply list_elem_of_split in Hin as (l1 & l2 & ->).
  pose proof (chain_suffix _ _ _ _ _ Hc) as Hs.
  pose proof (chain_cons _ _ _ _ Ha Hc) as Hw.
  pose proof (chain_functional _ _ _ _ Hs Hw) as He.
  apply (f_equal length) in He. cbn in He. rewrite length_app in He.
  cbn in He. lia.
Qed.

Lemma chain_insert_fresh objs st l x o :
  chain objs st l -> x ∉ l -> chain (<[x := o]> objs) st l.
Proof.
  induction 1 as [|a o' l Ha Hc IH]; intros Hx; [constructor|].
  apply not_elem_of_cons in Hx as [Hxa Hxl].
  econstructor; [rewrite lookup_insert_ne by congruence; exact Ha|auto].
Qed.

Lemma before_cons previous a l1 :
  before previous (a :: l1) = before (Some a) l1.
Proof.
  unfold before. destruct l1 as [|b l1]; [reflexivity|].
  rewrite last_cons. destruct (last (b :: l1)) eqn:E; [reflexivity|].
  apply last_None in E. discriminate.
Qed.

Lemma search_found objs x l1 l2 st previous fuel :
  chain objs st (l1 ++ x :: l2) -> x ∉ l1 -> length l1 < fuel ->
  search fuel objs x st previous = Found (before previous l1).
Proof.
  revert st previous fuel.
  induction l1 as [|a l1 IH]; intros st previous fuel Hc Hx Hf;
    (destruct fuel as [|fuel]; [cbn in Hf; lia|]);
    cbn in Hc; inversion Hc; subst; cbn [search].
  - rewrite decide_True by reflexivity. reflexivity.
  - apply not_elem_of_cons in Hx as [Hxa Hxl].
    rewrite decide_False by congruence.
    match goal with H : objs !! a = Some _ |- _ => rewrite H end.
    rewrite before_cons. apply IH; [assumption|assumption|cbn in Hf; lia].
Qed.

Lemma search_absent objs x l st previous fuel :
  chain objs st l -> x ∉ l -> length l < fuel ->
  search fuel objs x st previous = NotFound.
Proof.
  intros Hc; revert previous fuel.
  induction Hc as [|a o l Ha Hc IH]; intros previous fuel Hx Hf;
    (destruct fuel as [|fuel]; [cbn in Hf; lia|]); cbn [search];
    [reflexivity|].
  apply not_elem_of_cons in Hx as [Hxa Hxl].
  rewrite decide_False by congruence. rewrite Ha.
  apply IH; [assumption|cbn in Hf; lia].
Qed.

Lemma chain_unlink objs st l1 pv x l2 po o :
  chain objs st (l1 ++ pv :: x :: l2) ->
  objs !! pv = Some po -> objs !! x = Some o ->
  chain (<[pv := {| class_ := class_ po; socket_ := socket_ po;
                    previous_listener_ := previous_listener_ o |}]> objs)
        st (l1 ++ pv :: l2).
Proof.
  intros Hc Hpv Hxo. pose proof (chain_NoDup _ _ _ Hc) as Hnd.
  revert st Hc Hnd. induction l1 as [|a l1 IH]; intros st Hc Hnd; cbn in *.
  - inversion Hc as [|? po' ? Hpo Hrest]; subst.
    rewrite Hpv in Hpo; injection Hpo as Hpo; subst po'.
    inversion Hrest as [|? o' ? Ho Htail]; subst.
    rewrite Hxo in Ho; injection Ho as Ho; subst o'.
    apply NoDup_cons in Hnd as [Hpvn _].
    econstructor; [apply lookup_insert_eq|]. cbn.
    apply chain_insert_fresh; [assumption|].
    intros Hin. apply Hpvn. right. assumption.
  - inversion Hc as [|? oa ? Hoa Hrest]; subst.
    apply NoDup_cons in Hnd as [Han Hnd].
    assert (a <> pv) as Hne.
    { intros ->. apply Han. apply elem_of_app. right. left. }
    econstructor; [rewrite lookup_insert_ne by congruence; exact Hoa|].
    apply IH; assumption.
Qed.

Lemma filter_keeps_others (x : nat) (l : list nat) :
  x ∉ l -> filter (fun y => y <> x) l = l.
Proof.
  induction l as [|a l IH]; intros Hx; [reflexivity|].
  apply not_elem_of_cons in Hx as [Hxa Hxl].
  rewrite filter_cons_True by congruence. f_equal. auto.
Qed.

Lemma filter_out_middle (x : nat) (l1 l2 : list nat) :
  x ∉ l1 -> x ∉ l2 ->
  filter (fun y => y <> x) (l1 ++ x :: l2) = l1 ++ l2.
Proof.
  intros H1 H2. rewrite filter_app.
  rewrite filter_cons_False by (intros H; apply H; reflexivity).
  rewrite !filter_keeps_others by assumption. reflexivity.
Qed.

(** X18. PushListener (lines 899-907) puts a listener that belongs to no socket
    at the head of the chain: the chain that was there follows it unchanged,
    and every listener of the new chain points to the socket. *)
Theorem PushListener_chain c l x o :
  chain (objects c) (listener_ c) l ->
  attached (objects c) l ->
  objects c !! x = Some o ->
  socket_ o = false ->
  exists c',
    PushListener (Some x) c = Some c' /\
    listener_ c' = Some x /\
    chain (objects c') (listener_ c') (x :: l) /\
    attached (objects c') (x :: l).
Proof.
  intros Hc Hat Hx Ho.
  assert (x ∉ l) as Hfresh.
  { intros Hin. destruct (Hat _ Hin) as (o' & Ho' & Hs). congruence. }
  unfold PushListener. rewrite Hx, Ho.
  eexists; split; [reflexivity|]. cbn. split; [reflexivity|]. split.
  - econstructor; [apply lookup_insert_eq|]. cbn.
    apply chain_insert_fresh; assumption.
  - intros a Ha. apply elem_of_cons in Ha as [->|Ha].
    + eexists; split; [apply lookup_insert_eq|reflexivity].
    + destruct (Hat _ Ha) as (o' & Ho' & Hs).
      exists o'. split; [|assumption].
      rewrite lookup_insert_ne; [assumption|].
      intros ->. contradiction.
Qed.

(** The loop of [RemoveListener] finds a listener of the chain and unlinks
    it: the chain loses that listener and nothing else about any listener
    changes but one previous pointer. *)
Lemma RemoveListener_runs c l1 x l2 fuel :
  chain (objects c) (listener_ c) (l1 ++ x :: l2) ->
  length l1 < fuel ->
  exists o c1,
    objects c !! x = Some o /\
    RemoveListener fuel (Some x) c = Removed (detach x o c1) /\
    chain (objects c1) (listener_ c1) (l1 ++ l2) /\
    (x ∉ l1 ++ l2) /\
    (forall y,
       class_ <$> objects c1 !! y = class_ <$> objects c !! y /\
       socket_ <$> objects c1 !! y = socket_ <$> objects c !! y).
Proof.
  intros Hc Hf.
  pose proof (chain_NoDup _ _ _ Hc) as Hnd.
  apply NoDup_app in Hnd as (Hnd1 & Hdis & Hnd2).
  apply NoDup_cons in Hnd2 as [Hx2 Hnd2].
  assert (x ∉ l1) as Hx1.
  { intros Hin. apply (Hdis _ Hin). left. }
  assert (x ∉ l1 ++ l2) as Hx12.
  { intros Hin. apply elem_of_app in Hin as [Hin|Hin]; contradiction. }
  pose proof (chain_suffix _ _ _ _ _ Hc) as Hs.
  inversion Hs as [|? o ? Hxo Htail]; subst.
  exists o. unfold RemoveListener.
  rewrite (search_found _ _ l1 l2) by assumption.
  rewrite Hxo. unfold unlink, before.
  destruct (last l1) as [pv|] eqn:Hlast.
  - apply last_Some in Hlast as [l1' ->].
    rewrite <- app_assoc in Hc. cbn in Hc.
    pose proof (chain_suffix _ _ _ _ _ Hc) as Hpvc.
    inversion Hpvc as [|? po ? Hpo _]; subst.
    rewrite Hpo.
    eexists; split; [reflexivity|]. split; [reflexivity|]. cbn.
    split; [|split; [assumption|]].
    + rewrite <- app_assoc. cbn.
      apply (chain_unlink _ _ _ _ _ _ _ _ Hc Hpo Hxo).
    + intros y. destruct (decide (y = pv)) as [->|Hyp].
      * rewrite lookup_insert_eq, Hpo. split; reflexivity.
      * rewrite lookup_insert_ne by congruence. split; reflexivity.
  - apply last_None in Hlast. subst l1. cbn in *.
    eexists; split; [reflexivity|]. split; [reflexivity|]. cbn.
    split; [assumption|]. split; [assumption|].
    intros y. split; reflexivity.
Qed.

(** X19. RemoveListener (lines 909-930) on a listener of the chain ends, whatever
    the listener's place in the chain: the chain is the old one without that
    listener, in the same order; the listener no longer points to the socket
    nor to a previous listener; no other listener changes class or socket,
    and no listener appears or disappears. *)
Theorem RemoveListener_chain c l x fuel :
  chain (objects c) (listener_ c) l ->
  x ∈ l ->
  length l <= fuel ->
  exists c',
    RemoveListener fuel (Some x) c = Removed c' /\
    chain (objects c') (listener_ c') (filter (fun y => y <> x) l) /\
    (exists o, objects c' !! x = Some o /\
               socket_ o = false /\ previous_listener_ o = None) /\
    (forall y, y <> x ->
       class_ <$> objects c' !! y = class_ <$> objects c !! y /\
       socket_ <$> objects c' !! y = socket_ <$> objects c !! y).
Proof.
  intros Hc Hin Hf.
  apply list_elem_of_split in Hin as (l1 & l2 & ->).
  destruct (RemoveListener_runs c l1 x l2 fuel Hc)
    as (o & c1 & Hxo & Hr & Hc1 & Hx12 & Hsame).
  { rewrite length_app in Hf. cbn in Hf. lia. }
  exists (detach x o c1). split; [exact Hr|].
  rewrite filter_out_middle
    by (intros Hin; apply Hx12, elem_of_app; auto).
  unfold detach. cbn. split; [|split].
  - apply chain_insert_fresh; assumption.
  - eexists; split; [apply lookup_insert_eq|split; reflexivity].
  - intros y Hy. rewrite lookup_insert_ne by congruence. apply Hsame.
Qed.

(** X20. RemoveListener on a listener that is not in the chain fails the
    [CHECK_NOT_NULL(current)] at the end of the chain: it neither returns
    nor runs on. *)
Theorem RemoveListener_absent c l x fuel :
  chain (objects c) (listener_ c) l ->
  x ∉ l ->
  length l < fuel ->
  RemoveListener fuel (Some x) c = Fatal.
Proof.
  intros Hc Hx Hf. unfold RemoveListener.
  rewrite (search_absent _ _ l) by assumption. reflexivity.
Qed.

(** X21. Pushing a listener and removing it again gives back the head and the
    chain that were there before. *)
Theorem PushListener_then_RemoveListener c l x o fuel :
  chain (objects c) (listener_ c) l ->
  attached (objects c) l ->
  objects c !! x = Some o ->
  socket_ o = false ->
  0 < fuel ->
  exists c1 c2,
    PushListener (Some x) c = Some c1 /\
    RemoveListener fuel (Some x) c1 = Removed c2 /\
    listener_ c2 = listener_ c /\
    chain (objects c2) (listener_ c2) l /\
    attached (objects c2) l /\
    objects c2 =
      <[x := {| class_ := class_ o; socket_ := false;
                previous_listener_ := None |}]> (objects c).
Proof.
  intros Hc Hat Hx Ho Hf.
  assert (x ∉ l) as Hfresh.
  { intros Hin. destruct (Hat _ Hin) as (o' & Ho' & Hs). congruence. }
  unfold PushListener. rewrite Hx, Ho.
  eexists; eexists; split; [reflexivity|].
  destruct fuel as [|fuel]; [lia|].
  unfold RemoveListener. cbn [search listener_ objects].
  rewrite decide_True by reflexivity.
  rewrite lookup_insert_eq. unfold unlink, detach. cbn.
  split; [reflexivity|]. split; [reflexivity|].
  rewrite insert_insert_eq.
  split; [apply chain_insert_fresh; assumption|]. split; [|reflexivity].
  intros a Ha. destruct (Hat _ Ha) as (o' & Ho' & Hs).
  exists o'. split; [|assumption]. cbn.
  rewrite lookup_insert_ne; [assumption|]. intros ->. contradiction.
Qed.

Lemma chain_delete_fresh objs st l x :
  chain objs st l -> x ∉ l -> chain (delete x objs) st l.
Proof.
  induction 1 as [|a o' l Ha Hc IH]; intros Hx; [constructor|].
  apply not_elem_of_cons in Hx as [Hxa Hxl].
  econstructor; [rewrite lookup_delete_ne by congruence; exact Ha|auto].
Qed.

(** X22. A listener points to the socket exactly when it is in the socket's
    chain, and this is kept by [PushListener] of a listener that belongs to
    no socket and by the destructor of any listener: listeners can be
    destroyed in any order, each destructor returns (the [CHECK] in
    [RemoveListener] does not fail) and takes only its own listener out of
    the chain. *)
Theorem listeners_stay_consistent c l x o fuel :
  consistent c l ->
  objects c !! x = Some o ->
  length l <= fuel ->
  (socket_ o = false ->
   exists c', PushListener (Some x) c = Some c' /\ consistent c' (x :: l)) /\
  (exists c',
     QuicSocketListener_destroy fuel x c = Removed c' /\
     objects c' !! x = None /\
     consistent c' (filter (fun y => y <> x) l)).
Proof.
  intros [Hc Hown] Hx Hf. split.
  - intros Ho.
    assert (x ∉ l) as Hfresh.
    { intros Hin. apply (Hown x o Hx) in Hin. congruence. }
    unfold PushListener. rewrite Hx, Ho.
    eexists; split; [reflexivity|]. split; cbn.
    + econstructor; [apply lookup_insert_eq|]. cbn.
      apply chain_insert_fresh; assumption.
    + intros y oy Hy. destruct (decide (y = x)) as [->|Hne].
      * rewrite lookup_insert_eq in Hy. injection Hy as Hy. subst oy. cbn.
        split; [intros _; left|reflexivity].
      * rewrite lookup_insert_ne in Hy by congruence.
        rewrite (Hown y oy Hy). rewrite elem_of_cons. intuition congruence.
  - unfold QuicSocketListener_destroy. rewrite Hx.
    destruct (socket_ o) eqn:Ho.
    + assert (x ∈ l) as Hin by (apply (Hown x o Hx); assumption).
      apply list_elem_of_split in Hin as (l1 & l2 & ->).
      destruct (RemoveListener_runs c l1 x l2 fuel Hc)
        as (o' & c1 & Hxo & Hr & Hc1 & Hx12 & Hsame).
      { rewrite length_app in Hf. cbn in Hf. lia. }
      rewrite Hr. eexists; split; [reflexivity|]. cbn.
      split; [apply lookup_delete_eq|].
      rewrite filter_out_middle
        by (intros Hin; apply Hx12, elem_of_app; auto).
      split.
      * apply chain_delete_fresh; [|assumption].
        apply chain_insert_fresh; assumption.
      * intros y oy Hy. cbn in Hy. destruct (decide (y = x)) as [->|Hne].
        { rewrite lookup_delete_eq in Hy. discriminate. }
        rewrite lookup_delete_ne, lookup_insert_ne in Hy by congruence.
        destruct (Hsame y) as [_ Hs]. rewrite Hy in Hs.
        destruct (objects c !! y) as [oy0|] eqn:Hy0; [|discriminate].
        cbn in Hs. injection Hs as Hs. rewrite Hs, (Hown y oy0 Hy0).
        rewrite !elem_of_app, elem_of_cons. intuition congruence.
    + assert (x ∉ l) as Hout.
      { intros Hin. apply (Hown x o Hx) in Hin. congruence. }
      eexists; split; [reflexivity|]. cbn.
      split; [apply lookup_delete_eq|].
      rewrite filter_keeps_others by assumption.
      split; [apply chain_delete_fresh; assumption|].
      intros y oy Hy. cbn in Hy.
      destruct (decide (y = x)) as [->|Hne].
      { rewrite lookup_delete_eq in Hy. discriminate. }
      rewrite lookup_delete_ne in Hy by congruence. apply (Hown y oy Hy).
Qed.

(** X23. An event raised at the head of the chain (lines 105-179) is handled by
    the first JavaScript listener of the chain and by no other; with no
    JavaScript listener in the chain nobody handles it. *)
Theorem OnEvent_first_js objs a l fuel :
  chain objs (Some a) l ->
  length l <= fuel ->
  OnEvent fuel objs a =
    match first_js objs l with
    | Some j => HandledBy j
    | None => Dropped
    end.
Proof.
  revert a fuel. induction l as [|b l IH]; intros a fuel Hc Hf;
    inversion Hc as [|? o ? Ha Htail]; subst.
  destruct fuel as [|fuel]; [cbn in Hf; lia|].
  cbn [OnEvent first_js]. rewrite Ha.
  destruct (class_ o); [|reflexivity].
  destruct (previous_listener_ o) as [pv|] eqn:Hp.
  - apply IH; [assumption|cbn in Hf; lia].
  - inversion Htail; subst. reflexivity.
Qed.

End ListenerChainFacts.

(** ** The further properties on the scenarios *)

Lemma FindSession_lookup_witness :
  aliases_resolve with_alias /\
  session_of (repeat 7 16) with_alias = Some 5%nat /\
  FindSession (repeat 7 16) with_alias =
    Done (session_of (repeat 7 16) with_alias) with_alias.
Proof.
  assert (aliases_resolve with_alias) as Hres.
  { intros alias scid Ha. cbn in Ha.
    apply lookup_singleton_Some in Ha as [_ <-].
    exists 5%nat. vm_compute. reflexivity. }
  split; [exact Hres|]. split; [vm_compute; reflexivity|].
  exact (proj2 (proj2 (FindSession_lookup (repeat 7 16) with_alias)) Hres).
Defined.

Lemma OnReceive_malformed_witness :
  exists s',
    OnReceive (P := quic_platform) (dg_env garbage) 3 [1; 2; 3] peer boot =
      Done Ignored s' /\
    accounting s' = charge Ignored (accounting boot) /\
    get_stat bytes_received (socket_stats_ s') = 3 /\
    effects s' = [].
Proof.
  eexists. split.
  - apply (OnReceive_malformed (P := quic_platform) (dg_env garbage) 3
             [1; 2; 3] peer boot); [reflexivity|lia|exact I].
  - vm_compute. repeat split; reflexivity.
Defined.

Lemma OnReceive_known_session_witness :
  exists s',
    OnReceive (P := quic_platform) handled_short_env 1200 (repeat 0 1200)
      peer with_session = Done Received s' /\
    get_stat bytes_received (socket_stats_ s') = 1200 /\
    effects s' = [SessionReceive 5%nat 1200 peer].
Proof.
  eexists. split.
  - apply (OnReceive_known_session (P := quic_platform) handled_short_env
             1200 (repeat 0 1200) peer with_session short_header 5%nat);
      [reflexivity|lia|reflexivity|vm_compute; reflexivity
      |vm_compute; reflexivity].
  - vm_compute. split; reflexivity.
Defined.

Lemma run_all_dropped_witness :
  run (P := quic_platform) [dropped; dropped] listening =
    Done [SimulatedLoss; SimulatedLoss] listening.
Proof.
  apply (run_all_dropped (P := quic_platform) [dropped; dropped] listening).
  repeat constructor.
Defined.

Lemma SendPacket_sent_at_once_witness :
  exists s',
    SendPacket sent_at_once_env peer some_packet None boot = Done 0 s' /\
    get_stat packets_sent (socket_stats_ s') = 1 /\
    get_stat bytes_sent (socket_stats_ s') = 80 /\
    last_created_send_wrap_ s' = None.
Proof.
  eexists. split.
  - apply (SendPacket_sent_at_once sent_at_once_env peer some_packet None
             boot); [vm_compute; discriminate|reflexivity|reflexivity|
                     reflexivity].
  - vm_compute. repeat split; reflexivity.
Defined.

Lemma SendPacket_then_OnSendDone_witness :
  exists wrap s1,
    SendPacket unknown_short_env peer some_packet None boot = Done 0 s1 /\
    last_created_send_wrap_ s1 = Some wrap /\
    packet_ wrap = Some some_packet /\
    socket_stats_ s1 = socket_stats_ boot /\
    forall status,
      OnSendDone wrap status s1 =
      Done tt (if status =? 0 then charged_as_sent some_packet s1 else s1).
Proof.
  apply (SendPacket_then_OnSendDone unknown_short_env peer some_packet None
           boot); first [reflexivity | vm_compute; discriminate].
Defined.

Lemma SendVersionNegotiation_packet_witness :
  exists s',
    SendVersionNegotiation (P := quic_platform) version_mismatch_env
      0x01020304 (repeat 0xAA 8) (repeat 0xBB 8) peer boot = Done tt s' /\
    accounting s' = accounting boot /\
    reset_table s' = reset_table boot /\
    (effects s' = effects boot \/
     exists packet unused_random d c,
       effects s' = effects boot ++ [EndpointSend peer packet] /\
       diagnostic_label_ packet = "version negotiation"%string /\
       data_ packet =
         VersionNegotiationBody unused_random d c
           [ReservedVersion.GenerateReservedVersion
              (host_byte_order (Platform := quic_platform)) peer 0x01020304;
            NGTCP2_PROTO_VER (Platform := quic_platform)] /\
       length_ packet =
         ngtcp2_pkt_write_version_negotiation (Platform := quic_platform)
           (NGTCP2_MAX_PKTLEN_IPV6 (Platform := quic_platform))
           (len (repeat 0xAA 8)) (len (repeat 0xBB 8)) 2 /\
       0 < ngtcp2_pkt_write_version_negotiation (Platform := quic_platform)
             (NGTCP2_MAX_PKTLEN_IPV6 (Platform := quic_platform))
             (len (repeat 0xAA 8)) (len (repeat 0xBB 8)) 2
         <= len (repeat 0xAA 8) + len (repeat 0xBB 8) + 15).
Proof.
  eexists. split; [vm_compute; reflexivity|].
  apply (SendVersionNegotiation_packet (P := quic_platform)
           version_mismatch_env 0x01020304 (repeat 0xAA 8) (repeat 0xBB 8)
           peer boot).
  vm_compute. reflexivity.
Defined.

Lemma SendRetry_packet_witness :
  SendRetry (P := quic_platform) unknown_short_env 1 (repeat 0xAA 8)
    (repeat 0xBB 8) peer boot = Done false boot /\
  exists s',
    SendRetry (P := quic_platform) retry_env 1 (repeat 0xAA 8)
      (repeat 0xBB 8) peer boot = Done true s' /\
    accounting s' = accounting boot /\
    exists token,
      generate_retry_token retry_env = Some token /\
      0 < ngtcp2_pkt_write_retry (Platform := quic_platform)
            (NGTCP2_MAX_PKTLEN_IPV4 (Platform := quic_platform))
            (len (repeat 0xBB 8)) (kScidLen (Platform := quic_platform))
            (len (repeat 0xAA 8)) (len token).
Proof.
  pose proof (SendRetry_packet (P := quic_platform) unknown_short_env 1
                (repeat 0xAA 8) (repeat 0xBB 8) peer boot) as Hnone.
  pose proof (SendRetry_packet (P := quic_platform) retry_env 1
                (repeat 0xAA 8) (repeat 0xBB 8) peer boot) as Hsome.
  split; [apply (proj1 Hnone); reflexivity|].
  eexists. split; [vm_compute; reflexivity|].
  destruct (proj2 Hsome true _ ltac:(vm_compute; reflexivity))
    as (Hacc & _ & _ & Htrue).
  split; [exact Hacc|]. apply Htrue. reflexivity.
Defined.

Lemma AcceptInitialPacket_session_witness :
  AcceptInitialPacket (P := quic_platform) factory_succeeds_env 1
    (repeat 0xAA 8) (repeat 0xBB 8) 1252 (repeat 0 1252) peer boot =
    Done None boot /\
  exists s',
    AcceptInitialPacket (P := quic_platform) factory_succeeds_env 1
      (repeat 0xAA 8) (repeat 0xBB 8) 1252 (repeat 0 1252) peer listening =
      Done (Some 1%nat) s' /\
    QUICSOCKET_FLAGS_SERVER_LISTENING listening = true /\
    accept factory_succeeds_env = PACKET_OK /\
    (exists token, create_server factory_succeeds_env = Some (1%nat, token)) /\
    (exists before,
       effects s' = before ++ [ListenerOnSessionReady (Some 1%nat)]).
Proof.
  split.
  - apply (proj1 (AcceptInitialPacket_session (P := quic_platform)
                    factory_succeeds_env 1 (repeat 0xAA 8) (repeat 0xBB 8)
                    1252 (repeat 0 1252) peer boot)). reflexivity.
  - eexists. split; [vm_compute; reflexivity|].
    apply (proj2 (AcceptInitialPacket_session (P := quic_platform)
                    factory_succeeds_env 1 (repeat 0xAA 8) (repeat 0xBB 8)
                    1252 (repeat 0 1252) peer listening)).
    vm_compute. reflexivity.
Defined.

Lemma run_bytes_received_witness :
  exists xs s',
    run (P := quic_platform) [dropped; unknown_short; garbage] boot =
      Done xs s' /\
    get_stat bytes_received (socket_stats_ s') =
    get_stat bytes_received (socket_stats_ boot) +
    bytes_let_through [dropped; unknown_short; garbage].
Proof.
  eexists. eexists. split; [vm_compute; reflexivity|].
  eapply (run_bytes_received (P := quic_platform)
           [dropped; unknown_short; garbage] boot);
    [vm_compute; reflexivity
    |repeat constructor; vm_compute; discriminate
    |vm_compute; discriminate].
Defined.

Lemma run_not_listening_witness :
  exists xs s',
    run (P := quic_platform) [initial_packet; unknown_short; garbage] boot =
      Done xs s' /\
    QUICSOCKET_FLAGS_SERVER_LISTENING s' = false /\
    count_eff is_creation s' = count_eff is_creation boot /\
    sessions_ s' = sessions_ boot /\ dcid_to_scid_ s' = dcid_to_scid_ boot /\
    token_map_ s' = token_map_ boot /\ addr_counts_ s' = addr_counts_ boot /\
    validated_addrs_ s' = validated_addrs_ boot.
Proof.
  eexists. eexists. split; [vm_compute; reflexivity|].
  eapply (run_not_listening (P := quic_platform)
           [initial_packet; unknown_short; garbage] boot);
    [reflexivity|vm_compute; reflexivity].
Defined.

Lemma OnReceive_reset_disabled_witness :
  exists x s',
    OnReceive (P := quic_platform) unknown_short_env 1200 (repeat 0 1200)
      peer reset_disabled = Done x s' /\
    x <> HandledStatelessReset /\ x <> SentStatelessReset /\
    QUICSOCKET_FLAGS_DISABLE_STATELESS_RESET s' = true /\
    reset_counts_ s' = reset_counts_ reset_disabled /\
    count_eff (is_reset_to peer) s' =
      count_eff (is_reset_to peer) reset_disabled /\
    get_stat stateless_reset_count (socket_stats_ s') =
    get_stat stateless_reset_count (socket_stats_ reset_disabled).
Proof.
  eexists. eexists. split; [vm_compute; reflexivity|].
  apply (OnReceive_reset_disabled (P := quic_platform) peer unknown_short_env
           1200 (repeat 0 1200) peer reset_disabled);
    [reflexivity|vm_compute; reflexivity].
Defined.

Lemma stateless_resets_within_cap_witness :
  exists s',
    steps (P := quic_platform) five_unknown
      (new_socket 10 3 false false false) = Done tt s' /\
    count_eff (is_reset_to peer) s' = 3 /\
    count_eff (is_reset_to peer) s' <=
      GetCurrentStatelessResetCounter peer s' /\
    GetCurrentStatelessResetCounter peer s' <=
      max_stateless_resets_per_host_ s'.
Proof.
  eexists. split; [vm_compute; reflexivity|].
  split; [vm_compute; reflexivity|].
  apply (stateless_resets_within_cap (P := quic_platform) five_unknown
           10 3 false false false _ peer);
    [lia|vm_compute; reflexivity].
Defined.

Lemma AcceptInitialPacket_validation_witness :
  (exists s',
     AcceptInitialPacket (P := quic_platform) factory_succeeds_env 1
       (repeat 0xAA 8) (repeat 0xBB 8) 1252 (repeat 0 1252) peer validating =
       Done None s' /\
     standing s' = standing validating) /\
  (exists s',
     AcceptInitialPacket (P := quic_platform) valid_token_env 1
       (repeat 0xAA 8) (repeat 0xBB 8) 1252 (repeat 0 1252) peer validating =
       Done (Some 1%nat) s' /\
     effects s' =
       effects validating ++
       [SessionCreateServer (repeat 0xAA 8) peer (repeat 0xBB 8)
          (Some (repeat 0xCC 8)) 1 NGTCP2_NO_ERROR;
        ListenerOnSessionReady (Some 1%nat)] /\
     (QUICSOCKET_OPTIONS_VALIDATE_ADDRESS_LRU validating = true ->
      is_validated_address peer s' = true)).
Proof.
  split.
  - eexists. split; [vm_compute; reflexivity|].
    apply (AcceptInitialPacket_validation (P := quic_platform)
             factory_succeeds_env 1 (repeat 0xAA 8) (repeat 0xBB 8) 1252
             (repeat 0 1252) peer validating
             eq_refl eq_refl eq_refl eq_refl eq_refl eq_refl eq_refl None).
    vm_compute. reflexivity.
  - exact (AcceptInitialPacket_validation (P := quic_platform)
             valid_token_env 1 (repeat 0xAA 8) (repeat 0xBB 8) 1252
             (repeat 0 1252) peer validating
             eq_refl eq_refl eq_refl eq_refl eq_refl eq_refl eq_refl
             1%nat (repeat 9 16) eq_refl).
Defined.

Module ListenerChainScenarios.
Import ListenerChain.
#[local] Open Scope nat_scope.

Lemma one_listener_chain :
  chain (objects one_listener) (listener_ one_listener) [1].
Proof.
  apply (chain_cons _ 1 default_listener []); [reflexivity|constructor].
Qed.

Lemma one_listener_attached : attached (objects one_listener) [1].
Proof.
  intros a Ha. apply list_elem_of_singleton in Ha as ->.
  exists default_listener. split; reflexivity.
Qed.

Lemma two_listeners_chain :
  chain (objects two_listeners) (listener_ two_listeners) [2; 1].
Proof.
  apply (chain_cons _ 2
           {| class_ := QuicSocketListener; socket_ := true;
              previous_listener_ := Some 1 |} [1]); [reflexivity|].
  apply (chain_cons _ 1 default_listener []); [reflexivity|constructor].
Qed.

Lemma PushListener_chain_witness :
  exists c',
    PushListener (Some 2) one_listener = Some c' /\
    listener_ c' = Some 2 /\
    chain (objects c') (listener_ c') [2; 1] /\
    attached (objects c') [2; 1].
Proof.
  apply (ListenerChainFacts.PushListener_chain one_listener [1] 2
           {| class_ := QuicSocketListener; socket_ := false;
              previous_listener_ := None |});
    [exact one_listener_chain|exact one_listener_attached
    |reflexivity|reflexivity].
Defined.

Lemma RemoveListener_chain_witness :
  exists c',
    RemoveListener 2 (Some 1) two_listeners = Removed c' /\
    chain (objects c') (listener_ c') (filter (fun y => y <> 1) [2; 1]) /\
    (exists o, objects c' !! 1 = Some o /\
               socket_ o = false /\ previous_listener_ o = None) /\
    (forall y, y <> 1 ->
       class_ <$> objects c' !! y = class_ <$> objects two_listeners !! y /\
       socket_ <$> objects c' !! y = socket_ <$> objects two_listeners !! y).
Proof.
  apply (ListenerChainFacts.RemoveListener_chain two_listeners [2; 1] 1 2);
    [exact two_listeners_chain
    |apply list_elem_of_further, list_elem_of_here
    |cbn; lia].
Defined.

Lemma RemoveListener_absent_witness :
  RemoveListener 3 (Some 2) one_listener = Fatal.
Proof.
  apply (ListenerChainFacts.RemoveListener_absent one_listener [1] 2 3);
    [exact one_listener_chain
    |intros H; apply list_elem_of_singleton in H; discriminate
    |cbn; lia].
Defined.

Lemma PushListener_then_RemoveListener_witness :
  exists c1 c2,
    PushListener (Some 2) one_listener = Some c1 /\
    RemoveListener 1 (Some 2) c1 = Removed c2 /\
    listener_ c2 = listener_ one_listener /\
    chain (objects c2) (listener_ c2) [1] /\
    attached (objects c2) [1] /\
    objects c2 =
      <[2 := {| class_ := QuicSocketListener; socket_ := false;
                previous_listener_ := None |}]> (objects one_listener).
Proof.
  apply (ListenerChainFacts.PushListener_then_RemoveListener one_listener
           [1] 2
           {| class_ := QuicSocketListener; socket_ := false;
              previous_listener_ := None |} 1);
    [exact one_listener_chain|exact one_listener_attached
    |reflexivity|reflexivity|lia].
Defined.

Lemma one_listener_consistent : consistent one_listener [1].
Proof.
  split; [exact one_listener_chain|].
  intros x o Hx. unfold one_listener in Hx. cbn in Hx.
  destruct (decide (x = 1)) as [->|H1].
  - rewrite lookup_insert_eq in Hx. injection Hx as <-.
    split; [intros _; left|reflexivity].
  - rewrite lookup_insert_ne in Hx by congruence.
    apply lookup_singleton_Some in Hx as [<- <-].
    split; [discriminate|].
    intros H. apply list_elem_of_singleton in H. discriminate.
Qed.

Lemma two_listeners_consistent : consistent two_listeners [2; 1].
Proof.
  split; [exact two_listeners_chain|].
  intros x o Hx. unfold two_listeners in Hx. cbn in Hx.
  destruct (decide (x = 1)) as [->|H1].
  - rewrite lookup_insert_eq in Hx. injection Hx as <-.
    split; [intros _; right; left|reflexivity].
  - rewrite lookup_insert_ne in Hx by congruence.
    apply lookup_singleton_Some in Hx as [<- <-].
    split; [intros _; left|reflexivity].
Qed.

Lemma listeners_stay_consistent_witness :
  (exists c',
     PushListener (Some 2) one_listener = Some c' /\
     consistent c' [2; 1]) /\
  (exists c',
     QuicSocketListener_destroy 2 1 two_listeners = Removed c' /\
     objects c' !! 1 = None /\
     consistent c' (filter (fun y => y <> 1) [2; 1])).
Proof.
  split.
  - apply (proj1 (ListenerChainFacts.listeners_stay_consistent one_listener
                    [1] 2
                    {| class_ := QuicSocketListener; socket_ := false;
                       previous_listener_ := None |} 1
                    one_listener_consistent eq_refl ltac:(cbn; lia))).
    reflexivity.
  - apply (proj2 (ListenerChainFacts.listeners_stay_consistent two_listeners
                    [2; 1] 1 default_listener 2
                    two_listeners_consistent eq_refl ltac:(cbn; lia))).
Defined.

Lemma OnEvent_first_js_witness :
  OnEvent 2 (objects two_listeners) 2 = HandledBy 1.
Proof.
  apply (ListenerChainFacts.OnEvent_first_js (objects two_listeners) 2
           [2; 1] 2); [exact two_listeners_chain|cbn; lia].
Defined.

End ListenerChainScenarios.
